(** * CallApi: the 1-to-1 call signalling engine of callapi-demo

    A shallow embedding of [src/callApi/core/callApi.ts].  The class
    [CallApi] becomes a record; its methods become computations in a small
    state-and-exception monad over a [World] that holds the object, the
    JavaScript runtime pieces the class relies on (pending timers, pending
    awaits, promise joins) and a log of everything the class emits or asks
    of its collaborators.  Every log entry carries a copy of the object as
    it was when the entry was written, so that properties "at every
    observable point" can be stated over the log.

    What is external to the class is an input of the model: the signalling
    transport and the media client settle the awaited requests, the timer
    fires, the peer's messages arrive, [uuidv4] supplies the call id. *)

From Stdlib Require Import ZArith List String Bool Lia.
Import ListNotations.
Local Open Scope string_scope.
Local Open Scope list_scope.
Local Open Scope Z_scope.

(** ** Enumerations of [../types]

    The declarations of [../types] are not part of the sources at hand; the
    enumerations are taken from their uses in [callApi.ts] and from the data
    model of the specification. *)

Module CallStateType.
Inductive t : Type := idle | prepared | calling | connecting | connected.

Definition eqb (a b : t) : bool :=
  match a, b with
  | idle, idle | prepared, prepared | calling, calling
  | connecting, connecting | connected, connected => true
  | _, _ => false
  end.
End CallStateType.

Module CallStateReason.
Inductive t : Type :=
| none | localVideoCall | localAudioCall | remoteVideoCall | remoteAudioCall
| localAccepted | remoteAccepted | localRejected | remoteRejected
| remoteCallBusy | localCancel | remoteCancel | localHangup | remoteHangup
| recvRemoteFirstFrame | callingTimeout.
End CallStateReason.

Module CallEvent.
Inductive t : Type :=
| onCalling | remoteUserRecvCall | localAccepted | remoteAccepted
| localRejected | remoteRejected | remoteCallBusy | localCancelled
| remoteCancelled | localHangup | remoteHangup | joinRTCStart
| joinRTCSuccessed | localJoined | remoteJoined | localLeft | remoteLeft
| publishFirstLocalVideoFrame | recvRemoteFirstFrame | callingTimeout
| remoteCallingTimeout | stateMismatch.
End CallEvent.

Module CallAction.
Inductive t : Type := VideoCall | AudioCall | Accept | Reject | Cancel | Hangup.
End CallAction.

Module RejectByInternal.
Inductive t : Type := External | Internal.
End RejectByInternal.

Module CallType.
Inductive t : Type := video | audio.
End CallType.

Module CallErrorEvent.
Inductive t : Type := rtcOccurError | sendMessageFail.
End CallErrorEvent.

Module CallErrorCodeType.
Inductive t : Type := normal | rtc | message.
End CallErrorCodeType.

(** The two media kinds of the media client's [user-published] event. *)
Inductive MediaType : Type := media_video | media_audio.

(** ** Values *)

(** User ids are JavaScript numbers; the model takes the integers.  [0] is
    the only falsy one ([Number(x)] is the identity on them). *)
Definition UserId : Type := Z.

(** A JavaScript [Error]; only its message is kept. *)
Definition Error : Type := string.

(** DOM nodes the class touches: the two module-level elements of
    [../common] and the containers handed in by the application. *)
Inductive HTMLElement : Type :=
| LOCAL_VIEW_ELEMENT
| REMOTE_VIEW_ELEMENT
| app_view (handle : nat).

(** A media track of the SDK.  [isPlaying] is the SDK's own flag, read by
    the class: [play] raises it, [stop] and [close] lower it. *)
Record Track : Type := mkTrack { trackId : nat; isPlaying : bool }.

Record ILocalTracks : Type := mkLocalTracks {
  local_audioTrack : option Track;
  local_videoTrack : option Track
}.

Record IRemoteTracks : Type := mkRemoteTracks {
  remote_audioTrack : option Track;
  remote_videoTrack : option Track
}.

(** The signalling envelope.  Optional keys are options. *)
Module ICallMessage.
Record t : Type := mk {
  callId : string;
  fromUserId : UserId;
  remoteUserId : UserId;
  fromRoomId : option string;
  message_action : CallAction.t;
  rejectReason : option string;
  rejectByInternal : option RejectByInternal.t;
  cancelCallByInternal : option RejectByInternal.t
}.
End ICallMessage.

Record ICallConfig : Type := mkCallConfig {
  userId : UserId;
  appId : string
}.

(** [IPrepareConfig]: every key is optional ([prepareConfig = {}] at
    construction).  [videoConfig] and [audioConfig] are opaque. *)
Record IPrepareConfig : Type := mkPrepareConfig {
  roomId : option string;
  rtcToken : option string;
  localView : option HTMLElement;
  remoteView : option HTMLElement;
  autoAccept : option bool;
  callTimeoutMillisecond : option Z;
  firstFrameWaittingDisabled : option bool;
  videoConfig : option nat;
  audioConfig : option nat
}.

Definition emptyPrepareConfig : IPrepareConfig :=
  mkPrepareConfig None None None None None None None None None.

(** JavaScript truthiness of the optional values the class tests. *)
Definition truthy_bool (b : option bool) : bool :=
  match b with Some true => true | _ => false end.

Definition truthy_num (z : option Z) : bool :=
  match z with Some n => negb (n =? 0) | None => false end.

Definition truthy_str (s : option string) : bool :=
  match s with Some "" => false | Some _ => true | None => false end.

Definition truthy_id (u : UserId) : bool := negb (u =? 0).

Definition string_of (s : option string) : string :=
  match s with Some x => x | None => "" end.

Definition is_some {A : Type} (o : option A) : bool :=
  match o with Some _ => true | None => false end.

(** ** The two helper classes

    [CallInfo] and [CallMessage] live in files that are not part of the
    sources at hand; only their calls appear in [callApi.ts]. *)

Module CallInfo.
Inductive milestone : Type :=
| start_ | remoteUserRecvCall | acceptCall | localUserJoinChannel
| remoteUserJoinChannel | recvFirstFrame | end_.

(** Modelled from the spec: the class [CallInfo] of [./callInfo] is missing.
    "An append-only ordered list of (milestone, timestamp) pairs ...  Reset
    at teardown; emitted as a snapshot on first-frame decode."  The clock
    readings are left out, the order of the milestones is kept. *)
Definition t : Type := list milestone.

Definition new : t := [].
Definition start (i : t) : t := i ++ [start_].
Definition add (m : milestone) (i : t) : t := i ++ [m].
Definition finish (i : t) : t := [].
Definition getInfo (i : t) : list milestone := i.
End CallInfo.

Module CallMessage.
(** Modelled from the spec: the class [CallMessage] of [./callMessage] is
    missing.  "The codec holds the current callId and stamps it onto every
    outbound message; decoding extracts all envelope fields."  The wire
    string is not modelled: an encoded message is the stamped envelope. *)
Record t : Type := mk { held_callId : string }.

Definition new : t := mk "".
Definition setCallId (id : string) (m : t) : t := mk id.
Definition getCallId (m : t) : string := held_callId m.

Definition encode (m : t) (msg : ICallMessage.t) : ICallMessage.t :=
  ICallMessage.mk (held_callId m)
    (ICallMessage.fromUserId msg) (ICallMessage.remoteUserId msg)
    (ICallMessage.fromRoomId msg) (ICallMessage.message_action msg)
    (ICallMessage.rejectReason msg) (ICallMessage.rejectByInternal msg)
    (ICallMessage.cancelCallByInternal msg).
End CallMessage.

(** The message literal handed to [_publishMessage]: the keys every call
    site gives; the other keys are added by [with_*]. *)
Definition message (from to : UserId) (action : CallAction.t) : ICallMessage.t :=
  ICallMessage.mk "" from to None action None None None.

Definition with_fromRoomId (r : option string) (m : ICallMessage.t) : ICallMessage.t :=
  ICallMessage.mk (ICallMessage.callId m) (ICallMessage.fromUserId m)
    (ICallMessage.remoteUserId m) r (ICallMessage.message_action m)
    (ICallMessage.rejectReason m) (ICallMessage.rejectByInternal m)
    (ICallMessage.cancelCallByInternal m).

Definition with_reject (reason : option string) (by_ : RejectByInternal.t)
  (m : ICallMessage.t) : ICallMessage.t :=
  ICallMessage.mk (ICallMessage.callId m) (ICallMessage.fromUserId m)
    (ICallMessage.remoteUserId m) (ICallMessage.fromRoomId m)
    (ICallMessage.message_action m) reason (Some by_)
    (ICallMessage.cancelCallByInternal m).

Definition with_cancelCallByInternal (by_ : RejectByInternal.t)
  (m : ICallMessage.t) : ICallMessage.t :=
  ICallMessage.mk (ICallMessage.callId m) (ICallMessage.fromUserId m)
    (ICallMessage.remoteUserId m) (ICallMessage.fromRoomId m)
    (ICallMessage.message_action m) (ICallMessage.rejectReason m)
    (ICallMessage.rejectByInternal m) (Some by_).

(** ** The object *)

Record CallApi : Type := mkCallApi {
  callConfig : ICallConfig;
  prepareConfig : IPrepareConfig;
  state : CallStateType.t;
  remoteUserId : UserId;
  localTracks : ILocalTracks;
  remoteTracks : IRemoteTracks;
  callType : CallType.t;
  _callInfo : CallInfo.t;
  _callMessage : CallMessage.t;
  _rtcJoined : bool;
  _receiveRemoteFirstFrameDecoded : bool;
  _cancelCallTimer : option nat
}.

(** The field initialisers of the class. *)
Definition new_CallApi (config : ICallConfig) : CallApi :=
  mkCallApi config emptyPrepareConfig CallStateType.idle 0
    (mkLocalTracks None None) (mkRemoteTracks None None) CallType.video
    CallInfo.new CallMessage.new false false None.

Definition set_prepareConfig (v : IPrepareConfig) (a : CallApi) : CallApi :=
  mkCallApi (callConfig a) v (state a) (remoteUserId a) (localTracks a)
    (remoteTracks a) (callType a) (_callInfo a) (_callMessage a)
    (_rtcJoined a) (_receiveRemoteFirstFrameDecoded a) (_cancelCallTimer a).

Definition set_state (v : CallStateType.t) (a : CallApi) : CallApi :=
  mkCallApi (callConfig a) (prepareConfig a) v (remoteUserId a) (localTracks a)
    (remoteTracks a) (callType a) (_callInfo a) (_callMessage a)
    (_rtcJoined a) (_receiveRemoteFirstFrameDecoded a) (_cancelCallTimer a).

Definition set_remoteUserId (v : UserId) (a : CallApi) : CallApi :=
  mkCallApi (callConfig a) (prepareConfig a) (state a) v (localTracks a)
    (remoteTracks a) (callType a) (_callInfo a) (_callMessage a)
    (_rtcJoined a) (_receiveRemoteFirstFrameDecoded a) (_cancelCallTimer a).

Definition set_localTracks (v : ILocalTracks) (a : CallApi) : CallApi :=
  mkCallApi (callConfig a) (prepareConfig a) (state a) (remoteUserId a) v
    (remoteTracks a) (callType a) (_callInfo a) (_callMessage a)
    (_rtcJoined a) (_receiveRemoteFirstFrameDecoded a) (_cancelCallTimer a).

Definition set_remoteTracks (v : IRemoteTracks) (a : CallApi) : CallApi :=
  mkCallApi (callConfig a) (prepareConfig a) (state a) (remoteUserId a)
    (localTracks a) v (callType a) (_callInfo a) (_callMessage a)
    (_rtcJoined a) (_receiveRemoteFirstFrameDecoded a) (_cancelCallTimer a).

Definition set_callType (v : CallType.t) (a : CallApi) : CallApi :=
  mkCallApi (callConfig a) (prepareConfig a) (state a) (remoteUserId a)
    (localTracks a) (remoteTracks a) v (_callInfo a) (_callMessage a)
    (_rtcJoined a) (_receiveRemoteFirstFrameDecoded a) (_cancelCallTimer a).

Definition set_callInfo (v : CallInfo.t) (a : CallApi) : CallApi :=
  mkCallApi (callConfig a) (prepareConfig a) (state a) (remoteUserId a)
    (localTracks a) (remoteTracks a) (callType a) v (_callMessage a)
    (_rtcJoined a) (_receiveRemoteFirstFrameDecoded a) (_cancelCallTimer a).

Definition set_callMessage (v : CallMessage.t) (a : CallApi) : CallApi :=
  mkCallApi (callConfig a) (prepareConfig a) (state a) (remoteUserId a)
    (localTracks a) (remoteTracks a) (callType a) (_callInfo a) v
    (_rtcJoined a) (_receiveRemoteFirstFrameDecoded a) (_cancelCallTimer a).

Definition set_rtcJoined (v : bool) (a : CallApi) : CallApi :=
  mkCallApi (callConfig a) (prepareConfig a) (state a) (remoteUserId a)
    (localTracks a) (remoteTracks a) (callType a) (_callInfo a)
    (_callMessage a) v (_receiveRemoteFirstFrameDecoded a) (_cancelCallTimer a).

Definition set_receiveRemoteFirstFrameDecoded (v : bool) (a : CallApi) : CallApi :=
  mkCallApi (callConfig a) (prepareConfig a) (state a) (remoteUserId a)
    (localTracks a) (remoteTracks a) (callType a) (_callInfo a)
    (_callMessage a) (_rtcJoined a) v (_cancelCallTimer a).

Definition set_cancelCallTimer (v : option nat) (a : CallApi) : CallApi :=
  mkCallApi (callConfig a) (prepareConfig a) (state a) (remoteUserId a)
    (localTracks a) (remoteTracks a) (callType a) (_callInfo a)
    (_callMessage a) (_rtcJoined a) (_receiveRemoteFirstFrameDecoded a) v.

(** The getters of the class. *)
Definition isBusy (a : CallApi) : bool :=
  CallStateType.eqb (state a) CallStateType.calling
  || CallStateType.eqb (state a) CallStateType.connected
  || CallStateType.eqb (state a) CallStateType.connecting.

Definition getCallId (a : CallApi) : string :=
  CallMessage.getCallId (_callMessage a).

(** ** What the class emits and requests *)

(** The [eventInfo] objects the class builds. *)
Inductive EventInfo : Type :=
| info_undefined
| info_call (remoteUserId fromUserId : UserId)
| info_cancel (cancelCallByInternal : option RejectByInternal.t)
| info_reject (rejectReason : option string).

Inductive Obs : Type :=
(* the four application-facing events, [this.emit(...)] *)
| callStateChanged (s : CallStateType.t) (r : CallStateReason.t)
    (eventReason : option string) (eventInfo : EventInfo)
| callEventChanged (e : CallEvent.t)
| callError (ev : CallErrorEvent.t) (ty : CallErrorCodeType.t) (err : Error)
| callInfoChanged (info : list CallInfo.milestone)
(* requests to the signalling transport and the media client *)
| sendMessage (uid : UserId) (payload : ICallMessage.t)
| rtc_join (app room token : string) (uid : UserId)
| rtc_leave
| rtc_publish (videoTrack audioTrack : Track)
| rtc_subscribe (uid : UserId) (m : MediaType)
| rtc_unsubscribe (uid : UserId) (m : MediaType)
| createMicrophoneAndCameraTracks (audio video : option nat)
(* DOM and track operations *)
| appendChild (parent child : HTMLElement)
| innerHTML_clear (node : HTMLElement)
| track_play (t : Track) (target : option HTMLElement)
| track_stop (t : Track)
| track_close (t : Track)
| track_on_first_frame_decoded (t : Track).

(** ** The runtime under the class *)

(** A pending [setTimeout] of [_autoCancelCall]; its callback closes over
    [isLocal]. *)
Record Timer : Type := mkTimer {
  timer_id : nat;
  timer_delay : Z;
  timer_isLocal : bool
}.

(** What runs once an awaited promise settles: the rest of the [async]
    method that awaits, named by the place of the [await]. *)
Inductive AfterSend : Type :=
| after_send_nothing          (* only [logger.debug] follows *)
| after_send_call.            (* [call]: lines 173-174 *)

Inductive AfterDestory : Type :=
| after_destory_nothing
| after_destory_receiveReject (stateReason : CallStateReason.t)
    (rejectReason : option string)   (* [_receiveReject]: lines 410-413 *)
| after_destory_userLeft.            (* [user-left]: lines 537-540 *)

Inductive AfterJoinAndPublish : Type :=
| after_join_nothing                 (* [call] does not await it *)
| after_join_receiveVideoCall.       (* [_receiveVideoCall]: lines 371-373 *)

Inductive Await : Type :=
| await_sendMessage (k : AfterSend)
| await_leave (k : AfterDestory)
| await_createTracks (join : nat)
| await_join (join : nat)
| await_publish (k : AfterJoinAndPublish)
| await_subscribe (uid : UserId) (m : MediaType)
| await_unsubscribe (uid : UserId) (m : MediaType).

(** The [Promise.all] of [_rtcJoinAndPublish]: fulfilled when both
    branches are, rejected by the first branch that rejects. *)
Record Join : Type := mkJoin {
  join_waiting : nat;
  join_rejected : bool;
  join_after : AfterJoinAndPublish
}.

(** A promise reaction that is already due but runs only after the
    synchronous code of the current turn. *)
Inductive Job : Type :=
| job_rtcJoinAndPublish_catch (e : Error) (k : AfterJoinAndPublish).

Record Runtime : Type := mkRuntime {
  timers : list Timer;
  nextTimer : nat;
  awaits : list Await;
  joins : list Join;
  jobs : list Job;
  observed : list nat     (* tracks with a [first-frame-decoded] handler *)
}.

Definition new_Runtime : Runtime := mkRuntime [] 0%nat [] [] [] [].

(** An observable point: what was emitted or requested, and the object and
    the pending timers at that moment. *)
Record Point : Type := mkPoint {
  at_api : CallApi;
  at_timers : list Timer;
  obs : Obs
}.

Record World : Type := mkWorld {
  api : CallApi;
  rt : Runtime;
  log : list Point
}.

Definition new_World (config : ICallConfig) : World :=
  mkWorld (new_CallApi config) new_Runtime [].

(** ** The monad: state, and exceptions that keep the state *)

Inductive Result (A : Type) : Type :=
| Ok (a : A)
| Threw (e : Error).
Arguments Ok {A} a.
Arguments Threw {A} e.

Definition M (A : Type) : Type := World -> Result A * World.

Definition ret {A : Type} (a : A) : M A := fun w => (Ok a, w).

Definition bind {A B : Type} (m : M A) (k : A -> M B) : M B :=
  fun w =>
    match m w with
    | (Ok a, w') => k a w'
    | (Threw e, w') => (Threw e, w')
    end.

Definition throw {A : Type} (e : Error) : M A := fun w => (Threw e, w).

(** [await] of a call whose rejection nobody handles: the state changes
    stay, the error goes nowhere. *)
Definition attempt (m : M unit) : M unit := fun w => (Ok tt, snd (m w)).

Notation "x <- m ;; k" := (bind m (fun x => k))
  (at level 61, m at next level, right associativity).
Notation "m ;; k" := (bind m (fun _ => k))
  (at level 61, right associativity).

Definition this : M CallApi := fun w => (Ok (api w), w).

Definition update (f : CallApi -> CallApi) : M unit :=
  fun w => (Ok tt, mkWorld (f (api w)) (rt w) (log w)).

Definition runtime : M Runtime := fun w => (Ok (rt w), w).

Definition update_rt (f : Runtime -> Runtime) : M unit :=
  fun w => (Ok tt, mkWorld (api w) (f (rt w)) (log w)).

Definition emit (o : Obs) : M unit :=
  fun w =>
    (Ok tt, mkWorld (api w) (rt w)
              (log w ++ [mkPoint (api w) (timers (rt w)) o])).

Definition when (b : bool) (m : M unit) : M unit := if b then m else ret tt.

Definition when_some {A : Type} (o : option A) (m : A -> M unit) : M unit :=
  match o with Some a => m a | None => ret tt end.

(** [setTimeout] and [clearTimeout]. *)
Definition setTimeout (isLocal : bool) (time : Z) : M nat :=
  r <- runtime ;;
  update_rt (fun r =>
    mkRuntime (timers r ++ [mkTimer (nextTimer r) time isLocal])
      (S (nextTimer r)) (awaits r) (joins r) (jobs r) (observed r)) ;;
  ret (nextTimer r).

Definition clearTimeout (id : nat) : M unit :=
  update_rt (fun r =>
    mkRuntime (filter (fun t => negb (Nat.eqb (timer_id t) id)) (timers r))
      (nextTimer r) (awaits r) (joins r) (jobs r) (observed r)).

(** Suspend on a promise of a collaborator. *)
Definition await (a : Await) : M unit :=
  update_rt (fun r =>
    mkRuntime (timers r) (nextTimer r) (awaits r ++ [a]) (joins r) (jobs r)
      (observed r)).

Definition new_join (n : nat) (k : AfterJoinAndPublish) : M nat :=
  r <- runtime ;;
  update_rt (fun r =>
    mkRuntime (timers r) (nextTimer r) (awaits r)
      (joins r ++ [mkJoin n false k]) (jobs r) (observed r)) ;;
  ret (List.length (joins r)).

Fixpoint set_nth {A : Type} (n : nat) (x : A) (l : list A) : list A :=
  match l, n with
  | [], _ => []
  | _ :: t, O => x :: t
  | h :: t, S n' => h :: set_nth n' x t
  end.

Fixpoint remove_nth {A : Type} (n : nat) (l : list A) : list A :=
  match l, n with
  | [], _ => []
  | _ :: t, O => t
  | h :: t, S n' => h :: remove_nth n' t
  end.

Definition set_join (j : nat) (v : Join) : M unit :=
  update_rt (fun r =>
    mkRuntime (timers r) (nextTimer r) (awaits r) (set_nth j v (joins r))
      (jobs r) (observed r)).

Definition defer (j : Job) : M unit :=
  update_rt (fun r =>
    mkRuntime (timers r) (nextTimer r) (awaits r) (joins r) (jobs r ++ [j])
      (observed r)).

Definition observe (track : nat) : M unit :=
  update_rt (fun r =>
    mkRuntime (timers r) (nextTimer r) (awaits r) (joins r) (jobs r)
      (observed r ++ [track])).

(** ** The methods of [CallApi] *)

(** [_callStateChange] (lines 710-728). *)
Definition _callStateChange (s : CallStateType.t) (stateReason : CallStateReason.t)
  (eventReason : option string) (eventInfo : EventInfo) : M unit :=
  a <- this ;;
  if CallStateType.eqb (state a) s then ret tt
  else
    update (set_state s) ;;
    emit (callStateChanged s stateReason eventReason eventInfo).

(** [_callEventChange] (lines 730-733). *)
Definition _callEventChange (event : CallEvent.t) : M unit :=
  emit (callEventChanged event).

(** [_callError] (lines 699-708). *)
Definition _callError (errorEvent : CallErrorEvent.t)
  (errorType : CallErrorCodeType.t) (err : Error) : M unit :=
  emit (callError errorEvent errorType err).

(** [_isCallingUser] (lines 416-421). *)
Definition _isCallingUser (a : CallApi) (uid : UserId) : bool :=
  if negb (truthy_id (remoteUserId a)) then true
  else remoteUserId a =? uid.

(** [_resetView] (lines 750-758). *)
Definition _resetView : M unit :=
  a <- this ;;
  when_some (localView (prepareConfig a)) (fun v => emit (innerHTML_clear v)) ;;
  when_some (remoteView (prepareConfig a)) (fun v => emit (innerHTML_clear v)).

(** [_resetData] (lines 735-748). *)
Definition _resetData : M unit :=
  update (fun a => set_callMessage (CallMessage.setCallId "" (_callMessage a)) a) ;;
  update (set_remoteUserId 0) ;;
  update (set_localTracks (mkLocalTracks None None)) ;;
  update (set_remoteTracks (mkRemoteTracks None None)) ;;
  update (set_rtcJoined false) ;;
  update (set_receiveRemoteFirstFrameDecoded false) ;;
  _resetView ;;
  a <- this ;;
  when_some (_cancelCallTimer a) (fun id =>
    clearTimeout id ;;
    update (set_cancelCallTimer None)) ;;
  update (fun a => set_callInfo (CallInfo.finish (_callInfo a)) a).

(** [_playLocalVideo] (lines 479-491). *)
Definition _playLocalVideo : M unit :=
  a <- this ;;
  match local_videoTrack (localTracks a) with
  | None => ret tt
  | Some videoTrack =>
      if isPlaying videoTrack then ret tt
      else
        emit (innerHTML_clear LOCAL_VIEW_ELEMENT) ;;
        emit (track_play videoTrack (Some LOCAL_VIEW_ELEMENT)) ;;
        update (set_localTracks
                  (mkLocalTracks (local_audioTrack (localTracks a))
                     (Some (mkTrack (trackId videoTrack) true))))
  end.

(** [_palyRemoteVideo] (lines 493-505). *)
Definition _palyRemoteVideo : M unit :=
  a <- this ;;
  match remote_videoTrack (remoteTracks a) with
  | None => ret tt
  | Some videoTrack =>
      if isPlaying videoTrack then ret tt
      else
        emit (innerHTML_clear REMOTE_VIEW_ELEMENT) ;;
        emit (track_play videoTrack (Some REMOTE_VIEW_ELEMENT)) ;;
        update (set_remoteTracks
                  (mkRemoteTracks (remote_audioTrack (remoteTracks a))
                     (Some (mkTrack (trackId videoTrack) true))))
  end.

(** [_playRemoteAudio] (lines 507-518). *)
Definition _playRemoteAudio : M unit :=
  a <- this ;;
  match remote_audioTrack (remoteTracks a) with
  | None => ret tt
  | Some audioTrack =>
      if isPlaying audioTrack then ret tt
      else
        emit (track_play audioTrack None) ;;
        update (set_remoteTracks
                  (mkRemoteTracks (Some (mkTrack (trackId audioTrack) true))
                     (remote_videoTrack (remoteTracks a))))
  end.

(** [_checkAppendView] (lines 429-463).  It is not [async]: its [throw]
    is synchronous. *)
Definition _checkAppendView : M unit :=
  a <- this ;;
  if negb (CallStateType.eqb (state a) CallStateType.connecting) then ret tt
  else if truthy_bool (firstFrameWaittingDisabled (prepareConfig a))
          || _receiveRemoteFirstFrameDecoded a
  then
    _callStateChange CallStateType.connected
      CallStateReason.recvRemoteFirstFrame None info_undefined ;;
    (match localView (prepareConfig a) with
     | Some v => emit (appendChild v LOCAL_VIEW_ELEMENT) ;; _playLocalVideo
     | None => throw "localView is undefined"
     end) ;;
    (match remoteView (prepareConfig a) with
     | Some v => emit (appendChild v REMOTE_VIEW_ELEMENT) ;; _palyRemoteVideo
     | None => throw "remoteView is undefined"
     end) ;;
    _playRemoteAudio
  else ret tt.

(** [_publishMessage] (lines 681-697), up to its [await]. *)
Definition _publishMessage (uid : UserId) (msg : ICallMessage.t)
  (k : AfterSend) : M unit :=
  a <- this ;;
  let encodeMessage := CallMessage.encode (_callMessage a) msg in
  emit (sendMessage uid encodeMessage) ;;
  await (await_sendMessage k).

(** What follows [await this._publishMessage(...)] at each call site. *)
Definition after_send (k : AfterSend) : M unit :=
  match k with
  | after_send_nothing => ret tt
  | after_send_call =>
      update (fun a => set_callInfo
                         (CallInfo.add CallInfo.remoteUserRecvCall (_callInfo a)) a) ;;
      _callEventChange CallEvent.remoteUserRecvCall
  end.

(** [_publishMessage] after [sendMessage] has settled; the [catch] emits
    and rethrows, so nothing after the caller's [await] runs. *)
Definition _publishMessage_settled (k : AfterSend) (failure : option Error) : M unit :=
  match failure with
  | None => after_send k
  | Some e =>
      _callError CallErrorEvent.sendMessageFail CallErrorCodeType.message e
  end.

(** What follows [await this.destory()] at each call site. *)
Definition after_destory (k : AfterDestory) : M unit :=
  match k with
  | after_destory_nothing => ret tt
  | after_destory_receiveReject stateReason rejectReason =>
      _callStateChange CallStateType.prepared stateReason (Some "")
        (info_reject rejectReason) ;;
      _callEventChange CallEvent.remoteRejected
  | after_destory_userLeft =>
      _callStateChange CallStateType.prepared CallStateReason.remoteHangup
        None info_undefined
  end.

(** [destory] (lines 270-292), up to its [await]; without a joined channel
    it runs to its end. *)
Definition destory (k : AfterDestory) : M unit :=
  a <- this ;;
  when_some (remote_audioTrack (remoteTracks a)) (fun t =>
    emit (track_stop t) ;;
    update (set_remoteTracks
              (mkRemoteTracks (Some (mkTrack (trackId t) false))
                 (remote_videoTrack (remoteTracks a))))) ;;
  when_some (local_audioTrack (localTracks a)) (fun t =>
    emit (track_close t) ;;
    update (fun a => set_localTracks
              (mkLocalTracks (Some (mkTrack (trackId t) false))
                 (local_videoTrack (localTracks a))) a)) ;;
  when_some (local_videoTrack (localTracks a)) (fun t =>
    emit (track_close t) ;;
    update (fun a => set_localTracks
              (mkLocalTracks (local_audioTrack (localTracks a))
                 (Some (mkTrack (trackId t) false))) a)) ;;
  if _rtcJoined a then
    emit rtc_leave ;;
    await (await_leave k)
  else
    _resetData ;;
    after_destory k.

(** [destory] after [rtcClient.leave()] has settled. *)
Definition destory_settled (k : AfterDestory) (failure : option Error) : M unit :=
  match failure with
  | None =>
      _callEventChange CallEvent.localLeft ;;
      _resetData ;;
      after_destory k
  | Some e =>
      _callError CallErrorEvent.rtcOccurError CallErrorCodeType.rtc e
  end.

(** [_autoCancelCall]'s timer callback (lines 610-631). *)
Definition _autoCancelCall_timeout (isLocal : bool) : M unit :=
  a <- this ;;
  if CallStateType.eqb (state a) CallStateType.calling
     || CallStateType.eqb (state a) CallStateType.connecting
  then
    _callStateChange CallStateType.prepared CallStateReason.callingTimeout
      None info_undefined ;;
    _callEventChange (if isLocal then CallEvent.callingTimeout
                      else CallEvent.remoteCallingTimeout) ;;
    _publishMessage (remoteUserId a)
      (with_cancelCallByInternal RejectByInternal.Internal
         (message (userId (callConfig a)) (remoteUserId a) CallAction.Cancel))
      after_send_nothing ;;
    destory after_destory_nothing
  else ret tt.

(** [_autoCancelCall] (lines 600-633). *)
Definition _autoCancelCall (isLocal : bool) : M unit :=
  a <- this ;;
  if negb (truthy_id (remoteUserId a)) then ret tt
  else
    match callTimeoutMillisecond (prepareConfig a) with
    | Some time =>
        if negb (time =? 0) then
          when_some (_cancelCallTimer a) (fun id =>
            clearTimeout id ;;
            update (set_cancelCallTimer None)) ;;
          id <- setTimeout isLocal time ;;
          update (set_cancelCallTimer (Some id))
        else ret tt
    | None => ret tt
    end.

(** [_autoReject] (lines 589-598). *)
Definition _autoReject (uid : UserId) : M unit :=
  a <- this ;;
  _publishMessage uid
    (with_reject (Some "busy") RejectByInternal.Internal
       (message (userId (callConfig a)) uid CallAction.Reject))
    after_send_nothing.

(** [accept] (lines 225-247).  The array handed to [Promise.all] is built
    first: [_publishMessage] runs up to its [await], then
    [_checkAppendView] runs, and its [throw] rejects [accept].  The
    message of line 228 interpolates the two states; the text here stands
    for it, without the interpolated values. *)
Definition accept (remoteUserId : UserId) : M unit :=
  a <- this ;;
  if negb (CallStateType.eqb (state a) CallStateType.calling) then
    _callEventChange CallEvent.stateMismatch ;;
    throw "accept fail! current state is not calling state"
  else
    _callEventChange CallEvent.localAccepted ;;
    update (fun a => set_callInfo (CallInfo.add CallInfo.acceptCall (_callInfo a)) a) ;;
    _callStateChange CallStateType.connecting CallStateReason.localAccepted
      None info_undefined ;;
    _publishMessage remoteUserId
      (message (userId (callConfig a)) remoteUserId CallAction.Accept)
      after_send_nothing ;;
    _checkAppendView.

(** The [catch] of [_rtcJoinAndPublish] (lines 473-476); it rethrows, so
    nothing after the caller's [await] runs. *)
Definition _rtcJoinAndPublish_catch (err : Error) (k : AfterJoinAndPublish) : M unit :=
  _callError CallErrorEvent.rtcOccurError CallErrorCodeType.rtc err.

(** What follows [await this._rtcJoinAndPublish()] at each call site. *)
Definition after_join (k : AfterJoinAndPublish) : M unit :=
  match k with
  | after_join_nothing => ret tt
  | after_join_receiveVideoCall =>
      a <- this ;;
      when (truthy_bool (autoAccept (prepareConfig a)))
        (attempt (accept (remoteUserId a)))
  end.

(** [_rtcPublish] (lines 666-679), up to its [await]. *)
Definition _rtcPublish (k : AfterJoinAndPublish) : M unit :=
  a <- this ;;
  match local_videoTrack (localTracks a), local_audioTrack (localTracks a) with
  | Some videoTrack, Some audioTrack =>
      emit (rtc_publish videoTrack audioTrack) ;;
      await (await_publish k)
  | _, _ =>
      _rtcJoinAndPublish_catch "videoTrack or audioTrack is undefined" k
  end.

Definition _rtcPublish_settled (k : AfterJoinAndPublish) (failure : option Error) : M unit :=
  match failure with
  | None =>
      _callEventChange CallEvent.publishFirstLocalVideoFrame ;;
      after_join k
  | Some e => _rtcJoinAndPublish_catch e k
  end.

(** [_rtcJoinAndPublish] once its [Promise.all] is fulfilled (lines
    469-472). *)
Definition _rtcJoinAndPublish_joined (k : AfterJoinAndPublish) : M unit :=
  _playLocalVideo ;;
  _rtcPublish k.

(** A branch of the [Promise.all] is fulfilled. *)
Definition join_fulfilled (j : nat) : M unit :=
  r <- runtime ;;
  when_some (nth_error (joins r) j) (fun c =>
    let n := pred (join_waiting c) in
    set_join j (mkJoin n (join_rejected c) (join_after c)) ;;
    when (Nat.eqb n 0 && negb (join_rejected c))
      (_rtcJoinAndPublish_joined (join_after c))).

(** A branch of the [Promise.all] is rejected.  [now] tells whether the
    [catch] runs at once (the branch settled in a turn of its own) or is
    due after the synchronous code of the current turn. *)
Definition join_rejected_with (now : bool) (j : nat) (e : Error) : M unit :=
  r <- runtime ;;
  when_some (nth_error (joins r) j) (fun c =>
    when (negb (join_rejected c))
      (set_join j (mkJoin (join_waiting c) true (join_after c)) ;;
       if now then _rtcJoinAndPublish_catch e (join_after c)
       else defer (job_rtcJoinAndPublish_catch e (join_after c)))).

(** [_createLocalTracks] (lines 656-664), up to its [await]. *)
Definition _createLocalTracks (j : nat) : M unit :=
  a <- this ;;
  emit (createMicrophoneAndCameraTracks (audioConfig (prepareConfig a))
          (videoConfig (prepareConfig a))) ;;
  await (await_createTracks j).

Definition _createLocalTracks_settled (j : nat) (tracks : list Track)
  (failure : option Error) : M unit :=
  match failure with
  | None =>
      update (fun a => set_localTracks
                (mkLocalTracks (nth_error tracks 0) (local_videoTrack (localTracks a))) a) ;;
      update (fun a => set_localTracks
                (mkLocalTracks (local_audioTrack (localTracks a)) (nth_error tracks 1)) a) ;;
      join_fulfilled j
  | Some e => join_rejected_with true j e
  end.

(** [_rtcJoin] (lines 635-654), up to its [await]. *)
Definition _rtcJoin (j : nat) : M unit :=
  a <- this ;;
  if _rtcJoined a then join_fulfilled j
  else if negb (truthy_str (roomId (prepareConfig a))) then
    join_rejected_with false j "roomId is undefined"
  else if negb (truthy_str (rtcToken (prepareConfig a))) then
    join_rejected_with false j "rtcToken is undefined"
  else
    _callEventChange CallEvent.joinRTCStart ;;
    emit (rtc_join (appId (callConfig a))
            (string_of (roomId (prepareConfig a)))
            (string_of (rtcToken (prepareConfig a)))
            (userId (callConfig a))) ;;
    await (await_join j).

Definition _rtcJoin_settled (j : nat) (failure : option Error) : M unit :=
  match failure with
  | None =>
      update (set_rtcJoined true) ;;
      _callEventChange CallEvent.joinRTCSuccessed ;;
      _callEventChange CallEvent.localJoined ;;
      update (fun a => set_callInfo
                (CallInfo.add CallInfo.localUserJoinChannel (_callInfo a)) a) ;;
      join_fulfilled j
  | Some e => join_rejected_with true j e
  end.

(** [_rtcJoinAndPublish] (lines 465-477), up to its first [await]. *)
Definition _rtcJoinAndPublish (k : AfterJoinAndPublish) : M unit :=
  j <- new_join 2 k ;;
  _createLocalTracks j ;;
  _rtcJoin j.

(** The argument of [prepareForCall], a [Partial<IPrepareConfig>]: a key
    is not there, or it is there with a value, which may be [undefined]. *)
Inductive Key (A : Type) : Type :=
| absent
| present (v : option A).
Arguments absent {A}.
Arguments present {A} v.

Record Partial_IPrepareConfig : Type := mkPartialPrepareConfig {
  given_roomId : Key string;
  given_rtcToken : Key string;
  given_localView : Key HTMLElement;
  given_remoteView : Key HTMLElement;
  given_autoAccept : Key bool;
  given_callTimeoutMillisecond : Key Z;
  given_firstFrameWaittingDisabled : Key bool;
  given_videoConfig : Key nat;
  given_audioConfig : Key nat
}.

(** The spread [{...old, ...new}] (lines 119-122), key by key: a key of
    [new] that is there replaces the old value, also when its value is
    [undefined]; a key that is not there leaves the old value.  In the
    stored configuration a key that is missing and a key that is
    [undefined] read the same, and are both [None]. *)
Definition spread_key {A : Type} (old : option A) (new : Key A) : option A :=
  match new with
  | absent => old
  | present v => v
  end.

Definition merge (old : IPrepareConfig) (new : Partial_IPrepareConfig)
  : IPrepareConfig :=
  mkPrepareConfig
    (spread_key (roomId old) (given_roomId new))
    (spread_key (rtcToken old) (given_rtcToken new))
    (spread_key (localView old) (given_localView new))
    (spread_key (remoteView old) (given_remoteView new))
    (spread_key (autoAccept old) (given_autoAccept new))
    (spread_key (callTimeoutMillisecond old) (given_callTimeoutMillisecond new))
    (spread_key (firstFrameWaittingDisabled old)
       (given_firstFrameWaittingDisabled new))
    (spread_key (videoConfig old) (given_videoConfig new))
    (spread_key (audioConfig old) (given_audioConfig new)).

(** The object literal that has exactly the keys of [c] that are set. *)
Definition key_of {A : Type} (o : option A) : Key A :=
  match o with
  | Some v => present (Some v)
  | None => absent
  end.

Definition literal (c : IPrepareConfig) : Partial_IPrepareConfig :=
  mkPartialPrepareConfig (key_of (roomId c)) (key_of (rtcToken c))
    (key_of (localView c)) (key_of (remoteView c)) (key_of (autoAccept c))
    (key_of (callTimeoutMillisecond c))
    (key_of (firstFrameWaittingDisabled c)) (key_of (videoConfig c))
    (key_of (audioConfig c)).

(** [prepareForCall] (lines 112-134). *)
Definition prepareForCall (config : Partial_IPrepareConfig) : M unit :=
  a <- this ;;
  if isBusy a then
    _callEventChange CallEvent.stateMismatch ;;
    throw "currently busy!"
  else
    update (fun a => set_prepareConfig (merge (prepareConfig a) config) a) ;;
    _callStateChange CallStateType.prepared CallStateReason.none
      None info_undefined.

(** [call] (lines 141-176), up to its [await]; [uuid] is what [uuidv4()]
    returns.  The message of line 144 interpolates the two states; the
    text here stands for it, without the interpolated values. *)
Definition call (remoteUserId : UserId) (callType : option CallType.t)
  (uuid : string) : M unit :=
  a <- this ;;
  if negb (CallStateType.eqb (state a) CallStateType.prepared) then
    _callEventChange CallEvent.stateMismatch ;;
    throw "call failed! current state is not prepared state"
  else
    update (fun a => set_callInfo (CallInfo.start (_callInfo a)) a) ;;
    update (set_remoteUserId remoteUserId) ;;
    let callType := match callType with Some t => t | None => CallType.video end in
    update (set_callType callType) ;;
    let callStateReason :=
      match callType with
      | CallType.video => CallStateReason.localVideoCall
      | CallType.audio => CallStateReason.localAudioCall
      end in
    _callStateChange CallStateType.calling callStateReason (Some "")
      (info_call remoteUserId (userId (callConfig a))) ;;
    _callEventChange CallEvent.onCalling ;;
    update (fun a => set_callMessage (CallMessage.setCallId uuid (_callMessage a)) a) ;;
    let callAction :=
      match callType with
      | CallType.video => CallAction.VideoCall
      | CallType.audio => CallAction.AudioCall
      end in
    _autoCancelCall true ;;
    _rtcJoinAndPublish after_join_nothing ;;
    _publishMessage remoteUserId
      (with_fromRoomId (roomId (prepareConfig a))
         (message (userId (callConfig a)) remoteUserId callAction))
      after_send_call.

(** [cancelCall] (lines 181-194). *)
Definition cancelCall : M unit :=
  _callStateChange CallStateType.prepared CallStateReason.localCancel
    None info_undefined ;;
  _callEventChange CallEvent.localCancelled ;;
  a <- this ;;
  _publishMessage (remoteUserId a)
    (with_cancelCallByInternal RejectByInternal.External
       (message (userId (callConfig a)) (remoteUserId a) CallAction.Cancel))
    after_send_nothing ;;
  destory after_destory_nothing.

(** [reject] (lines 201-219). *)
Definition reject (remoteUserId : UserId) (reason : option string) : M unit :=
  _callStateChange CallStateType.prepared CallStateReason.localRejected
    reason info_undefined ;;
  _callEventChange CallEvent.localRejected ;;
  a <- this ;;
  _publishMessage remoteUserId
    (with_reject reason RejectByInternal.External
       (message (userId (callConfig a)) remoteUserId CallAction.Reject))
    after_send_nothing ;;
  destory after_destory_nothing.

(** [hangup] (lines 253-265). *)
Definition hangup (remoteUserId : UserId) : M unit :=
  _callStateChange CallStateType.prepared CallStateReason.localHangup
    None info_undefined ;;
  _callEventChange CallEvent.localHangup ;;
  a <- this ;;
  _publishMessage remoteUserId
    (message (userId (callConfig a)) remoteUserId CallAction.Hangup)
    after_send_nothing ;;
  destory after_destory_nothing.

(** ** Inbound signalling (lines 297-414) *)

(** [_receiveCancelCall] (lines 331-344). *)
Definition _receiveCancelCall (data : ICallMessage.t) : M unit :=
  a <- this ;;
  if negb (_isCallingUser a (ICallMessage.fromUserId data)) then ret tt
  else
    _callStateChange CallStateType.prepared CallStateReason.remoteCancel
      (Some "") (info_cancel (ICallMessage.cancelCallByInternal data)) ;;
    _callEventChange CallEvent.remoteCancelled ;;
    destory after_destory_nothing.

(** [_receiveVideoCall] (lines 346-374), up to its first [await]. *)
Definition _receiveVideoCall (data : ICallMessage.t) : M unit :=
  a <- this ;;
  if negb (_isCallingUser a (ICallMessage.fromUserId data)) then
    _autoReject (ICallMessage.fromUserId data)
  else
    update (fun a => set_callInfo (CallInfo.start (_callInfo a)) a) ;;
    update (fun a => set_callMessage
              (CallMessage.setCallId (ICallMessage.callId data) (_callMessage a)) a) ;;
    update (set_remoteUserId (ICallMessage.fromUserId data)) ;;
    update (fun a => set_prepareConfig
              (mkPrepareConfig (ICallMessage.fromRoomId data)
                 (rtcToken (prepareConfig a)) (localView (prepareConfig a))
                 (remoteView (prepareConfig a)) (autoAccept (prepareConfig a))
                 (callTimeoutMillisecond (prepareConfig a))
                 (firstFrameWaittingDisabled (prepareConfig a))
                 (videoConfig (prepareConfig a)) (audioConfig (prepareConfig a))) a) ;;
    _autoCancelCall false ;;
    _callStateChange CallStateType.calling CallStateReason.remoteVideoCall
      (Some "")
      (info_call (ICallMessage.remoteUserId data) (ICallMessage.fromUserId data)) ;;
    _callEventChange CallEvent.onCalling ;;
    _rtcJoinAndPublish after_join_receiveVideoCall.

(** [_receiveAccept] (lines 376-384). *)
Definition _receiveAccept (data : ICallMessage.t) : M unit :=
  update (fun a => set_callInfo (CallInfo.add CallInfo.acceptCall (_callInfo a)) a) ;;
  _callEventChange CallEvent.remoteAccepted ;;
  _callStateChange CallStateType.connecting CallStateReason.remoteAccepted
    None info_undefined ;;
  _checkAppendView.

(** [_receiveHangup] (lines 386-394). *)
Definition _receiveHangup (data : ICallMessage.t) : M unit :=
  a <- this ;;
  if negb (_isCallingUser a (ICallMessage.fromUserId data)) then ret tt
  else
    _callStateChange CallStateType.prepared CallStateReason.remoteHangup
      None info_undefined ;;
    _callEventChange CallEvent.remoteHangup ;;
    destory after_destory_nothing.

(** The state reason [_receiveReject] picks (lines 401-404). *)
Definition reject_stateReason (rejectByInternal : option RejectByInternal.t)
  : CallStateReason.t :=
  match rejectByInternal with
  | Some RejectByInternal.Internal => CallStateReason.remoteCallBusy
  | _ => CallStateReason.remoteRejected
  end.

(** [_receiveReject] (lines 396-414), up to its [await]. *)
Definition _receiveReject (data : ICallMessage.t) : M unit :=
  a <- this ;;
  if negb (_isCallingUser a (ICallMessage.fromUserId data)) then ret tt
  else
    let stateReason := reject_stateReason (ICallMessage.rejectByInternal data) in
    (match stateReason with
     | CallStateReason.remoteCallBusy => _callEventChange CallEvent.remoteCallBusy
     | _ => ret tt
     end) ;;
    destory (after_destory_receiveReject stateReason (ICallMessage.rejectReason data)).

(** The [messageReceive] listener (lines 298-328); [data] is the decoded
    message. *)
Definition messageReceive (data : ICallMessage.t) : M unit :=
  match ICallMessage.message_action data with
  | CallAction.VideoCall => _receiveVideoCall data
  | CallAction.AudioCall => ret tt
  | CallAction.Cancel => _receiveCancelCall data
  | CallAction.Accept => _receiveAccept data
  | CallAction.Reject => _receiveReject data
  | CallAction.Hangup => _receiveHangup data
  end.

(** ** Media-plane listeners (lines 520-587, 760-768) *)

(** [_handleRemoteFirstFrameDecoded] (lines 760-768). *)
Definition _handleRemoteFirstFrameDecoded : M unit :=
  _callEventChange CallEvent.recvRemoteFirstFrame ;;
  update (set_receiveRemoteFirstFrameDecoded true) ;;
  update (fun a => set_callInfo (CallInfo.add CallInfo.recvFirstFrame (_callInfo a)) a) ;;
  a <- this ;;
  emit (callInfoChanged (CallInfo.getInfo (_callInfo a))) ;;
  _checkAppendView.

Definition user_joined (uid : UserId) : M unit :=
  a <- this ;;
  if negb (uid =? remoteUserId a) then ret tt
  else
    update (fun a => set_callInfo
              (CallInfo.add CallInfo.remoteUserJoinChannel (_callInfo a)) a) ;;
    _callEventChange CallEvent.remoteJoined.

Definition user_left (uid : UserId) : M unit :=
  a <- this ;;
  if negb (uid =? remoteUserId a) then ret tt
  else
    _callEventChange CallEvent.remoteLeft ;;
    when (isBusy a) (destory after_destory_userLeft).

Definition user_published (uid : UserId) (mediaType : MediaType) : M unit :=
  a <- this ;;
  if negb (uid =? remoteUserId a) then ret tt
  else
    emit (rtc_subscribe uid mediaType) ;;
    await (await_subscribe uid mediaType).

(** After [subscribe] has settled; [track] is [user.videoTrack] or
    [user.audioTrack].  A rejection is handled by nobody. *)
Definition user_published_settled (mediaType : MediaType) (track : option Track)
  (failure : option Error) : M unit :=
  match failure with
  | Some _ => ret tt
  | None =>
      match mediaType with
      | media_video =>
          update (fun a => set_remoteTracks
                    (mkRemoteTracks (remote_audioTrack (remoteTracks a)) track) a) ;;
          when_some track (fun t =>
            emit (track_on_first_frame_decoded t) ;;
            observe (trackId t)) ;;
          _palyRemoteVideo
      | media_audio =>
          update (fun a => set_remoteTracks
                    (mkRemoteTracks track (remote_videoTrack (remoteTracks a))) a) ;;
          a <- this ;;
          when (CallStateType.eqb (state a) CallStateType.connected)
            _playRemoteAudio
      end
  end.

Definition user_unpublished (uid : UserId) (mediaType : MediaType) : M unit :=
  a <- this ;;
  if negb (uid =? remoteUserId a) then ret tt
  else
    emit (rtc_unsubscribe uid mediaType) ;;
    await (await_unsubscribe uid mediaType).

Definition user_unpublished_settled (mediaType : MediaType)
  (failure : option Error) : M unit :=
  match failure with
  | Some _ => ret tt
  | None =>
      match mediaType with
      | media_video =>
          update (fun a => set_remoteTracks
                    (mkRemoteTracks (remote_audioTrack (remoteTracks a)) None) a)
      | media_audio =>
          update (fun a => set_remoteTracks
                    (mkRemoteTracks None (remote_videoTrack (remoteTracks a))) a)
      end
  end.

(** ** The machine: one turn per external stimulus *)

(** How a collaborator's promise settles.  A fulfilment carries the tracks
    it makes available: the array of [createMicrophoneAndCameraTracks], or
    the published track of the remote user. *)
Inductive Settled : Type :=
| fulfilled (tracks : list Track)
| rejected (e : Error).

Definition failure_of (s : Settled) : option Error :=
  match s with fulfilled _ => None | rejected e => Some e end.

Definition tracks_of (s : Settled) : list Track :=
  match s with fulfilled l => l | rejected _ => [] end.

(** The rest of the method that was suspended at [a]. *)
Definition resume (a : Await) (s : Settled) : M unit :=
  match a with
  | await_sendMessage k => _publishMessage_settled k (failure_of s)
  | await_leave k => destory_settled k (failure_of s)
  | await_createTracks j => _createLocalTracks_settled j (tracks_of s) (failure_of s)
  | await_join j => _rtcJoin_settled j (failure_of s)
  | await_publish k => _rtcPublish_settled k (failure_of s)
  | await_subscribe _ m => user_published_settled m (hd_error (tracks_of s)) (failure_of s)
  | await_unsubscribe _ m => user_unpublished_settled m (failure_of s)
  end.

Inductive Input : Type :=
(* commands of the application *)
| do_prepareForCall (config : Partial_IPrepareConfig)
| do_call (remoteUserId : UserId) (callType : option CallType.t) (uuid : string)
| do_cancelCall
| do_reject (remoteUserId : UserId) (reason : option string)
| do_accept (remoteUserId : UserId)
| do_hangup (remoteUserId : UserId)
| do_destory
(* the signalling transport delivers a message *)
| on_messageReceive (data : ICallMessage.t)
(* the media client *)
| on_user_joined (uid : UserId)
| on_user_left (uid : UserId)
| on_user_published (uid : UserId) (m : MediaType)
| on_user_unpublished (uid : UserId) (m : MediaType)
| on_first_frame_decoded (track : nat)
(* the runtime: a timer fires, an awaited promise settles *)
| on_timeout (id : nat)
| on_settled (i : nat) (s : Settled).

(** One stimulus, handed to its listener.  A [first-frame-decoded] of a
    track runs [_handleRemoteFirstFrameDecoded] once if a handler is
    registered on the track, however many times it was registered. *)
Definition handle (i : Input) : M unit :=
  match i with
  | do_prepareForCall config => prepareForCall config
  | do_call u t uuid => call u t uuid
  | do_cancelCall => cancelCall
  | do_reject u reason => reject u reason
  | do_accept u => accept u
  | do_hangup u => hangup u
  | do_destory => destory after_destory_nothing
  | on_messageReceive data => messageReceive data
  | on_user_joined u => user_joined u
  | on_user_left u => user_left u
  | on_user_published u m => user_published u m
  | on_user_unpublished u m => user_unpublished u m
  | on_first_frame_decoded t =>
      r <- runtime ;;
      when (existsb (Nat.eqb t) (observed r)) _handleRemoteFirstFrameDecoded
  | on_timeout id =>
      r <- runtime ;;
      when_some (find (fun t => Nat.eqb (timer_id t) id) (timers r)) (fun t =>
        clearTimeout id ;;
        _autoCancelCall_timeout (timer_isLocal t))
  | on_settled n s =>
      r <- runtime ;;
      when_some (nth_error (awaits r) n) (fun a =>
        update_rt (fun r =>
          mkRuntime (timers r) (nextTimer r) (remove_nth n (awaits r))
            (joins r) (jobs r) (observed r)) ;;
        resume a s)
  end.

Definition run_job (j : Job) : M unit :=
  match j with
  | job_rtcJoinAndPublish_catch e k => _rtcJoinAndPublish_catch e k
  end.

Fixpoint run_jobs (js : list Job) : M unit :=
  match js with
  | [] => ret tt
  | j :: js' => attempt (run_job j) ;; run_jobs js'
  end.

(** The reactions that fell due during the turn run at its end. *)
Definition flush : M unit :=
  r <- runtime ;;
  update_rt (fun r =>
    mkRuntime (timers r) (nextTimer r) (awaits r) (joins r) [] (observed r)) ;;
  run_jobs (jobs r).

Definition exec (i : Input) : M unit :=
  fun w => let (r, w') := handle i w in (r, snd (flush w')).

Definition step (w : World) (i : Input) : World := snd (exec i w).

Definition run (w : World) (inputs : list Input) : World :=
  fold_left step inputs w.

(** The worlds an object can be in: from construction, after any sequence
    of stimuli. *)
Inductive reachable (config : ICallConfig) : World -> Prop :=
| reachable_new : reachable config (new_World config)
| reachable_step : forall w i,
    reachable config w -> reachable config (step w i).

(** The observable points of a world: every entry of its log, and the
    world as it stands between two turns. *)
Definition observable (w : World) (a : CallApi) (ts : list Timer) : Prop :=
  (a = api w /\ ts = timers (rt w))
  \/ exists p, In p (log w) /\ at_api p = a /\ at_timers p = ts.

(** * Vocabulary of the statements *)

(** The runtime with one more pending await. *)
Definition suspend (a : Await) (r : Runtime) : Runtime :=
  mkRuntime (timers r) (nextTimer r) (awaits r ++ [a]) (joins r) (jobs r)
    (observed r).

(** The log entry written for [o] when the object is [a] and the runtime
    is [r]. *)
Definition point (a : CallApi) (r : Runtime) (o : Obs) : Point :=
  mkPoint a (timers r) o.

(** The condition of step 2 of [_checkAppendView]. *)
Definition frame_ready (a : CallApi) : bool :=
  truthy_bool (firstFrameWaittingDisabled (prepareConfig a))
  || _receiveRemoteFirstFrameDecoded a.

Definition is_callError (o : Obs) : bool :=
  match o with callError _ _ _ => true | _ => false end.

Definition is_callStateChanged (o : Obs) : bool :=
  match o with callStateChanged _ _ _ _ => true | _ => false end.

Definition is_appendChild (o : Obs) : bool :=
  match o with appendChild _ _ => true | _ => false end.

(** A transition to [connected] was emitted. *)
Definition is_connected_change (o : Obs) : bool :=
  match o with
  | callStateChanged CallStateType.connected _ _ _ => true
  | _ => false
  end.

(** A transition to [connecting] was emitted. *)
Definition is_connecting_change (o : Obs) : bool :=
  match o with
  | callStateChanged CallStateType.connecting _ _ _ => true
  | _ => false
  end.

(** The element [child] was attached to a view of the application. *)
Definition is_attach (child : HTMLElement) (o : Obs) : bool :=
  match o, child with
  | appendChild _ LOCAL_VIEW_ELEMENT, LOCAL_VIEW_ELEMENT => true
  | appendChild _ REMOTE_VIEW_ELEMENT, REMOTE_VIEW_ELEMENT => true
  | _, _ => false
  end.

Definition count (f : Obs -> bool) (l : list Point) : nat :=
  List.length (filter (fun p => f (obs p)) l).

(** ** Scenarios

    Concrete worlds, reached from construction by running the machine. *)

Definition alice : ICallConfig := mkCallConfig 1 "app".

(** The configuration of the demo application, with first-frame waiting
    switched off. *)
Definition demo_prepareConfig : IPrepareConfig :=
  mkPrepareConfig (Some "room-1") (Some "token-1") (Some (app_view 0))
    (Some (app_view 1)) (Some false) (Some 1000) (Some true) None None.

(** No timeout configured. *)
Definition untimed_prepareConfig : IPrepareConfig :=
  mkPrepareConfig (Some "room-1") (Some "token-1") (Some (app_view 0))
    (Some (app_view 1)) (Some false) None (Some true) None None.

(** No remote view configured. *)
Definition no_remoteView_prepareConfig : IPrepareConfig :=
  mkPrepareConfig (Some "room-1") (Some "token-1") (Some (app_view 0))
    None (Some false) (Some 1000) (Some true) None None.

Definition the_uuid : string := "6f1c2a0e-55d1-4c0b-9d8e-0c1f0a2b3c4d".

(** Alice after [prepareForCall]. *)
Definition w_prepared : World :=
  run (new_World alice) [do_prepareForCall (literal demo_prepareConfig)].

(** Alice after [call(2)]: state [calling], committed to user 2. *)
Definition w_calling : World :=
  run w_prepared [do_call 2 None the_uuid].

(** An invitation from user 3, and user 2's answers. *)
Definition invite_from_3 : ICallMessage.t :=
  ICallMessage.mk "call-of-3" 3 1 (Some "room-3") CallAction.VideoCall
    None None None.

Definition invite_from_2 : ICallMessage.t :=
  ICallMessage.mk "call-of-2" 2 1 (Some "room-2") CallAction.VideoCall
    None None None.

Definition accept_from_2 : ICallMessage.t :=
  ICallMessage.mk the_uuid 2 1 None CallAction.Accept None None None.

Definition busy_reject_from_2 : ICallMessage.t :=
  ICallMessage.mk the_uuid 2 1 None CallAction.Reject (Some "busy")
    (Some RejectByInternal.Internal) None.

(** Alice, prepared, after user 2's invitation: state [calling] as the
    callee. *)
Definition w_called : World :=
  run w_prepared [on_messageReceive invite_from_2].

(** Alice calling user 2 with no remote view configured, and the world in
    which [_receiveAccept] then calls [_checkAppendView]: state
    [connecting], first-frame waiting switched off. *)
Definition w_calling_no_remoteView : World :=
  run (new_World alice)
    [do_prepareForCall (literal no_remoteView_prepareConfig); do_call 2 None the_uuid].

Definition w_accepted_no_remoteView : World :=
  snd ((update (fun a => set_callInfo
                  (CallInfo.add CallInfo.acceptCall (_callInfo a)) a) ;;
        _callEventChange CallEvent.remoteAccepted ;;
        _callStateChange CallStateType.connecting
          CallStateReason.remoteAccepted None info_undefined)
         w_calling_no_remoteView).

(** ** Teardown *)

(** What [destory] and [_resetData] themselves write to the log. *)
Definition is_teardown (o : Obs) : bool :=
  match o with
  | track_stop _ | track_close _ | rtc_leave | innerHTML_clear _
  | callEventChanged CallEvent.localLeft => true
  | _ => false
  end.

(** The object and the runtime as [_resetData] leaves them. *)
Definition reset_api (a : CallApi) : CallApi :=
  mkCallApi (callConfig a) (prepareConfig a) (state a) 0
    (mkLocalTracks None None) (mkRemoteTracks None None) (callType a)
    (CallInfo.finish (_callInfo a)) (CallMessage.setCallId "" (_callMessage a))
    false false None.

Definition reset_rt (a : CallApi) (r : Runtime) : Runtime :=
  match _cancelCallTimer a with
  | Some id =>
      mkRuntime (filter (fun t => negb (Nat.eqb (timer_id t) id)) (timers r))
        (nextTimer r) (awaits r) (joins r) (jobs r) (observed r)
  | None => r
  end.


(** ** Invariants of the machine *)

(** [m], started where [P] holds, stops where [Q] holds (whether it
    returns or throws). *)
Definition hoare {A : Type} (P : World -> Prop) (m : M A) (Q : World -> Prop)
  : Prop :=
  forall w, P w -> Q (snd (m w)).

Definition preserves (I : World -> Prop) {A : Type} (m : M A) : Prop :=
  hoare I m I.

(** An update of the object that leaves its state, its codec (the call
    id) and its timer handle alone. *)
Definition quiet (f : CallApi -> CallApi) : Prop :=
  forall a,
    state (f a) = state a
    /\ _callMessage (f a) = _callMessage a
    /\ _cancelCallTimer (f a) = _cancelCallTimer a.

(** An update of the runtime that leaves the pending timers alone. *)
Definition quiet_rt (f : Runtime -> Runtime) : Prop :=
  forall r, timers (f r) = timers r.

(** Neither a state change nor a view attachment. *)
Definition plain (o : Obs) : bool :=
  negb (is_callStateChanged o) && negb (is_appendChild o).

(** [_receiveVideoCall] from the gate to the state change (lines
    352-368): the inviter is committed to. *)
Definition receiveVideoCall_commit (data : ICallMessage.t) : M unit :=
  update (fun a => set_callInfo (CallInfo.start (_callInfo a)) a) ;;
  update (fun a => set_callMessage
            (CallMessage.setCallId (ICallMessage.callId data) (_callMessage a)) a) ;;
  update (set_remoteUserId (ICallMessage.fromUserId data)) ;;
  update (fun a => set_prepareConfig
            (mkPrepareConfig (ICallMessage.fromRoomId data)
               (rtcToken (prepareConfig a)) (localView (prepareConfig a))
               (remoteView (prepareConfig a)) (autoAccept (prepareConfig a))
               (callTimeoutMillisecond (prepareConfig a))
               (firstFrameWaittingDisabled (prepareConfig a))
               (videoConfig (prepareConfig a)) (audioConfig (prepareConfig a))) a) ;;
  _autoCancelCall false ;;
  _callStateChange CallStateType.calling CallStateReason.remoteVideoCall
    (Some "")
    (info_call (ICallMessage.remoteUserId data) (ICallMessage.fromUserId data)).

(** [J] holds of the object and the pending timers now and at every
    point of the log. *)
Definition everywhere (J : CallApi -> list Timer -> Prop) (w : World) : Prop :=
  J (api w) (timers (rt w))
  /\ Forall (fun p => J (at_api p) (at_timers p)) (log w).

(** At most one timer is pending, and it is the one the object holds. *)
Definition timer_ok (a : CallApi) (ts : list Timer) : Prop :=
  (List.length ts <= 1)%nat
  /\ forall t, In t ts -> _cancelCallTimer a = Some (timer_id t).

(** An [idle] object has no call id. *)
Definition callId_ok (a : CallApi) (ts : list Timer) : Prop :=
  state a = CallStateType.idle -> getCallId a = "".

(** What a log entry must satisfy: a transition to [connected] has the
    reason [recvRemoteFirstFrame] and is made with the frame condition
    satisfied; a view is attached in state [connected] only. *)
Definition point_ok (p : Point) : Prop :=
  match obs p with
  | callStateChanged CallStateType.connected r _ _ =>
      r = CallStateReason.recvRemoteFirstFrame
      /\ frame_ready (at_api p) = true
      /\ state (at_api p) = CallStateType.connected
  | appendChild _ _ => state (at_api p) = CallStateType.connected
  | _ => True
  end.

(** Transitions to [connecting], transitions to [connected] and view
    attachments are counted against each other. *)
Definition connected_ok (w : World) : Prop :=
  Forall point_ok (log w)
  /\ (count (is_attach LOCAL_VIEW_ELEMENT) (log w)
      <= count is_connected_change (log w))%nat
  /\ (count (is_attach REMOTE_VIEW_ELEMENT) (log w)
      <= count is_connected_change (log w))%nat
  /\ (count is_connected_change (log w)
      <= count is_connecting_change (log w))%nat
  /\ (state (api w) = CallStateType.connecting ->
      (count is_connected_change (log w)
       < count is_connecting_change (log w))%nat).

(** Alice connected with user 2: the call of [w_calling], accepted. *)
Definition w_connected : World :=
  run w_calling [on_messageReceive accept_from_2].

(** The same call after a second [Accept] has arrived. *)
Definition w_accepted_twice : World :=
  run w_connected [on_messageReceive accept_from_2].

(** The call of [w_calling] once the media channel is joined, and then
    cancelled by Alice: [destory] is suspended on [leave]. *)
Definition w_joined : World :=
  run w_calling [on_settled 1 (fulfilled [])].

Definition w_cancelling : World :=
  run w_joined [do_cancelCall].

(** The demo configuration with first-frame waiting left on, and Alice
    called by user 2 under it. *)
Definition waiting_prepareConfig : IPrepareConfig :=
  mkPrepareConfig (Some "room-1") (Some "token-1") (Some (app_view 0))
    (Some (app_view 1)) (Some false) (Some 1000) (Some false) None None.

Definition w_called_waiting : World :=
  run (new_World alice)
    [do_prepareForCall (literal waiting_prepareConfig); on_messageReceive invite_from_2].

(** ** Vocabulary of the further properties *)

(** The object [prepareForCall] leaves behind when it is not refused. *)
Definition prepared_api (config : Partial_IPrepareConfig) (a : CallApi)
  : CallApi :=
  set_state CallStateType.prepared
    (set_prepareConfig (merge (prepareConfig a) config) a).

(** The entry written by a state change to [s], unless the state is [s]
    already. *)
Definition announce (a0 a1 : CallApi) (r : Runtime) (s : CallStateType.t)
  (reason : CallStateReason.t) (eventReason : option string)
  (eventInfo : EventInfo) : list Point :=
  if CallStateType.eqb (state a0) s then []
  else [point a1 r (callStateChanged s reason eventReason eventInfo)].

(** What [destory] and [_resetData] do to tracks and views, the requests
    to the media client apart. *)
Definition is_cleanup (o : Obs) : bool :=
  match o with
  | track_stop _ | track_close _ | innerHTML_clear _ => true
  | _ => false
  end.

(** The envelope a command sends: the call id held, this user as sender. *)
Definition envelope (a : CallApi) (to : UserId) (action : CallAction.t)
  : ICallMessage.t :=
  ICallMessage.mk (getCallId a) (userId (callConfig a)) to None action
    None None None.

(** The world in which a command that ends the call locally runs
    [destory]: the state is [prepared], announced unless it was so
    already, the event is emitted and the message [msg] for [to] is handed
    to the transport. *)
Definition ended_locally (w : World) (reason : CallStateReason.t)
  (eventReason : option string) (event : CallEvent.t) (to : UserId)
  (msg : ICallMessage.t) : World :=
  let a1 := set_state CallStateType.prepared (api w) in
  mkWorld a1 (suspend (await_sendMessage after_send_nothing) (rt w))
    (log w ++
     announce (api w) a1 (rt w) CallStateType.prepared reason eventReason
       info_undefined ++
     [point a1 (rt w) (callEventChanged event);
      point a1 (rt w) (sendMessage to msg)]).

(** The world in which a handler that ends the call on the peer's behalf
    runs [destory]. *)
Definition ended_remotely (w : World) (reason : CallStateReason.t)
  (eventReason : option string) (eventInfo : EventInfo) (event : CallEvent.t)
  : World :=
  let a1 := set_state CallStateType.prepared (api w) in
  mkWorld a1 (rt w)
    (log w ++
     announce (api w) a1 (rt w) CallStateType.prepared reason eventReason
       eventInfo ++
     [point a1 (rt w) (callEventChanged event)]).

(** The states announced by the [callStateChanged] entries of a log, in
    order. *)
Definition announced (l : list Point) : list CallStateType.t :=
  flat_map (fun p => match obs p with
                     | callStateChanged s _ _ _ => [s]
                     | _ => []
                     end) l.

(** The state held by an application that starts from [idle] and follows
    the [callStateChanged] events of the log. *)
Definition followed (l : list Point) : CallStateType.t :=
  last (announced l) CallStateType.idle.

(** Starting from the state [prev]: every entry of the log was written
    with the object in the state announced last, every announced state
    differs from the one before it, [idle] is never announced, and
    [connected] is announced after [connecting] only. *)
Fixpoint tracks_state (prev : CallStateType.t) (l : list Point) : bool :=
  match l with
  | [] => true
  | p :: l' =>
      match obs p with
      | callStateChanged s _ _ _ =>
          negb (CallStateType.eqb s prev)
          && negb (CallStateType.eqb s CallStateType.idle)
          && (negb (CallStateType.eqb s CallStateType.connected)
              || CallStateType.eqb prev CallStateType.connecting)
          && CallStateType.eqb (state (at_api p)) s
          && tracks_state s l'
      | _ =>
          CallStateType.eqb (state (at_api p)) prev && tracks_state prev l'
      end
  end.

(** The log is such a log from [idle], and the object is in the state
    announced last. *)
Definition synced (l : list Point) (s : CallStateType.t) : Prop :=
  tracks_state CallStateType.idle l = true /\ s = followed l.

Definition state_synced (w : World) : Prop := synced (log w) (state (api w)).

(** The runtime after [_rtcJoinAndPublish] has started and failed before
    asking the media client to join: the tracks were requested, the
    [Promise.all] is rejected, the [catch] has run. *)
Definition join_refused (k : AfterJoinAndPublish) (r : Runtime) : Runtime :=
  mkRuntime (timers r) (nextTimer r)
    (awaits r ++ [await_createTracks (List.length (joins r))])
    (joins r ++ [mkJoin 2 true k]) [] (observed r).

(** The error [_rtcJoin] throws before joining, if any: [roomId] is tested
    first. *)
Definition rtcJoin_refusal (c : IPrepareConfig) : option Error :=
  if negb (truthy_str (roomId c)) then Some "roomId is undefined"
  else if negb (truthy_str (rtcToken c)) then Some "rtcToken is undefined"
  else None.

(** What [_playLocalVideo] emits for the video track [tv], and the track
    as it leaves it. *)
Definition played_locally (tv : Track) : list Obs :=
  if isPlaying tv then []
  else [innerHTML_clear LOCAL_VIEW_ELEMENT;
        track_play tv (Some LOCAL_VIEW_ELEMENT)].

Definition playing (t : Track) : Track :=
  if isPlaying t then t else mkTrack (trackId t) true.

(** The runtime with the cell [j] of the joins replaced. *)
Definition with_join (j : nat) (c : Join) (r : Runtime) : Runtime :=
  mkRuntime (timers r) (nextTimer r) (awaits r) (set_nth j c (joins r))
    (jobs r) (observed r).

(** The object once the local tracks are stored, and once the channel is
    joined. *)
Definition tracks_stored (ta tv : option Track) (a : CallApi) : CallApi :=
  set_localTracks (mkLocalTracks ta tv) a.

Definition channel_joined (a : CallApi) : CallApi :=
  set_callInfo (CallInfo.add CallInfo.localUserJoinChannel (_callInfo a))
    (set_rtcJoined true a).

(** The object [call] leaves at its suspension point, the timer handle
    apart. *)
Definition calling_api (rid : UserId) (ct : option CallType.t) (uuid : string)
  (a : CallApi) : CallApi :=
  set_callMessage (CallMessage.setCallId uuid (_callMessage a))
    (set_state CallStateType.calling
       (set_callType (match ct with Some t => t | None => CallType.video end)
          (set_remoteUserId rid
             (set_callInfo (CallInfo.start (_callInfo a)) a)))).

Definition is_callError_of (a : CallApi) (p : Point) : Prop :=
  is_callError (obs p) = true /\ at_api p = a.

(** Alice, called by user 2 with first-frame waiting on, after she has
    accepted: state [connecting], waiting for the first remote frame. *)
Definition w_waiting_for_frame : World :=
  run w_called_waiting [do_accept 2].

(** [prepareConfig.roomId = fromRoomId]. *)
Definition with_roomId (room : option string) (c : IPrepareConfig)
  : IPrepareConfig :=
  mkPrepareConfig room (rtcToken c) (localView c) (remoteView c)
    (autoAccept c) (callTimeoutMillisecond c) (firstFrameWaittingDisabled c)
    (videoConfig c) (audioConfig c).

(** What the media pipeline emits in the turn in which it starts, for
    the configuration [c] of an object that has not joined. *)
Definition pipeline_start (config : ICallConfig) (c : IPrepareConfig)
  : list Obs :=
  createMicrophoneAndCameraTracks (audioConfig c) (videoConfig c)
  :: match rtcJoin_refusal c with
     | Some e =>
         [callError CallErrorEvent.rtcOccurError CallErrorCodeType.rtc e]
     | None =>
         [callEventChanged CallEvent.joinRTCStart;
          rtc_join (appId config) (string_of (roomId c))
            (string_of (rtcToken c)) (userId config)]
     end.

(** The spread of two arguments, [{...c1, ...c2}]. *)
Definition over {A : Type} (first second : Key A) : Key A :=
  match second with
  | absent => first
  | present v => present v
  end.

Definition spread (c1 c2 : Partial_IPrepareConfig) : Partial_IPrepareConfig :=
  mkPartialPrepareConfig
    (over (given_roomId c1) (given_roomId c2))
    (over (given_rtcToken c1) (given_rtcToken c2))
    (over (given_localView c1) (given_localView c2))
    (over (given_remoteView c1) (given_remoteView c2))
    (over (given_autoAccept c1) (given_autoAccept c2))
    (over (given_callTimeoutMillisecond c1) (given_callTimeoutMillisecond c2))
    (over (given_firstFrameWaittingDisabled c1)
       (given_firstFrameWaittingDisabled c2))
    (over (given_videoConfig c1) (given_videoConfig c2))
    (over (given_audioConfig c1) (given_audioConfig c2)).

(** An argument whose only key is [rtcToken], given as [undefined]. *)
Definition token_undefined : Partial_IPrepareConfig :=
  mkPartialPrepareConfig absent (present None) absent absent absent absent
    absent absent absent.

(** ** Teardown, told exactly *)

(** What [destory] does to the tracks the object [a] holds (lines
    272-280): the remote audio track is stopped, the local audio and the
    local video track are closed, in this order. *)
Definition closing (a : CallApi) : list Obs :=
  match remote_audioTrack (remoteTracks a) with
  | Some t => [track_stop t]
  | None => []
  end ++
  match local_audioTrack (localTracks a) with
  | Some t => [track_close t]
  | None => []
  end ++
  match local_videoTrack (localTracks a) with
  | Some t => [track_close t]
  | None => []
  end.

(** What [_resetView] does to the views of the configuration [c]. *)
Definition clearing (c : IPrepareConfig) : list Obs :=
  match localView c with
  | Some v => [innerHTML_clear v]
  | None => []
  end ++
  match remoteView c with
  | Some v => [innerHTML_clear v]
  | None => []
  end.

(** The announcement of [s], unless [a] is in [s] already. *)
Definition announcing (a : CallApi) (s : CallStateType.t)
  (reason : CallStateReason.t) (eventReason : option string)
  (eventInfo : EventInfo) : list Obs :=
  if CallStateType.eqb (state a) s then []
  else [callStateChanged s reason eventReason eventInfo].

(** The runtime between two turns: no reaction is due. *)
Definition settled_rt (r : Runtime) : Runtime :=
  mkRuntime (timers r) (nextTimer r) (awaits r) (joins r) [] (observed r).


(** Alice in a call with user 2: the call of [w_calling] with the local
    tracks created, the channel joined and the publication requested. *)
Definition w_publishing : World :=
  run w_calling
    [on_settled 0 (fulfilled [mkTrack 1 false; mkTrack 2 false]);
     on_settled 0 (fulfilled [])].

(** The same call once user 2's audio is subscribed: the object holds
    the remote audio track and both local tracks. *)
Definition w_heard : World :=
  run w_publishing
    [on_user_published 2 media_audio;
     on_settled (List.length (awaits (rt w_publishing)))
       (fulfilled [mkTrack 3 false])].


(** The demo configuration with [autoAccept] set, and Alice prepared
    under it. *)
Definition auto_prepareConfig : IPrepareConfig :=
  mkPrepareConfig (Some "room-1") (Some "token-1") (Some (app_view 0))
    (Some (app_view 1)) (Some true) (Some 1000) (Some true) None None.

Definition w_prepared_auto : World :=
  run (new_World alice) [do_prepareForCall (literal auto_prepareConfig)].

(** * Theorems *)

(** ** Basic facts *)

Lemma CallStateType_eqb_refl (s : CallStateType.t) :
  CallStateType.eqb s s = true.
Proof. destruct s; reflexivity. Qed.

Lemma CallStateType_eqb_eq (s t : CallStateType.t) :
  CallStateType.eqb s t = true <-> s = t.
Proof.
  destruct s, t; simpl; split; intro H;
    try reflexivity; try discriminate.
Qed.

Lemma CallStateType_eqb_neq (s t : CallStateType.t) :
  CallStateType.eqb s t = false <-> s <> t.
Proof.
  destruct s, t; simpl; split; intro H;
    try reflexivity; try discriminate; try congruence.
Qed.

(** Evaluation of the monad's primitives and of the record projections,
    leaving the methods folded. *)
Ltac prim :=
  cbv beta iota zeta delta
    [bind ret throw this update runtime update_rt emit when when_some
     attempt await setTimeout clearTimeout new_join set_join defer observe
     fst snd];
  cbn [bind ret throw this update runtime update_rt emit when when_some
       attempt await setTimeout clearTimeout new_join set_join defer observe
       fst snd negb orb andb
       api rt log at_api at_timers obs
       callConfig prepareConfig state remoteUserId localTracks remoteTracks
       callType _callInfo _callMessage _rtcJoined
       _receiveRemoteFirstFrameDecoded _cancelCallTimer
       set_prepareConfig set_state set_remoteUserId set_localTracks
       set_remoteTracks set_callType set_callInfo set_callMessage
       set_rtcJoined set_receiveRemoteFirstFrameDecoded set_cancelCallTimer
       timers nextTimer awaits joins jobs observed
       trackId isPlaying local_audioTrack local_videoTrack
       remote_audioTrack remote_videoTrack
       roomId rtcToken localView remoteView autoAccept
       callTimeoutMillisecond firstFrameWaittingDisabled videoConfig
       audioConfig userId appId
       join_waiting join_rejected join_after
       timer_id timer_delay timer_isLocal
       getCallId CallMessage.getCallId CallMessage.setCallId
       CallMessage.held_callId CallMessage.encode
       message with_fromRoomId with_reject with_cancelCallByInternal
       ICallMessage.callId ICallMessage.fromUserId ICallMessage.remoteUserId
       ICallMessage.fromRoomId ICallMessage.message_action
       ICallMessage.rejectReason ICallMessage.rejectByInternal
       ICallMessage.cancelCallByInternal].

(** Closed goals about concrete runs: split the conjunctions and let the
    virtual machine evaluate each side. *)
Ltac by_computation :=
  repeat match goal with |- _ /\ _ => split end;
  try (vm_compute; reflexivity).

(** ** [_callStateChange] *)

(** C8: [_callStateChange] towards the state the object is already in
    changes nothing and emits nothing, whatever the reason, the event
    reason and the event info are; hence a second call with the same state
    has no effect after the first. *)
Theorem callStateChange_same_state_is_noop :
  (forall (w : World) stateReason eventReason eventInfo,
     _callStateChange (state (api w)) stateReason eventReason eventInfo w
     = (Ok tt, w))
  /\ (forall (w : World) s r1 e1 i1 r2 e2 i2,
        (_callStateChange s r1 e1 i1 ;; _callStateChange s r2 e2 i2) w
        = _callStateChange s r1 e1 i1 w).
Proof.
  split.
  - intros [a r l] stateReason eventReason eventInfo.
    unfold _callStateChange. prim.
    rewrite CallStateType_eqb_refl. reflexivity.
  - intros [a r l] s r1 e1 i1 r2 e2 i2. unfold _callStateChange. prim.
    destruct (CallStateType.eqb (state a) s) eqn:E; prim.
    + rewrite E. reflexivity.
    + rewrite CallStateType_eqb_refl. reflexivity.
Qed.

(** ** Busy auto-reject *)

(** C4: an inbound [VideoCall] from a user that does not pass
    [_isCallingUser] leaves the object as it is (so its call id, its
    remote user and its call info are unchanged), emits no state change,
    and its only effect is the request to send the inviter a [Reject] with
    [rejectReason = "busy"] and [rejectByInternal = Internal]. *)
Theorem receiveVideoCall_from_other_peer_auto_rejects
  (w : World) (data : ICallMessage.t) :
  ICallMessage.message_action data = CallAction.VideoCall ->
  _isCallingUser (api w) (ICallMessage.fromUserId data) = false ->
  messageReceive data w =
    (Ok tt,
     mkWorld (api w)
       (suspend (await_sendMessage after_send_nothing) (rt w))
       (log w ++
        [point (api w) (rt w)
           (sendMessage (ICallMessage.fromUserId data)
              (ICallMessage.mk (getCallId (api w)) (userId (callConfig (api w)))
                 (ICallMessage.fromUserId data) None CallAction.Reject
                 (Some "busy") (Some RejectByInternal.Internal) None))])).
Proof.
  intros Hact Hbusy. destruct w as [a r l]. cbn [api rt log] in *.
  unfold messageReceive. rewrite Hact.
  unfold _receiveVideoCall. prim. rewrite Hbusy. cbn [negb].
  unfold _autoReject, _publishMessage. prim. reflexivity.
Qed.

Lemma receiveVideoCall_from_other_peer_witness :
  ICallMessage.message_action invite_from_3 = CallAction.VideoCall
  /\ _isCallingUser (api w_calling) (ICallMessage.fromUserId invite_from_3) = false
  /\ state (api (snd (messageReceive invite_from_3 w_calling)))
     = CallStateType.calling
  /\ remoteUserId (api (snd (messageReceive invite_from_3 w_calling))) = 2.
Proof.
  split; [reflexivity |]. split; [vm_compute; reflexivity |].
  rewrite (receiveVideoCall_from_other_peer_auto_rejects w_calling invite_from_3
             eq_refl eq_refl).
  split; vm_compute; reflexivity.
Defined.

(** ** [_checkAppendView] and [accept] *)


(** [_checkAppendView] leaves the state alone or makes it [connected]. *)
Lemma checkAppendView_state (w : World) :
  state (api (snd (_checkAppendView w))) = state (api w)
  \/ state (api (snd (_checkAppendView w))) = CallStateType.connected.
Proof.
  destruct w as [a r l].
  unfold _checkAppendView, _callStateChange, _playLocalVideo, _palyRemoteVideo,
    _playRemoteAudio.
  prim.
  destruct (CallStateType.eqb (state a) CallStateType.connecting); prim;
    [| left; reflexivity].
  destruct (truthy_bool (firstFrameWaittingDisabled (prepareConfig a))
            || _receiveRemoteFirstFrameDecoded a); prim; [| left; reflexivity].
  destruct (CallStateType.eqb (state a) CallStateType.connected) eqn:E; prim.
  - apply CallStateType_eqb_eq in E.
    destruct (localView (prepareConfig a)); prim; try (right; exact E);
    destruct (local_videoTrack (localTracks a)) as [[? []] |]; prim;
    destruct (remoteView (prepareConfig a)); prim; try (right; exact E);
    destruct (remote_videoTrack (remoteTracks a)) as [[? []] |]; prim;
    destruct (remote_audioTrack (remoteTracks a)) as [[? []] |]; prim;
    right; exact E.
  - destruct (localView (prepareConfig a)); prim; try (right; reflexivity);
    destruct (local_videoTrack (localTracks a)) as [[? []] |]; prim;
    destruct (remoteView (prepareConfig a)); prim; try (right; reflexivity);
    destruct (remote_videoTrack (remoteTracks a)) as [[? []] |]; prim;
    destruct (remote_audioTrack (remoteTracks a)) as [[? []] |]; prim;
    right; reflexivity.
Qed.

(** C9 (as stated, refuted): with [localView] set and only [remoteView]
    unset, [_checkAppendView] has already attached the local view when it
    throws.  The world is the one in which [_receiveAccept] calls it. *)
Lemma checkAppendView_missing_remoteView_attaches_localView :
  _receiveAccept accept_from_2 w_calling_no_remoteView
  = _checkAppendView w_accepted_no_remoteView
  /\ state (api w_accepted_no_remoteView) = CallStateType.connecting
  /\ frame_ready (api w_accepted_no_remoteView) = true
  /\ remoteView (prepareConfig (api w_accepted_no_remoteView)) = None
  /\ fst (_checkAppendView w_accepted_no_remoteView)
     = Threw "remoteView is undefined"
  /\ count is_appendChild (log w_accepted_no_remoteView) = 0%nat
  /\ In (appendChild (app_view 0) LOCAL_VIEW_ELEMENT)
        (map obs (log (snd (_checkAppendView w_accepted_no_remoteView)))).
Proof.
  by_computation. vm_compute. tauto.
Qed.

(** C9 (amended): if [_checkAppendView] runs in state [connecting] with
    its frame condition satisfied while [localView] or [remoteView] is
    unset, it first goes to [connected] with reason
    [recvRemoteFirstFrame] and only then throws; the object stays
    [connected], no [callError] is emitted and the remote view is never
    attached.  The local view is attached exactly when [localView] is set
    (the throw is then the one for [remoteView]). *)
Theorem checkAppendView_missing_view_latches_connected (w : World) :
  state (api w) = CallStateType.connecting ->
  frame_ready (api w) = true ->
  localView (prepareConfig (api w)) = None
  \/ remoteView (prepareConfig (api w)) = None ->
  let a' := set_state CallStateType.connected (api w) in
  exists (w' : World) (rest : list Point),
    _checkAppendView w =
      (Threw (match localView (prepareConfig (api w)) with
              | None => "localView is undefined"
              | Some _ => "remoteView is undefined"
              end), w')
    /\ state (api w') = CallStateType.connected
    /\ log w' =
       log w ++
       point a' (rt w)
         (callStateChanged CallStateType.connected
            CallStateReason.recvRemoteFirstFrame None info_undefined) :: rest
    /\ (forall p, In p rest ->
          is_callError (obs p) = false
          /\ is_attach REMOTE_VIEW_ELEMENT (obs p) = false)
    /\ match localView (prepareConfig (api w)) with
       | None => rest = []
       | Some v =>
           exists rest',
             rest = point a' (rt w) (appendChild v LOCAL_VIEW_ELEMENT) :: rest'
       end.
Proof.
  destruct w as [a r l]. cbn [api rt log]. intros Hs Hf Hv. cbv zeta.
  unfold frame_ready in Hf.
  unfold _checkAppendView, _callStateChange, _playLocalVideo. prim.
  rewrite Hs, Hf. cbn [CallStateType.eqb negb]. prim.
  rewrite Hs. cbn [CallStateType.eqb]. prim.
  destruct (localView (prepareConfig a)) as [v |] eqn:Elv; prim.
  - destruct Hv as [Hv | Hv]; [discriminate |]. rewrite Hv.
    destruct (local_videoTrack (localTracks a)) as [[tid []] |]; prim.
    + eexists; exists [point (set_state CallStateType.connected a) r
                         (appendChild v LOCAL_VIEW_ELEMENT)].
      split; [reflexivity |]. split; [reflexivity |].
      split; [unfold point; rewrite <- !app_assoc; reflexivity |].
      split; [| eexists; reflexivity].
      intros p [<- | []]. split; reflexivity.
    + eexists; exists [point (set_state CallStateType.connected a) r
                         (appendChild v LOCAL_VIEW_ELEMENT);
                       point (set_state CallStateType.connected a) r
                         (innerHTML_clear LOCAL_VIEW_ELEMENT);
                       point (set_state CallStateType.connected a) r
                         (track_play (mkTrack tid false) (Some LOCAL_VIEW_ELEMENT))].
      split; [reflexivity |]. split; [reflexivity |].
      split; [unfold point; rewrite <- !app_assoc; reflexivity |].
      split; [| eexists; reflexivity].
      intros p [<- | [<- | [<- | []]]]; split; reflexivity.
    + eexists; exists [point (set_state CallStateType.connected a) r
                         (appendChild v LOCAL_VIEW_ELEMENT)].
      split; [reflexivity |]. split; [reflexivity |].
      split; [unfold point; rewrite <- !app_assoc; reflexivity |].
      split; [| eexists; reflexivity].
      intros p [<- | []]. split; reflexivity.
  - eexists; exists [].
    split; [reflexivity |]. split; [reflexivity |].
    split; [reflexivity |]. split; [| reflexivity].
    intros p [].
Qed.

Lemma checkAppendView_missing_view_witness :
  state (api w_accepted_no_remoteView) = CallStateType.connecting
  /\ frame_ready (api w_accepted_no_remoteView) = true
  /\ remoteView (prepareConfig (api w_accepted_no_remoteView)) = None
  /\ exists (w' : World) (rest : list Point),
       _checkAppendView w_accepted_no_remoteView
       = (Threw "remoteView is undefined", w')
       /\ state (api w') = CallStateType.connected
       /\ (forall p, In p rest ->
             is_callError (obs p) = false
             /\ is_attach REMOTE_VIEW_ELEMENT (obs p) = false).
Proof.
  split; [vm_compute; reflexivity |]. split; [vm_compute; reflexivity |].
  split; [vm_compute; reflexivity |].
  destruct (checkAppendView_missing_view_latches_connected
              w_accepted_no_remoteView eq_refl eq_refl (or_intror eq_refl))
    as (w' & rest & H1 & H2 & _ & H4 & _).
  exists w', rest. split; [exact H1 |]. split; [exact H2 | exact H4].
Defined.

(** ** Teardown: [_resetData] and [destory] *)

(** [_resetData] never throws; it leaves the reset object and writes only
    the clearing of the application's views, at which the call id is
    already empty while the state and the timer are still untouched. *)
Lemma resetData_effect (w : World) :
  exists clears : list Point,
    _resetData w =
      (Ok tt, mkWorld (reset_api (api w)) (reset_rt (api w) (rt w))
                (log w ++ clears))
    /\ Forall (fun p => is_teardown (obs p) = true) clears
    /\ Forall (fun p => state (at_api p) = state (api w)
                        /\ getCallId (at_api p) = ""
                        /\ _cancelCallTimer (at_api p) = _cancelCallTimer (api w)
                        /\ at_timers p = timers (rt w)) clears.
Proof.
  destruct w as [a r l]. unfold _resetData, _resetView, reset_api, reset_rt.
  prim.
  set (a1 := set_receiveRemoteFirstFrameDecoded false
               (set_rtcJoined false
                  (set_remoteTracks (mkRemoteTracks None None)
                     (set_localTracks (mkLocalTracks None None)
                        (set_remoteUserId 0
                           (set_callMessage
                              (CallMessage.setCallId "" (_callMessage a)) a)))))).
  exists ((match localView (prepareConfig a) with
           | Some v => [point a1 r (innerHTML_clear v)]
           | None => []
           end) ++
          (match remoteView (prepareConfig a) with
           | Some v => [point a1 r (innerHTML_clear v)]
           | None => []
           end)).
  subst a1. unfold point.
  destruct (localView (prepareConfig a)); prim;
    destruct (remoteView (prepareConfig a)); prim;
    destruct (_cancelCallTimer a) eqn:Et; prim;
    (split;
      [ unfold set_callInfo, set_cancelCallTimer; prim; rewrite ?Et;
        rewrite <- ?app_assoc, ?app_nil_r; reflexivity
      | split; cbn [app];
        repeat first [apply Forall_nil | apply Forall_cons];
        repeat split; prim; rewrite ?Et; reflexivity ]).
Qed.


(** ** Inbound [Reject] *)


(** The end of [_receiveReject] (lines 410-413), run on a reset object. *)
Lemma after_destory_receiveReject_effect
  (stateReason : CallStateReason.t) (rejectReason : option string)
  (a : CallApi) (r : Runtime) (l : list Point) :
  let a1 := set_state CallStateType.prepared (reset_api a) in
  let r1 := reset_rt a r in
  after_destory (after_destory_receiveReject stateReason rejectReason)
    (mkWorld (reset_api a) r1 l) =
  (Ok tt,
   mkWorld a1 r1
     (l ++
      (if CallStateType.eqb (state a) CallStateType.prepared then []
       else [point a1 r1
               (callStateChanged CallStateType.prepared stateReason (Some "")
                  (info_reject rejectReason))]) ++
      [point a1 r1 (callEventChanged CallEvent.remoteRejected)])).
Proof.
  cbv zeta. unfold after_destory, _callStateChange, _callEventChange. prim.
  unfold reset_api at 1. prim.
  destruct (CallStateType.eqb (state a) CallStateType.prepared) eqn:E; prim.
  - apply CallStateType_eqb_eq in E. unfold point, reset_api. prim.
    rewrite E. reflexivity.
  - unfold point. rewrite <- !app_assoc. reflexivity.
Qed.

(** ** [call] *)

Lemma nth_error_snoc {A : Type} (l : list A) (x : A) :
  nth_error (l ++ [x]) (List.length l) = Some x.
Proof.
  induction l as [| h t IH]; [reflexivity | exact IH].
Qed.

Lemma filter_all_true {A : Type} (l : list A) :
  filter (fun _ => true) l = l.
Proof.
  induction l as [| h t IH]; [reflexivity |].
  cbn [filter]. rewrite IH. reflexivity.
Qed.

(** [_publishMessage], up to its [await]: the stamped message is handed to
    the transport and the method is suspended. *)
Lemma publishMessage_effect (uid : UserId) (msg : ICallMessage.t)
  (k : AfterSend) (w : World) :
  _publishMessage uid msg k w =
  (Ok tt,
   mkWorld (api w) (suspend (await_sendMessage k) (rt w))
     (log w ++
      [point (api w) (rt w)
         (sendMessage uid (CallMessage.encode (_callMessage (api w)) msg))])).
Proof.
  destruct w as [a r l]. unfold _publishMessage. prim. reflexivity.
Qed.

(** [_autoCancelCall]: it writes nothing to the log and touches only the
    timer; it arms one exactly when [remoteUserId] and
    [callTimeoutMillisecond] are both non-zero, after clearing the timer
    the object holds. *)
Lemma autoCancelCall_effect (isLocal : bool) (w : World) :
  exists (tm : option nat) (ts : list Timer) (n : nat),
    _autoCancelCall isLocal w =
      (Ok tt,
       mkWorld (set_cancelCallTimer tm (api w))
         (mkRuntime ts n (awaits (rt w)) (joins (rt w)) (jobs (rt w))
            (observed (rt w)))
         (log w))
    /\ (forall time : Z,
          truthy_id (remoteUserId (api w)) = true ->
          callTimeoutMillisecond (prepareConfig (api w)) = Some time ->
          time <> 0 ->
          tm = Some (nextTimer (rt w))
          /\ ts = filter (fun t => match _cancelCallTimer (api w) with
                                   | Some id => negb (Nat.eqb (timer_id t) id)
                                   | None => true
                                   end) (timers (rt w))
                  ++ [mkTimer (nextTimer (rt w)) time isLocal])
    /\ (truthy_id (remoteUserId (api w)) = false
        \/ truthy_num (callTimeoutMillisecond (prepareConfig (api w))) = false ->
        tm = _cancelCallTimer (api w) /\ ts = timers (rt w)
        /\ n = nextTimer (rt w)).
Proof.
  destruct w as [a r l]. unfold _autoCancelCall. prim.
  assert (Hid : forall (x : option nat),
            set_cancelCallTimer x a = set_cancelCallTimer x a) by reflexivity.
  assert (Hsame : (Ok tt, mkWorld a r l) =
                  (Ok tt : Result unit,
                   mkWorld (set_cancelCallTimer (_cancelCallTimer a) a)
                     (mkRuntime (timers r) (nextTimer r) (awaits r) (joins r)
                        (jobs r) (observed r)) l)).
  { destruct a, r. reflexivity. }
  pose proof (filter_all_true (timers r)) as Hfilter.
  destruct (truthy_id (remoteUserId a)) eqn:Eid; cbn [negb].
  - destruct (callTimeoutMillisecond (prepareConfig a)) as [time |] eqn:Et.
    + destruct (time =? 0) eqn:Ez; cbn [negb].
      * exists (_cancelCallTimer a), (timers r), (nextTimer r).
        split; [exact Hsame |]. split.
        -- intros t' _ Ht' Hnz. apply Z.eqb_eq in Ez. congruence.
        -- intros _. repeat split.
      * destruct (_cancelCallTimer a) as [id |] eqn:Etm; prim.
        -- eexists; eexists; eexists. split; [reflexivity |]. split.
           ++ intros t' _ Ht' _. injection Ht' as <-. split; reflexivity.
           ++ intros [H | H]; [discriminate |].
              cbn [truthy_num] in H. rewrite Ez in H. discriminate.
        -- eexists; eexists; eexists. split; [reflexivity |]. split.
           ++ intros t' _ Ht' _. injection Ht' as <-.
              split; [reflexivity |]. rewrite Hfilter. reflexivity.
           ++ intros [H | H]; [discriminate |].
              cbn [truthy_num] in H. rewrite Ez in H. discriminate.
    + exists (_cancelCallTimer a), (timers r), (nextTimer r).
      split; [exact Hsame |]. split.
      * intros t' _ Ht' _. discriminate.
      * intros _. repeat split.
  - exists (_cancelCallTimer a), (timers r), (nextTimer r).
    split; [exact Hsame |]. split.
    + intros t' H. discriminate.
    + intros _. repeat split.
Qed.

(** [_rtcJoinAndPublish], up to its first [await]: the tracks are
    requested; the channel is joined unless it is joined already or
    [roomId] or [rtcToken] is missing.  The object and the timers are not
    touched. *)
Lemma rtcJoinAndPublish_begins (k : AfterJoinAndPublish) (w : World) :
  exists (r' : Runtime) (media : list Point) (joining : list Await),
    _rtcJoinAndPublish k w =
      (Ok tt,
       mkWorld (api w) r'
         (log w ++
          point (api w) (rt w)
            (createMicrophoneAndCameraTracks
               (audioConfig (prepareConfig (api w)))
               (videoConfig (prepareConfig (api w)))) :: media))
    /\ timers r' = timers (rt w)
    /\ nextTimer r' = nextTimer (rt w)
    /\ awaits r' =
       awaits (rt w) ++ await_createTracks (List.length (joins (rt w))) :: joining
    /\ ((media = [] /\ joining = [])
        \/ (media =
              [point (api w) (rt w) (callEventChanged CallEvent.joinRTCStart);
               point (api w) (rt w)
                 (rtc_join (appId (callConfig (api w)))
                    (string_of (roomId (prepareConfig (api w))))
                    (string_of (rtcToken (prepareConfig (api w))))
                    (userId (callConfig (api w))))]
            /\ joining = [await_join (List.length (joins (rt w)))]
            /\ _rtcJoined (api w) = false
            /\ truthy_str (roomId (prepareConfig (api w))) = true
            /\ truthy_str (rtcToken (prepareConfig (api w))) = true)).
Proof.
  destruct w as [a r l].
  unfold _rtcJoinAndPublish, _createLocalTracks, _rtcJoin, join_fulfilled,
    join_rejected_with, _callEventChange.
  prim.
  destruct (_rtcJoined a) eqn:Ej; prim.
  { rewrite nth_error_snoc. prim. cbn [pred Nat.eqb andb].
    eexists; exists [], []. split; [reflexivity |].
    repeat split. left. split; reflexivity. }
  destruct (truthy_str (roomId (prepareConfig a))) eqn:Er; prim.
  2: { rewrite nth_error_snoc. prim.
       eexists; exists [], []. split; [reflexivity |].
       repeat split. left. split; reflexivity. }
  destruct (truthy_str (rtcToken (prepareConfig a))) eqn:Et; prim.
  2: { rewrite nth_error_snoc. prim.
       eexists; exists [], []. split; [reflexivity |].
       repeat split. left. split; reflexivity. }
  eexists; eexists; eexists. split.
  { unfold point. rewrite <- !app_assoc. reflexivity. }
  cbn [timers nextTimer awaits]. split; [reflexivity |].
  split; [reflexivity |]. split.
  { rewrite <- ?app_assoc. reflexivity. }
  right. repeat split.
Qed.




(** ** Invariants: one proof for every method *)

Lemma hoare_ret {A : Type} (P Q : World -> Prop) (a : A) :
  (forall w, P w -> Q w) -> hoare P (ret a) Q.
Proof. intros H w Hw. apply H, Hw. Qed.

Lemma hoare_bind {A B : Type} (P R Q : World -> Prop) (m : M A) (k : A -> M B) :
  hoare P m R -> (forall a, hoare R (k a) Q) -> (forall w, R w -> Q w) ->
  hoare P (bind m k) Q.
Proof.
  intros Hm Hk HRQ w Hw. unfold bind. specialize (Hm w Hw).
  destruct (m w) as [[a | e] w']; cbn [snd] in *.
  - apply Hk, Hm.
  - apply HRQ, Hm.
Qed.

Lemma hoare_ext {A : Type} (P Q : World -> Prop) (m m' : M A) :
  (forall w, m w = m' w) -> hoare P m Q -> hoare P m' Q.
Proof. intros E H w Hw. rewrite <- E. apply H, Hw. Qed.

Lemma bind_assoc {A B C : Type} (m : M A) (k : A -> M B) (h : B -> M C)
  (w : World) :
  bind (bind m k) h w = bind m (fun a => bind (k a) h) w.
Proof.
  unfold bind. destruct (m w) as [[a | e] w']; reflexivity.
Qed.

Lemma preserves_ret (I : World -> Prop) {A : Type} (a : A) :
  preserves I (ret a).
Proof. intros w Hw. exact Hw. Qed.

Lemma preserves_throw (I : World -> Prop) {A : Type} (e : Error) :
  preserves I (@throw A e).
Proof. intros w Hw. exact Hw. Qed.

Lemma preserves_this (I : World -> Prop) : preserves I this.
Proof. intros w Hw. exact Hw. Qed.

Lemma preserves_runtime (I : World -> Prop) : preserves I runtime.
Proof. intros w Hw. exact Hw. Qed.

Lemma preserves_bind (I : World -> Prop) {A B : Type} (m : M A) (k : A -> M B) :
  preserves I m -> (forall a, preserves I (k a)) -> preserves I (bind m k).
Proof. intros Hm Hk. apply (hoare_bind I I I); auto. Qed.

Lemma preserves_attempt (I : World -> Prop) (m : M unit) :
  preserves I m -> preserves I (attempt m).
Proof. intros Hm w Hw. exact (Hm w Hw). Qed.

Lemma preserves_when (I : World -> Prop) (b : bool) (m : M unit) :
  preserves I m -> preserves I (when b m).
Proof. intros Hm. destruct b; [exact Hm | apply preserves_ret]. Qed.

Lemma preserves_when_some (I : World -> Prop) {A : Type} (o : option A)
  (m : A -> M unit) :
  (forall a, preserves I (m a)) -> preserves I (when_some o m).
Proof. intros Hm. destruct o; [apply Hm | apply preserves_ret]. Qed.

(** [_receiveVideoCall] is [receiveVideoCall_commit] followed by the
    event, the media pipeline and, possibly, the automatic accept. *)
Lemma receiveVideoCall_split (data : ICallMessage.t) (w : World) :
  (a <- this ;;
   if negb (_isCallingUser a (ICallMessage.fromUserId data)) then
     _autoReject (ICallMessage.fromUserId data)
   else
     receiveVideoCall_commit data ;;
     _callEventChange CallEvent.onCalling ;;
     _rtcJoinAndPublish after_join_receiveVideoCall) w
  = _receiveVideoCall data w.
Proof.
  unfold _receiveVideoCall, receiveVideoCall_commit.
  cbv beta iota zeta delta [bind this update]. cbn [api rt log].
  destruct (negb (_isCallingUser (api w) (ICallMessage.fromUserId data)));
    [reflexivity |].
  match goal with
  | |- context [_autoCancelCall false ?W] =>
      destruct (_autoCancelCall false W) as [[[] | e] w1]; [| reflexivity]
  end.
  match goal with
  | |- context [_callStateChange ?s ?r ?er ?ei w1] =>
      destruct (_callStateChange s r er ei w1) as [[[] | e] w2]; reflexivity
  end.
Qed.

(** What [_callStateChange] and [emit] do to the object. *)
Lemma callStateChange_state (s : CallStateType.t) r er ei (w : World) :
  state (api (snd (_callStateChange s r er ei w))) = s.
Proof.
  destruct w as [a rt0 l]. unfold _callStateChange. prim.
  destruct (CallStateType.eqb (state a) s) eqn:E; prim.
  - apply CallStateType_eqb_eq, E.
  - reflexivity.
Qed.

Lemma emit_api (o : Obs) (w : World) :
  api (snd (emit o w)) = api w /\ rt (snd (emit o w)) = rt w.
Proof. destruct w. split; reflexivity. Qed.

(** One step of a proof that a method preserves an invariant: follow the
    structure of the method. *)
Ltac pres_step :=
  lazymatch goal with
  | |- hoare ?J ?m ?J => change (preserves J m)
  | |- preserves _ (bind _ _) => apply preserves_bind; [| intro; cbv beta]
  | |- preserves _ (ret _) => apply preserves_ret
  | |- preserves _ (throw _) => apply preserves_throw
  | |- preserves _ this => apply preserves_this
  | |- preserves _ runtime => apply preserves_runtime
  | |- preserves _ (attempt _) => apply preserves_attempt
  | |- preserves _ (when _ _) => apply preserves_when
  | |- preserves _ (when_some _ _) => apply preserves_when_some; intro; cbv beta
  | |- preserves _ (if ?b then _ else _) => destruct b
  | |- preserves _ (match ?x with _ => _ end) => destruct x
  | |- preserves _ (let _ := _ in _) => cbv zeta
  | |- preserves _ (await _) => unfold await
  | |- preserves _ (new_join _ _) => unfold new_join
  | |- preserves _ (set_join _ _) => unfold set_join
  | |- preserves _ (defer _) => unfold defer
  | |- preserves _ (observe _) => unfold observe
  | |- preserves _ (setTimeout _ _) => unfold setTimeout
  end.

Create HintDb pres.

Section Invariant.

Variable I : World -> Prop.

Hypothesis I_emit : forall o, plain o = true -> preserves I (emit o).
Hypothesis I_update : forall f, quiet f -> preserves I (update f).
Hypothesis I_update_rt : forall f, quiet_rt f -> preserves I (update_rt f).
Hypothesis I_clearTimeout : forall id, preserves I (clearTimeout id).
Hypothesis I_callStateChange :
  forall s r er ei,
    s <> CallStateType.idle -> s <> CallStateType.connected ->
    preserves I (_callStateChange s r er ei).
Hypothesis I_checkAppendView : preserves I _checkAppendView.
Hypothesis I_resetData : preserves I _resetData.
Hypothesis I_autoCancelCall : forall b, preserves I (_autoCancelCall b).
Hypothesis I_setCallId_calling :
  forall uuid,
    hoare (fun w => I w /\ state (api w) = CallStateType.calling)
      (update (fun a => set_callMessage
                 (CallMessage.setCallId uuid (_callMessage a)) a))
      I.
Hypothesis I_receiveVideoCall_commit :
  forall data, preserves I (receiveVideoCall_commit data).

Ltac pres :=
  repeat first
    [ pres_step
    | apply I_emit; reflexivity
    | apply I_update; intro; repeat split; reflexivity
    | apply I_update_rt; intro; reflexivity
    | apply I_clearTimeout
    | apply I_callStateChange; discriminate
    | apply I_checkAppendView
    | apply I_resetData
    | apply I_autoCancelCall
    | solve [auto with pres] ].

Lemma pres_callEventChange e : preserves I (_callEventChange e).
Proof. unfold _callEventChange. pres. Qed.

Lemma pres_callError ev ty err : preserves I (_callError ev ty err).
Proof. unfold _callError. pres. Qed.

#[local] Hint Resolve pres_callEventChange pres_callError : pres.

Lemma pres_playLocalVideo : preserves I _playLocalVideo.
Proof. unfold _playLocalVideo. pres. Qed.

Lemma pres_palyRemoteVideo : preserves I _palyRemoteVideo.
Proof. unfold _palyRemoteVideo. pres. Qed.

Lemma pres_playRemoteAudio : preserves I _playRemoteAudio.
Proof. unfold _playRemoteAudio. pres. Qed.

#[local] Hint Resolve pres_playLocalVideo pres_palyRemoteVideo
  pres_playRemoteAudio : pres.

Lemma pres_publishMessage uid msg k : preserves I (_publishMessage uid msg k).
Proof. unfold _publishMessage. pres. Qed.

Lemma pres_after_send k : preserves I (after_send k).
Proof. unfold after_send. pres. Qed.

#[local] Hint Resolve pres_publishMessage pres_after_send : pres.

Lemma pres_publishMessage_settled k f : preserves I (_publishMessage_settled k f).
Proof. unfold _publishMessage_settled. pres. Qed.

Lemma pres_after_destory k : preserves I (after_destory k).
Proof. unfold after_destory. pres. Qed.

#[local] Hint Resolve pres_publishMessage_settled pres_after_destory : pres.

Lemma pres_destory k : preserves I (destory k).
Proof. unfold destory. pres. Qed.

Lemma pres_destory_settled k f : preserves I (destory_settled k f).
Proof. unfold destory_settled. pres. Qed.

#[local] Hint Resolve pres_destory pres_destory_settled : pres.

Lemma pres_autoCancelCall_timeout b : preserves I (_autoCancelCall_timeout b).
Proof. unfold _autoCancelCall_timeout. pres. Qed.

Lemma pres_autoReject uid : preserves I (_autoReject uid).
Proof. unfold _autoReject. pres. Qed.

Lemma pres_accept uid : preserves I (accept uid).
Proof. unfold accept. pres. Qed.

#[local] Hint Resolve pres_autoCancelCall_timeout pres_autoReject pres_accept
  : pres.

Lemma pres_rtcJoinAndPublish_catch e k :
  preserves I (_rtcJoinAndPublish_catch e k).
Proof. unfold _rtcJoinAndPublish_catch. pres. Qed.

Lemma pres_after_join k : preserves I (after_join k).
Proof. unfold after_join. pres. Qed.

#[local] Hint Resolve pres_rtcJoinAndPublish_catch pres_after_join : pres.

Lemma pres_rtcPublish k : preserves I (_rtcPublish k).
Proof. unfold _rtcPublish. pres. Qed.

Lemma pres_rtcPublish_settled k f : preserves I (_rtcPublish_settled k f).
Proof. unfold _rtcPublish_settled. pres. Qed.

#[local] Hint Resolve pres_rtcPublish pres_rtcPublish_settled : pres.

Lemma pres_rtcJoinAndPublish_joined k :
  preserves I (_rtcJoinAndPublish_joined k).
Proof. unfold _rtcJoinAndPublish_joined. pres. Qed.

#[local] Hint Resolve pres_rtcJoinAndPublish_joined : pres.

Lemma pres_join_fulfilled j : preserves I (join_fulfilled j).
Proof. unfold join_fulfilled. pres. Qed.

Lemma pres_join_rejected_with now j e :
  preserves I (join_rejected_with now j e).
Proof. unfold join_rejected_with. pres. Qed.

#[local] Hint Resolve pres_join_fulfilled pres_join_rejected_with : pres.

Lemma pres_createLocalTracks j : preserves I (_createLocalTracks j).
Proof. unfold _createLocalTracks. pres. Qed.

Lemma pres_createLocalTracks_settled j tracks f :
  preserves I (_createLocalTracks_settled j tracks f).
Proof. unfold _createLocalTracks_settled. pres. Qed.

Lemma pres_rtcJoin j : preserves I (_rtcJoin j).
Proof. unfold _rtcJoin. pres. Qed.

Lemma pres_rtcJoin_settled j f : preserves I (_rtcJoin_settled j f).
Proof. unfold _rtcJoin_settled. pres. Qed.

#[local] Hint Resolve pres_createLocalTracks pres_createLocalTracks_settled
  pres_rtcJoin pres_rtcJoin_settled : pres.

Lemma pres_rtcJoinAndPublish k : preserves I (_rtcJoinAndPublish k).
Proof. unfold _rtcJoinAndPublish. pres. Qed.

#[local] Hint Resolve pres_rtcJoinAndPublish : pres.

Lemma pres_prepareForCall config : preserves I (prepareForCall config).
Proof. unfold prepareForCall. pres. Qed.

Lemma pres_call rid ct uuid : preserves I (call rid ct uuid).
Proof.
  unfold call. cbv zeta.
  apply preserves_bind; [apply preserves_this | intro a; cbv beta].
  destruct (negb (CallStateType.eqb (state a) CallStateType.prepared));
    [pres |].
  apply preserves_bind; [pres | intro].
  apply preserves_bind; [pres | intro].
  apply preserves_bind; [pres | intro].
  apply (hoare_bind I (fun w => I w /\ state (api w) = CallStateType.calling) I).
  - intros w Hw. split.
    + apply I_callStateChange; [discriminate | discriminate | exact Hw].
    + apply callStateChange_state.
  - intro.
    apply (hoare_bind _ (fun w => I w /\ state (api w) = CallStateType.calling) I).
    + intros w [Hw Hs]. split.
      * apply pres_callEventChange, Hw.
      * unfold _callEventChange. rewrite (proj1 (emit_api _ _)). exact Hs.
    + intro. apply (hoare_bind _ I I);
        [apply I_setCallId_calling | intro; pres | auto].
    + intros w [H _]. exact H.
  - intros w [H _]. exact H.
Qed.

Lemma pres_cancelCall : preserves I cancelCall.
Proof. unfold cancelCall. pres. Qed.

Lemma pres_reject uid reason : preserves I (reject uid reason).
Proof. unfold reject. pres. Qed.

Lemma pres_hangup uid : preserves I (hangup uid).
Proof. unfold hangup. pres. Qed.

Lemma pres_receiveCancelCall data : preserves I (_receiveCancelCall data).
Proof. unfold _receiveCancelCall. pres. Qed.

Lemma pres_receiveVideoCall data : preserves I (_receiveVideoCall data).
Proof.
  apply (hoare_ext _ _ _ _ (receiveVideoCall_split data)).
  apply preserves_bind; [apply preserves_this | intro a; cbv beta].
  destruct (negb (_isCallingUser a (ICallMessage.fromUserId data))).
  - apply pres_autoReject.
  - apply preserves_bind; [apply I_receiveVideoCall_commit | intro]. pres.
Qed.

Lemma pres_receiveAccept data : preserves I (_receiveAccept data).
Proof. unfold _receiveAccept. pres. Qed.

Lemma pres_receiveHangup data : preserves I (_receiveHangup data).
Proof. unfold _receiveHangup. pres. Qed.

Lemma pres_receiveReject data : preserves I (_receiveReject data).
Proof. unfold _receiveReject. cbv zeta. pres. Qed.

#[local] Hint Resolve pres_prepareForCall pres_call pres_cancelCall pres_reject
  pres_hangup pres_receiveCancelCall pres_receiveVideoCall pres_receiveAccept
  pres_receiveHangup pres_receiveReject : pres.

Lemma pres_messageReceive data : preserves I (messageReceive data).
Proof. unfold messageReceive. pres. Qed.

Lemma pres_handleRemoteFirstFrameDecoded :
  preserves I _handleRemoteFirstFrameDecoded.
Proof. unfold _handleRemoteFirstFrameDecoded. pres. Qed.

Lemma pres_user_joined uid : preserves I (user_joined uid).
Proof. unfold user_joined. pres. Qed.

Lemma pres_user_left uid : preserves I (user_left uid).
Proof. unfold user_left. pres. Qed.

Lemma pres_user_published uid m : preserves I (user_published uid m).
Proof. unfold user_published. pres. Qed.

Lemma pres_user_published_settled m t f :
  preserves I (user_published_settled m t f).
Proof. unfold user_published_settled. pres. Qed.

Lemma pres_user_unpublished uid m : preserves I (user_unpublished uid m).
Proof. unfold user_unpublished. pres. Qed.

Lemma pres_user_unpublished_settled m f :
  preserves I (user_unpublished_settled m f).
Proof. unfold user_unpublished_settled. pres. Qed.

#[local] Hint Resolve pres_messageReceive pres_handleRemoteFirstFrameDecoded
  pres_user_joined pres_user_left pres_user_published
  pres_user_published_settled pres_user_unpublished
  pres_user_unpublished_settled : pres.

Lemma pres_resume a s : preserves I (resume a s).
Proof. unfold resume. pres. Qed.

#[local] Hint Resolve pres_resume : pres.

Lemma pres_handle i : preserves I (handle i).
Proof. unfold handle. pres. Qed.

Lemma pres_run_jobs js : preserves I (run_jobs js).
Proof.
  induction js as [| j js IH]; cbn [run_jobs]; [apply preserves_ret |].
  apply preserves_bind; [| intro; exact IH].
  apply preserves_attempt. unfold run_job. pres.
Qed.

Lemma pres_flush : preserves I flush.
Proof.
  unfold flush. apply preserves_bind; [pres | intro].
  apply preserves_bind; [pres | intro]. apply pres_run_jobs.
Qed.

(** Every turn of the machine preserves the invariant. *)
Lemma pres_step_of_machine (w : World) (i : Input) : I w -> I (step w i).
Proof.
  intros Hw. unfold step, exec.
  pose proof (pres_handle i w Hw) as H.
  destruct (handle i w) as [r w']. cbn [snd] in *.
  apply pres_flush, H.
Qed.

(** Hence it holds in every reachable world once it holds at
    construction. *)
Lemma invariant_reachable (config : ICallConfig) :
  I (new_World config) -> forall w, reachable config w -> I w.
Proof.
  intros H0 w Hr. induction Hr as [| w i Hr IH]; [exact H0 |].
  apply pres_step_of_machine, IH.
Qed.

End Invariant.

(** ** Invariants of the object and the timers *)

Lemma everywhere_emit (J : CallApi -> list Timer -> Prop) (o : Obs) :
  preserves (everywhere J) (emit o).
Proof.
  intros [a r l] [H1 H2]. unfold emit. cbn [snd api rt log].
  split; [exact H1 |]. apply Forall_app. split; [exact H2 |].
  constructor; [exact H1 | constructor].
Qed.

Lemma everywhere_update (J : CallApi -> list Timer -> Prop)
  (f : CallApi -> CallApi) :
  (forall a ts, J a ts -> J (f a) ts) -> preserves (everywhere J) (update f).
Proof.
  intros Hf [a r l] [H1 H2]. unfold update. cbn [snd api rt log].
  split; [apply Hf, H1 | exact H2].
Qed.

Lemma everywhere_update_rt (J : CallApi -> list Timer -> Prop)
  (f : Runtime -> Runtime) :
  quiet_rt f -> preserves (everywhere J) (update_rt f).
Proof.
  intros Hf [a r l] [H1 H2]. unfold update_rt, everywhere in *.
  cbn [snd api rt log] in *. rewrite Hf. split; assumption.
Qed.

(** Methods built from the primitives preserve [everywhere J] as soon as
    the updates they make do; [upd] proves that. *)
Ltac pres_everywhere upd :=
  repeat first
    [ pres_step
    | apply everywhere_emit
    | apply everywhere_update_rt; intro; reflexivity
    | apply everywhere_update; upd ].

Lemma filter_length_le {A : Type} (f : A -> bool) (l : list A) :
  (List.length (filter f l) <= List.length l)%nat.
Proof.
  induction l as [| h t IH]; cbn [filter List.length]; [lia |].
  destruct (f h); cbn [List.length]; lia.
Qed.

(** *** At most one pending timer *)

Lemma timer_ok_same_handle (a a' : CallApi) (ts : list Timer) :
  _cancelCallTimer a' = _cancelCallTimer a -> timer_ok a ts -> timer_ok a' ts.
Proof.
  intros E [H1 H2]. split; [exact H1 |]. intros t Ht. rewrite E. auto.
Qed.

Ltac timer_upd :=
  intros ? ? ?; eapply timer_ok_same_handle; [| eassumption]; reflexivity.

Lemma timer_ok_nil (a : CallApi) : timer_ok a [].
Proof. split; [cbn; lia | intros t []]. Qed.

(** Clearing the handle the object holds leaves no timer pending. *)
Lemma timer_ok_cleared (a : CallApi) (ts : list Timer) :
  timer_ok a ts ->
  filter (fun t => match _cancelCallTimer a with
                   | Some id => negb (Nat.eqb (timer_id t) id)
                   | None => true
                   end) ts = [].
Proof.
  intros [_ H]. destruct (_cancelCallTimer a) as [id |].
  - induction ts as [| t ts IH]; [reflexivity |].
    cbn [filter].
    assert (E : timer_id t = id).
    { specialize (H t (or_introl eq_refl)). congruence. }
    rewrite E, Nat.eqb_refl. cbn [negb]. apply IH.
    intros t' Ht'. apply H. right. exact Ht'.
  - destruct ts as [| t ts]; [reflexivity |].
    specialize (H t (or_introl eq_refl)). discriminate.
Qed.

Lemma timer_ok_reset_rt (a : CallApi) (r : Runtime) :
  timer_ok a (timers r) -> timers (reset_rt a r) = [].
Proof.
  intros H. pose proof (timer_ok_cleared a (timers r) H) as E.
  unfold reset_rt. destruct (_cancelCallTimer a); cbn [timers].
  - exact E.
  - rewrite filter_all_true in E. exact E.
Qed.

Lemma timer_clearTimeout (id : nat) :
  preserves (everywhere timer_ok) (clearTimeout id).
Proof.
  intros [a r l] [[H1 H2] H3]. unfold clearTimeout, update_rt.
  cbn [snd api rt log timers]. split; [| exact H3]. split.
  - eapply Nat.le_trans; [apply filter_length_le | exact H1].
  - intros t Ht. apply filter_In in Ht. apply H2, Ht.
Qed.

Lemma timer_callStateChange s r er ei :
  preserves (everywhere timer_ok) (_callStateChange s r er ei).
Proof. unfold _callStateChange. pres_everywhere timer_upd. Qed.

Lemma timer_checkAppendView : preserves (everywhere timer_ok) _checkAppendView.
Proof.
  unfold _checkAppendView, _playLocalVideo, _palyRemoteVideo, _playRemoteAudio.
  repeat first [apply timer_callStateChange | pres_everywhere timer_upd].
Qed.

Lemma timer_resetData : preserves (everywhere timer_ok) _resetData.
Proof.
  intros w [H1 H2].
  destruct (resetData_effect w) as (clears & E & _ & Hsn).
  rewrite E. cbn [snd]. split; cbn [api rt log].
  - rewrite (timer_ok_reset_rt _ _ H1). apply timer_ok_nil.
  - apply Forall_app. split; [exact H2 |].
    eapply Forall_impl; [| exact Hsn].
    intros p (_ & _ & Ht & Hts). rewrite Hts.
    eapply timer_ok_same_handle; [exact Ht | exact H1].
Qed.

Lemma timer_autoCancelCall (b : bool) :
  preserves (everywhere timer_ok) (_autoCancelCall b).
Proof.
  intros w [H1 H2].
  destruct (autoCancelCall_effect b w) as (tm & ts & n & E & Harm & Hnot).
  rewrite E. cbn [snd]. split; cbn [api rt log timers]; [| exact H2].
  destruct (truthy_id (remoteUserId (api w))) eqn:Eid.
  - destruct (callTimeoutMillisecond (prepareConfig (api w))) as [time |] eqn:Et.
    + destruct (time =? 0) eqn:Ez.
      * destruct Hnot as (-> & -> & _).
        { right. cbn [truthy_num]. rewrite Ez. reflexivity. }
        eapply timer_ok_same_handle; [| exact H1]. reflexivity.
      * apply Z.eqb_neq in Ez.
        destruct (Harm time eq_refl eq_refl Ez) as [-> ->].
        rewrite (timer_ok_cleared _ _ H1). cbn [app]. split.
        -- cbn. lia.
        -- intros t [<- | []]. reflexivity.
    + destruct Hnot as (-> & -> & _); [right; reflexivity |].
      eapply timer_ok_same_handle; [| exact H1]. reflexivity.
  - destruct Hnot as (-> & -> & _); [left; reflexivity |].
    eapply timer_ok_same_handle; [| exact H1]. reflexivity.
Qed.

Lemma timer_receiveVideoCall_commit data :
  preserves (everywhere timer_ok) (receiveVideoCall_commit data).
Proof.
  unfold receiveVideoCall_commit.
  repeat first [ apply timer_callStateChange | apply timer_autoCancelCall
               | pres_everywhere timer_upd ].
Qed.

(** In every reachable world, now and at every point of the log, at most
    one timer is pending and the object holds its handle. *)
Lemma timer_invariant (config : ICallConfig) (w : World) :
  reachable config w -> everywhere timer_ok w.
Proof.
  apply invariant_reachable.
  - intros o _. apply everywhere_emit.
  - intros f Hq. apply everywhere_update. intros a ts H.
    eapply timer_ok_same_handle; [| exact H]. apply Hq.
  - intros f Hq. apply everywhere_update_rt, Hq.
  - apply timer_clearTimeout.
  - intros s r er ei _ _. apply timer_callStateChange.
  - apply timer_checkAppendView.
  - apply timer_resetData.
  - apply timer_autoCancelCall.
  - intros uuid w0 [H _]. revert w0 H. apply everywhere_update. timer_upd.
  - apply timer_receiveVideoCall_commit.
  - split; [apply timer_ok_nil | constructor].
Qed.

(** *** An idle object has no call id *)

Lemma callId_ok_same (a a' : CallApi) (ts ts' : list Timer) :
  state a' = state a -> _callMessage a' = _callMessage a ->
  callId_ok a ts -> callId_ok a' ts'.
Proof.
  unfold callId_ok, getCallId. intros -> ->. auto.
Qed.

Ltac callId_upd :=
  intros ? ? ?; eapply callId_ok_same; [| | eassumption]; reflexivity.

Lemma callId_ok_not_idle (a : CallApi) (ts : list Timer) :
  state a <> CallStateType.idle -> callId_ok a ts.
Proof. intros H E. contradiction. Qed.

Lemma callId_callStateChange s r er ei :
  s <> CallStateType.idle ->
  preserves (everywhere callId_ok) (_callStateChange s r er ei).
Proof.
  intros Hs [a rt0 l] [H1 H2]. unfold _callStateChange. prim.
  destruct (CallStateType.eqb (state a) s); prim; [split; assumption |].
  cbn [snd]. split; cbn [api rt log].
  - apply callId_ok_not_idle. exact Hs.
  - apply Forall_app. split; [exact H2 |].
    constructor; [| constructor]. apply callId_ok_not_idle. exact Hs.
Qed.

Lemma callId_checkAppendView : preserves (everywhere callId_ok) _checkAppendView.
Proof.
  unfold _checkAppendView, _playLocalVideo, _palyRemoteVideo, _playRemoteAudio.
  repeat first [ apply callId_callStateChange; discriminate
               | pres_everywhere callId_upd ].
Qed.

Lemma callId_resetData : preserves (everywhere callId_ok) _resetData.
Proof.
  intros w [H1 H2].
  destruct (resetData_effect w) as (clears & E & _ & Hsn).
  rewrite E. cbn [snd]. split; cbn [api rt log].
  - intros _. reflexivity.
  - apply Forall_app. split; [exact H2 |].
    eapply Forall_impl; [| exact Hsn].
    intros p (_ & Hid & _) _. exact Hid.
Qed.

Lemma callId_autoCancelCall (b : bool) :
  preserves (everywhere callId_ok) (_autoCancelCall b).
Proof.
  intros w [H1 H2].
  destruct (autoCancelCall_effect b w) as (tm & ts & n & E & _).
  rewrite E. cbn [snd]. split; cbn [api rt log timers]; [| exact H2].
  eapply callId_ok_same; [| | exact H1]; reflexivity.
Qed.

Lemma callId_receiveVideoCall_commit data :
  preserves (everywhere callId_ok) (receiveVideoCall_commit data).
Proof.
  intros [a r l] [H1 H2]. unfold receiveVideoCall_commit.
  cbv beta iota zeta delta [bind update]. cbn [api rt log].
  match goal with
  | |- context [_autoCancelCall false ?W] =>
      destruct (autoCancelCall_effect false W) as (tm & ts & n & E & _)
  end.
  rewrite E. clear E. cbn [api rt log].
  unfold _callStateChange. prim.
  match goal with
  | |- context [CallStateType.eqb ?x CallStateType.calling] =>
      destruct (CallStateType.eqb x CallStateType.calling) eqn:Es
  end; prim; split; cbn [api rt log].
  - apply callId_ok_not_idle. apply CallStateType_eqb_eq in Es.
    cbn [state set_cancelCallTimer set_prepareConfig set_remoteUserId
         set_callMessage set_callInfo] in *.
    intro Hidle. congruence.
  - exact H2.
  - apply callId_ok_not_idle. discriminate.
  - apply Forall_app. split; [exact H2 |].
    constructor; [| constructor]. apply callId_ok_not_idle. discriminate.
Qed.

(** In every reachable world, now and at every point of the log, an
    object in state [idle] has the empty call id. *)
Lemma callId_invariant (config : ICallConfig) (w : World) :
  reachable config w -> everywhere callId_ok w.
Proof.
  apply invariant_reachable.
  - intros o _. apply everywhere_emit.
  - intros f Hq. apply everywhere_update. intros a ts H.
    destruct (Hq a) as (E1 & E2 & _).
    eapply callId_ok_same; [exact E1 | exact E2 | exact H].
  - intros f Hq. apply everywhere_update_rt, Hq.
  - intros id [a r l] [H1 H2]. split; assumption.
  - intros s r er ei Hs _. apply callId_callStateChange, Hs.
  - apply callId_checkAppendView.
  - apply callId_resetData.
  - apply callId_autoCancelCall.
  - intros uuid [a r l] [[H1 H2] Hs]. unfold update.
    cbn [snd api rt log] in *. split; cbn [api rt log].
    + apply callId_ok_not_idle. cbn [state set_callMessage]. congruence.
    + exact H2.
  - apply callId_receiveVideoCall_commit.
  - split; [intros _; reflexivity | constructor].
Qed.

(** ** Invariant of the transitions to [connected] *)

Lemma count_app (f : Obs -> bool) (l d : list Point) :
  count f (l ++ d) = (count f l + count f d)%nat.
Proof. unfold count. rewrite filter_app, length_app. reflexivity. Qed.

Lemma plain_is_neutral (o : Obs) :
  plain o = true ->
  is_attach LOCAL_VIEW_ELEMENT o = false
  /\ is_attach REMOTE_VIEW_ELEMENT o = false
  /\ is_connected_change o = false
  /\ is_connecting_change o = false
  /\ forall a ts, point_ok (mkPoint a ts o).
Proof.
  destruct o; cbn; intros H; try discriminate; repeat split; exact I.
Qed.

Lemma teardown_is_plain (o : Obs) : is_teardown o = true -> plain o = true.
Proof. destruct o; cbn; intros H; try discriminate; reflexivity. Qed.

Lemma plain_counts (f : Obs -> bool) (d : list Point) :
  (forall o, plain o = true -> f o = false) ->
  Forall (fun p => plain (obs p) = true) d -> count f d = 0%nat.
Proof.
  intros Hf H. induction H as [| p d Hp _ IH]; [reflexivity |].
  unfold count in *. cbn [filter]. rewrite (Hf _ Hp). exact IH.
Qed.

(** Appending plain entries without touching the state keeps
    [connected_ok]. *)
Lemma connected_ok_extend (w w' : World) (d : list Point) :
  connected_ok w -> state (api w') = state (api w) ->
  log w' = log w ++ d -> Forall (fun p => plain (obs p) = true) d ->
  connected_ok w'.
Proof.
  intros (H1 & H2 & H3 & H4 & H5) Hs Hl Hd. unfold connected_ok.
  rewrite Hl, Hs, !count_app.
  rewrite (plain_counts (is_attach LOCAL_VIEW_ELEMENT) d),
    (plain_counts (is_attach REMOTE_VIEW_ELEMENT) d),
    (plain_counts is_connected_change d),
    (plain_counts is_connecting_change d); try assumption;
    try (intros o Ho; apply (plain_is_neutral o Ho)).
  rewrite !Nat.add_0_r. repeat split; try assumption.
  apply Forall_app. split; [exact H1 |].
  eapply Forall_impl; [| exact Hd].
  intros [a ts o] Ho. apply (plain_is_neutral o Ho).
Qed.

Lemma connected_emit (o : Obs) :
  plain o = true -> preserves connected_ok (emit o).
Proof.
  intros Ho [a r l] H. eapply (connected_ok_extend _ _ [_]).
  - exact H.
  - reflexivity.
  - reflexivity.
  - constructor; [exact Ho | constructor].
Qed.

Lemma connected_update (f : CallApi -> CallApi) :
  (forall a, state (f a) = state a) -> preserves connected_ok (update f).
Proof.
  intros Hf [a r l] H. eapply (connected_ok_extend _ _ []).
  - exact H.
  - apply Hf.
  - cbn. rewrite app_nil_r. reflexivity.
  - constructor.
Qed.

Lemma connected_update_rt (f : Runtime -> Runtime) :
  preserves connected_ok (update_rt f).
Proof.
  intros [a r l] H. eapply (connected_ok_extend _ _ []).
  - exact H.
  - reflexivity.
  - cbn. rewrite app_nil_r. reflexivity.
  - constructor.
Qed.

Ltac pres_connected :=
  repeat first
    [ pres_step
    | apply connected_emit; reflexivity
    | apply connected_update_rt
    | apply connected_update; intro; reflexivity ].

Lemma connected_callStateChange s r er ei :
  s <> CallStateType.connected ->
  preserves connected_ok (_callStateChange s r er ei).
Proof.
  intros Hs [a rt0 l] H. unfold _callStateChange. prim.
  destruct (CallStateType.eqb (state a) s) eqn:E; prim; [exact H |].
  destruct H as (H1 & H2 & H3 & H4 & H5). unfold connected_ok.
  cbn [api rt log] in H1, H2, H3, H4, H5.
  cbn [snd api rt log state set_state]. rewrite !count_app.
  assert (Hc : count is_connected_change
                 [mkPoint (set_state s a) (timers rt0)
                    (callStateChanged s r er ei)] = 0%nat).
  { destruct s; try reflexivity. contradiction. }
  assert (Ha : forall c,
             count (is_attach c)
               [mkPoint (set_state s a) (timers rt0)
                  (callStateChanged s r er ei)] = 0%nat).
  { intros c. reflexivity. }
  rewrite Hc, !Ha, !Nat.add_0_r.
  split; [| split; [exact H2 | split; [exact H3 | split]]].
  - apply Forall_app. split; [exact H1 |]. constructor; [| constructor].
    unfold point_ok. cbn [obs]. destruct s; try exact I. contradiction.
  - lia.
  - intros ->. cbn. lia.
Qed.

Lemma connected_checkAppendView : preserves connected_ok _checkAppendView.
Proof.
  intros [a r l] H.
  unfold _checkAppendView, _callStateChange, _playLocalVideo, _palyRemoteVideo,
    _playRemoteAudio.
  prim.
  destruct (CallStateType.eqb (state a) CallStateType.connecting) eqn:Es; prim;
    [| exact H].
  apply CallStateType_eqb_eq in Es.
  destruct (truthy_bool (firstFrameWaittingDisabled (prepareConfig a))
            || _receiveRemoteFirstFrameDecoded a) eqn:Ef; prim; [| exact H].
  rewrite Es. cbn [CallStateType.eqb]. prim.
  destruct H as (H1 & H2 & H3 & H4 & H5).
  cbn [api rt log] in H1, H2, H3, H4, H5. specialize (H5 Es).
  assert (Hpt : point_ok
                  (mkPoint (set_state CallStateType.connected a) (timers r)
                     (callStateChanged CallStateType.connected
                        CallStateReason.recvRemoteFirstFrame None info_undefined))).
  { unfold point_ok, frame_ready. cbn. rewrite Ef. repeat split. }
  destruct (localView (prepareConfig a)); prim;
    [ destruct (local_videoTrack (localTracks a)) as [[? []] |]; prim;
      (destruct (remoteView (prepareConfig a)); prim;
       [ destruct (remote_videoTrack (remoteTracks a)) as [[? []] |]; prim;
         destruct (remote_audioTrack (remoteTracks a)) as [[? []] |]; prim
       | ])
    | ].
  all: unfold connected_ok; cbn [snd api rt log state set_state
                                   set_localTracks set_remoteTracks];
    rewrite ?count_app; cbn [count filter obs is_attach is_connected_change
                               is_connecting_change List.length];
    rewrite ?Forall_app;
    repeat split;
    try exact H1; try lia; try discriminate;
    repeat first [ exact Hpt | apply Forall_cons | apply Forall_nil
                 | exact I | reflexivity ].
Qed.

Lemma connected_resetData : preserves connected_ok _resetData.
Proof.
  intros w H. destruct (resetData_effect w) as (clears & E & Hcl & _).
  rewrite E. cbn [snd]. eapply (connected_ok_extend _ _ clears).
  - exact H.
  - reflexivity.
  - reflexivity.
  - eapply Forall_impl; [| exact Hcl]. intros p. apply teardown_is_plain.
Qed.

Lemma connected_autoCancelCall (b : bool) :
  preserves connected_ok (_autoCancelCall b).
Proof.
  intros w H. destruct (autoCancelCall_effect b w) as (tm & ts & n & E & _).
  rewrite E. cbn [snd]. eapply (connected_ok_extend _ _ []).
  - exact H.
  - reflexivity.
  - cbn. rewrite app_nil_r. reflexivity.
  - constructor.
Qed.

Lemma connected_receiveVideoCall_commit data :
  preserves connected_ok (receiveVideoCall_commit data).
Proof.
  unfold receiveVideoCall_commit.
  repeat first [ apply connected_callStateChange; discriminate
               | apply connected_autoCancelCall
               | pres_connected ].
Qed.

(** In every reachable world: a transition to [connected] in the log has
    the reason [recvRemoteFirstFrame] and was made with the frame
    condition satisfied; a view was attached in state [connected] only;
    there are at most as many attachments of each view as transitions to
    [connected], and at most as many of these as transitions to
    [connecting]. *)
Lemma connected_invariant (config : ICallConfig) (w : World) :
  reachable config w -> connected_ok w.
Proof.
  apply invariant_reachable.
  - intros o Ho. apply connected_emit, Ho.
  - intros f Hq. apply connected_update. intros a. apply Hq.
  - intros f _. apply connected_update_rt.
  - intros id. apply connected_update_rt.
  - intros s r er ei _ Hs. apply connected_callStateChange, Hs.
  - apply connected_checkAppendView.
  - apply connected_resetData.
  - apply connected_autoCancelCall.
  - intros uuid w0 [H _]. revert w0 H. apply connected_update.
    intro. reflexivity.
  - apply connected_receiveVideoCall_commit.
  - unfold connected_ok. cbn. repeat split; try lia; try constructor.
    discriminate.
Qed.

(** ** The claims on the observable points *)

Lemma reachable_run (config : ICallConfig) (inputs : list Input) :
  forall w, reachable config w -> reachable config (run w inputs).
Proof.
  induction inputs as [| i inputs IH]; intros w Hw; [exact Hw |].
  cbn [run fold_left]. apply IH. apply reachable_step, Hw.
Qed.

Lemma reachable_from_new (config : ICallConfig) (inputs : list Input) :
  reachable config (run (new_World config) inputs).
Proof. apply reachable_run, reachable_new. Qed.

Lemma run_app (w : World) (xs ys : list Input) :
  run (run w xs) ys = run w (xs ++ ys).
Proof. unfold run. rewrite fold_left_app. reflexivity. Qed.

(** The scenarios are reachable: they are runs from construction. *)
Ltac reachable_scenario :=
  repeat first [ apply reachable_run | apply reachable_new ].

Lemma reachable_w_prepared : reachable alice w_prepared.
Proof. unfold w_prepared. reachable_scenario. Qed.

Lemma reachable_w_calling : reachable alice w_calling.
Proof. unfold w_calling. apply reachable_run, reachable_w_prepared. Qed.

Lemma reachable_w_connected : reachable alice w_connected.
Proof. unfold w_connected. apply reachable_run, reachable_w_calling. Qed.

Lemma reachable_w_accepted_twice : reachable alice w_accepted_twice.
Proof. unfold w_accepted_twice. apply reachable_run, reachable_w_connected. Qed.

Lemma reachable_w_cancelling : reachable alice w_cancelling.
Proof.
  unfold w_cancelling, w_joined.
  apply reachable_run, reachable_run, reachable_w_calling.
Qed.

(** An invariant of the [everywhere] kind holds at every observable
    point. *)
Lemma everywhere_observable (J : CallApi -> list Timer -> Prop) (w : World)
  (a : CallApi) (ts : list Timer) :
  everywhere J w -> observable w a ts -> J a ts.
Proof.
  intros [H1 H2] [[-> ->] | (p & Hp & <- & <-)]; [exact H1 |].
  rewrite Forall_forall in H2. apply H2, Hp.
Qed.

(** C6 (as stated, refuted): the timer armed by [call] is still pending
    in state [connected]; and when [call] emits the state [calling], no
    timer is pending yet. *)
Lemma timer_armed_in_connected_and_not_yet_at_calling :
  reachable alice w_connected
  /\ state (api w_connected) = CallStateType.connected
  /\ timers (rt w_connected) = [mkTimer 0 1000 true]
  /\ exists p,
       In p (log w_connected)
       /\ obs p = callStateChanged CallStateType.calling
                    CallStateReason.localVideoCall (Some "") (info_call 2 1)
       /\ state (at_api p) = CallStateType.calling
       /\ at_timers p = [].
Proof.
  split; [exact reachable_w_connected |].
  split; [vm_compute; reflexivity |]. split; [vm_compute; reflexivity |].
  exists (nth 1 (log w_connected)
            (mkPoint (api w_connected) [] rtc_leave)).
  split; [vm_compute; tauto |]. by_computation.
Qed.

(** C6 (amended): at every observable point of every run at most one
    timer is pending, and it is the one whose handle the object holds;
    hence [_autoCancelCall], when it arms (both [remoteUserId] and
    [callTimeoutMillisecond] non-zero), leaves its new timer as the only
    pending one, the prior one being cancelled; [_resetData] leaves no
    timer pending and no handle; a timer that fires outside [calling] and
    [connecting] (it stays armed in [connected]) has no effect. *)
Theorem timer_single_rearmed_and_disarmed_on_reset :
  (forall config w a ts,
     reachable config w -> observable w a ts -> timer_ok a ts)
  /\ (forall config w isLocal time,
        reachable config w ->
        truthy_id (remoteUserId (api w)) = true ->
        callTimeoutMillisecond (prepareConfig (api w)) = Some time ->
        time <> 0 ->
        timers (rt (snd (_autoCancelCall isLocal w)))
        = [mkTimer (nextTimer (rt w)) time isLocal]
        /\ _cancelCallTimer (api (snd (_autoCancelCall isLocal w)))
           = Some (nextTimer (rt w)))
  /\ (forall config w,
        reachable config w ->
        timers (rt (snd (_resetData w))) = []
        /\ _cancelCallTimer (api (snd (_resetData w))) = None)
  /\ (forall w isLocal,
        state (api w) <> CallStateType.calling ->
        state (api w) <> CallStateType.connecting ->
        _autoCancelCall_timeout isLocal w = (Ok tt, w)).
Proof.
  split; [| split; [| split]].
  - intros config w a ts Hr Ho.
    eapply everywhere_observable; [| exact Ho].
    eapply timer_invariant, Hr.
  - intros config w isLocal time Hr Hid Ht Hnz.
    destruct (timer_invariant config w Hr) as [Hok _].
    destruct (autoCancelCall_effect isLocal w) as (tm & ts & n & E & Harm & _).
    rewrite E. cbn [snd api rt timers _cancelCallTimer set_cancelCallTimer].
    destruct (Harm time Hid Ht Hnz) as [-> ->].
    rewrite (timer_ok_cleared _ _ Hok). split; reflexivity.
  - intros config w Hr.
    destruct (timer_invariant config w Hr) as [Hok _].
    destruct (resetData_effect w) as (clears & E & _).
    rewrite E. cbn [snd api rt]. split.
    + apply timer_ok_reset_rt, Hok.
    + reflexivity.
  - intros [a r l] isLocal H1 H2. cbn [api] in H1, H2.
    unfold _autoCancelCall_timeout. prim.
    apply CallStateType_eqb_neq in H1, H2. rewrite H1, H2. reflexivity.
Qed.

Lemma timer_single_rearmed_and_disarmed_on_reset_witness :
  reachable alice w_connected
  /\ timer_ok (api w_connected) (timers (rt w_connected))
  /\ timers (rt (snd (_autoCancelCall false w_connected)))
     = [mkTimer 1 1000 false]
  /\ timers (rt (snd (_resetData w_connected))) = [].
Proof.
  pose proof reachable_w_connected as Hr.
  split; [exact Hr |].
  destruct timer_single_rearmed_and_disarmed_on_reset as (H1 & H2 & H3 & _).
  split.
  { apply (H1 alice w_connected); [exact Hr |]. left. split; reflexivity. }
  split.
  { apply (H2 alice w_connected false 1000 Hr eq_refl eq_refl). discriminate. }
  apply (H3 alice w_connected Hr).
Defined.

(** [call] in state [prepared], as far as the object is concerned. *)
Lemma call_prepared_api (w : World) (rid : UserId) (ct : option CallType.t)
  (uuid : string) :
  state (api w) = CallStateType.prepared ->
  fst (call rid ct uuid w) = Ok tt
  /\ state (api (snd (call rid ct uuid w))) = CallStateType.calling
  /\ getCallId (api (snd (call rid ct uuid w))) = uuid.
Proof.
  destruct w as [a r l]. cbn [api]. intros Hs.
  unfold call, _callStateChange, _callEventChange. prim.
  rewrite Hs. cbn [CallStateType.eqb negb]. prim.
  rewrite Hs. cbn [CallStateType.eqb]. prim.
  match goal with
  | |- context [_autoCancelCall true ?W] =>
      destruct (autoCancelCall_effect true W) as (tm & ts & n & Hac & _)
  end.
  rewrite Hac. clear Hac.
  match goal with
  | |- context [_rtcJoinAndPublish after_join_nothing ?W] =>
      destruct (rtcJoinAndPublish_begins after_join_nothing W)
        as (r' & media & joining & Hjp & _)
  end.
  rewrite Hjp. clear Hjp. rewrite publishMessage_effect.
  cbn [fst snd api rt log]. repeat split.
Qed.

(** An inbound [VideoCall] that passes the gate, as far as the object is
    concerned. *)
Lemma receiveVideoCall_committed_api (w : World) (data : ICallMessage.t) :
  _isCallingUser (api w) (ICallMessage.fromUserId data) = true ->
  state (api (snd (_receiveVideoCall data w))) = CallStateType.calling
  /\ getCallId (api (snd (_receiveVideoCall data w))) = ICallMessage.callId data.
Proof.
  intros Hgate. rewrite <- receiveVideoCall_split.
  destruct w as [a r l]. cbn [api] in Hgate.
  unfold receiveVideoCall_commit.
  cbv beta iota zeta delta [bind this update]. cbn [api rt log].
  rewrite Hgate. cbn [negb].
  match goal with
  | |- context [_autoCancelCall false ?W] =>
      destruct (autoCancelCall_effect false W) as (tm & ts & n & Hac & _)
  end.
  rewrite Hac. clear Hac. cbn [api rt log].
  match goal with
  | |- context [_callStateChange ?s ?r0 ?er ?ei ?W] =>
      pose proof (callStateChange_state s r0 er ei W) as Hst;
      assert (Hid : getCallId (api (snd (_callStateChange s r0 er ei W)))
                    = ICallMessage.callId data)
        by (unfold _callStateChange; prim;
            match goal with
            | |- context [CallStateType.eqb ?x ?y] =>
                destruct (CallStateType.eqb x y)
            end; reflexivity);
      destruct (_callStateChange s r0 er ei W) as [[[] | e] w1]
  end; cbn [snd] in *.
  - unfold _callEventChange.
    cbv beta iota zeta delta [bind emit]. cbn [api rt log].
    match goal with
    | |- context [_rtcJoinAndPublish after_join_receiveVideoCall ?W] =>
        destruct (rtcJoinAndPublish_begins after_join_receiveVideoCall W)
          as (r' & media & joining & Hjp & _)
    end.
    rewrite Hjp. cbn [snd api]. split; assumption.
  - split; assumption.
Qed.

(** C2 (as stated, refuted): [call] emits the state [calling] while the
    call id is still empty; and after [cancelCall] on a joined channel the
    state is [prepared] while the call id is still set ([destory] is
    suspended on [leave]). *)
Lemma callId_does_not_track_the_state :
  reachable alice w_cancelling
  /\ (exists p,
        In p (log w_cancelling)
        /\ obs p = callStateChanged CallStateType.calling
                     CallStateReason.localVideoCall (Some "") (info_call 2 1)
        /\ state (at_api p) = CallStateType.calling
        /\ getCallId (at_api p) = "")
  /\ state (api w_cancelling) = CallStateType.prepared
  /\ getCallId (api w_cancelling) = the_uuid
  /\ awaits (rt w_cancelling)
     = [await_createTracks 0; await_sendMessage after_send_call;
        await_sendMessage after_send_nothing;
        await_leave after_destory_nothing].
Proof.
  split; [exact reachable_w_cancelling |]. split.
  { exists (nth 1 (log w_cancelling)
              (mkPoint (api w_cancelling) [] rtc_leave)).
    split; [vm_compute; tauto |]. by_computation. }
  by_computation.
Qed.

(** C2 (amended): at every observable point of every run, [getCallId()]
    is empty when the state is [idle]; it is empty after every
    [_resetData]; [call] in [prepared] leaves, at its first suspension
    point, the state [calling] and the fresh id as call id, and so does an
    inbound [VideoCall] that passes [_isCallingUser], with the inviter's
    call id. *)
Theorem callId_empty_when_idle_set_by_call_cleared_by_reset :
  (forall config w a ts,
     reachable config w -> observable w a ts ->
     state a = CallStateType.idle -> getCallId a = "")
  /\ (forall w, getCallId (api (snd (_resetData w))) = "")
  /\ (forall w rid ct uuid,
        state (api w) = CallStateType.prepared ->
        fst (call rid ct uuid w) = Ok tt
        /\ state (api (snd (call rid ct uuid w))) = CallStateType.calling
        /\ getCallId (api (snd (call rid ct uuid w))) = uuid)
  /\ (forall w data,
        ICallMessage.message_action data = CallAction.VideoCall ->
        _isCallingUser (api w) (ICallMessage.fromUserId data) = true ->
        state (api (snd (messageReceive data w))) = CallStateType.calling
        /\ getCallId (api (snd (messageReceive data w)))
           = ICallMessage.callId data).
Proof.
  split; [| split; [| split]].
  - intros config w a ts Hr Ho.
    apply (everywhere_observable callId_ok w a ts); [| exact Ho].
    eapply callId_invariant, Hr.
  - intros w. destruct (resetData_effect w) as (clears & E & _).
    rewrite E. reflexivity.
  - intros w rid ct uuid Hs. apply call_prepared_api, Hs.
  - intros w data Hact Hgate. unfold messageReceive. rewrite Hact.
    apply receiveVideoCall_committed_api, Hgate.
Qed.

Lemma callId_empty_when_idle_witness :
  reachable alice w_cancelling
  /\ state (api w_prepared) = CallStateType.prepared
  /\ getCallId (api (snd (call 2 None the_uuid w_prepared))) = the_uuid
  /\ getCallId (api (snd (_resetData w_cancelling))) = "".
Proof.
  split; [exact reachable_w_cancelling |].
  split; [vm_compute; reflexivity |].
  destruct callId_empty_when_idle_set_by_call_cleared_by_reset
    as (_ & H2 & H3 & _).
  split.
  - apply (H3 w_prepared 2 None the_uuid eq_refl).
  - apply H2.
Defined.

(** ** The view-attach rendezvous *)

Lemma checkAppendView_noop (w : World) :
  state (api w) <> CallStateType.connecting \/ frame_ready (api w) = false ->
  _checkAppendView w = (Ok tt, w).
Proof.
  destruct w as [a r l]. cbn [api]. unfold frame_ready.
  intros H. unfold _checkAppendView. prim.
  destruct (CallStateType.eqb (state a) CallStateType.connecting) eqn:Es;
    cbn [negb]; [| reflexivity].
  destruct H as [H | H].
  - apply CallStateType_eqb_eq in Es. contradiction.
  - rewrite H. reflexivity.
Qed.

Lemma checkAppendView_proceeds (w : World) :
  state (api w) = CallStateType.connecting ->
  frame_ready (api w) = true ->
  exists (res : Result unit) (w' : World) (rest : list Point),
    _checkAppendView w = (res, w')
    /\ state (api w') = CallStateType.connected
    /\ log w' =
       log w ++
       point (set_state CallStateType.connected (api w)) (rt w)
         (callStateChanged CallStateType.connected
            CallStateReason.recvRemoteFirstFrame None info_undefined) :: rest
    /\ Forall (fun p => is_callStateChanged (obs p) = false
                        /\ state (at_api p) = CallStateType.connected) rest.
Proof.
  destruct w as [a r l]. cbn [api rt log]. unfold frame_ready.
  intros Hs Hf.
  unfold _checkAppendView, _callStateChange, _playLocalVideo, _palyRemoteVideo,
    _playRemoteAudio.
  prim. rewrite Hs, Hf. cbn [CallStateType.eqb negb]. prim.
  rewrite Hs. cbn [CallStateType.eqb]. prim.
  destruct (localView (prepareConfig a)); prim;
    [ destruct (local_videoTrack (localTracks a)) as [[? []] |]; prim;
      (destruct (remoteView (prepareConfig a)); prim;
       [ destruct (remote_videoTrack (remoteTracks a)) as [[? []] |]; prim;
         destruct (remote_audioTrack (remoteTracks a)) as [[? []] |]; prim
       | ])
    | ].
  all: eexists; eexists; eexists; split; [reflexivity |].
  all: split; [reflexivity |].
  all: cbn [log]; split;
    [ unfold point;
      first [ rewrite <- !app_assoc; reflexivity
            | reflexivity ] |].
  all: cbn [app];
    repeat first [apply Forall_nil | apply Forall_cons];
    split; reflexivity.
Qed.

(** [_handleRemoteFirstFrameDecoded] records the frame and runs
    [_checkAppendView]. *)
Lemma handleRemoteFirstFrameDecoded_unfold (w : World) :
  let a1 := set_receiveRemoteFirstFrameDecoded true (api w) in
  let a2 :=
    set_callInfo (CallInfo.add CallInfo.recvFirstFrame (_callInfo a1)) a1 in
  _handleRemoteFirstFrameDecoded w =
  _checkAppendView
    (mkWorld a2 (rt w)
       (log w ++
        [point (api w) (rt w) (callEventChanged CallEvent.recvRemoteFirstFrame);
         point a2 (rt w) (callInfoChanged (CallInfo.getInfo (_callInfo a2)))])).
Proof.
  destruct w as [a r l]. cbv zeta.
  unfold _handleRemoteFirstFrameDecoded, _callEventChange. prim.
  unfold point. rewrite <- !app_assoc. reflexivity.
Qed.

(** [accept] in state [calling]: everything before [_checkAppendView]. *)
Lemma accept_calling_unfold (w : World) (uid : UserId) :
  state (api w) = CallStateType.calling ->
  let a1 :=
    set_state CallStateType.connecting
      (set_callInfo (CallInfo.add CallInfo.acceptCall (_callInfo (api w)))
         (api w)) in
  accept uid w =
  _checkAppendView
    (mkWorld a1 (suspend (await_sendMessage after_send_nothing) (rt w))
       (log w ++
        [point (api w) (rt w) (callEventChanged CallEvent.localAccepted);
         point a1 (rt w)
           (callStateChanged CallStateType.connecting
              CallStateReason.localAccepted None info_undefined);
         point a1 (rt w)
           (sendMessage uid
              (ICallMessage.mk (getCallId (api w))
                 (userId (callConfig (api w))) uid None CallAction.Accept
                 None None None))])).
Proof.
  destruct w as [a r l]. cbn [api rt log]. intros Hs. cbv zeta.
  unfold accept. prim. rewrite Hs. cbn [CallStateType.eqb negb].
  unfold _callEventChange, _callStateChange, _publishMessage. prim.
  rewrite Hs. cbn [CallStateType.eqb]. prim.
  unfold suspend, point. rewrite <- !app_assoc. reflexivity.
Qed.

(** [_receiveAccept]: everything before [_checkAppendView], when the
    state was not [connecting] already. *)
Lemma receiveAccept_unfold (w : World) (data : ICallMessage.t) :
  state (api w) <> CallStateType.connecting ->
  let a1 :=
    set_callInfo (CallInfo.add CallInfo.acceptCall (_callInfo (api w))) (api w) in
  let a2 := set_state CallStateType.connecting a1 in
  _receiveAccept data w =
  _checkAppendView
    (mkWorld a2 (rt w)
       (log w ++
        [point a1 (rt w) (callEventChanged CallEvent.remoteAccepted);
         point a2 (rt w)
           (callStateChanged CallStateType.connecting
              CallStateReason.remoteAccepted None info_undefined)])).
Proof.
  destruct w as [a r l]. cbn [api rt log]. intros Hs. cbv zeta.
  apply CallStateType_eqb_neq in Hs.
  unfold _receiveAccept, _callEventChange, _callStateChange. prim.
  rewrite Hs. prim. unfold point. rewrite <- !app_assoc. reflexivity.
Qed.

Lemma count_no_state_change (rest : list Point) (P : Point -> Prop) :
  Forall (fun p => is_callStateChanged (obs p) = false /\ P p) rest ->
  count is_connected_change rest = 0%nat.
Proof.
  intros H. induction H as [| p rest [Hp _] _ IH]; [reflexivity |].
  unfold count in *. cbn [filter].
  destruct (obs p); cbn in Hp |- *; try discriminate; exact IH.
Qed.

(** The number of transitions to [connected] that [_checkAppendView]
    adds to the log: one if it proceeds, none otherwise. *)
Lemma checkAppendView_count (w : World) :
  count is_connected_change (log (snd (_checkAppendView w))) =
  (count is_connected_change (log w)
   + if CallStateType.eqb (state (api w)) CallStateType.connecting
        && frame_ready (api w)
     then 1 else 0)%nat.
Proof.
  destruct (CallStateType.eqb (state (api w)) CallStateType.connecting) eqn:Es.
  - destruct (frame_ready (api w)) eqn:Ef; cbn [andb].
    + apply CallStateType_eqb_eq in Es.
      destruct (checkAppendView_proceeds w Es Ef)
        as (res & w' & rest & E & _ & Hl & Hrest).
      rewrite E. cbn [snd]. rewrite Hl.
      change (?x :: rest) with ([x] ++ rest).
      rewrite !count_app, (count_no_state_change rest _ Hrest).
      cbn. lia.
    + rewrite checkAppendView_noop by (right; exact Ef). cbn [snd]. lia.
  - apply CallStateType_eqb_neq in Es. cbn [andb].
    rewrite checkAppendView_noop by (left; exact Es). cbn [snd]. lia.
Qed.

Lemma checkAppendView_state_after (w : World) :
  state (api (snd (_checkAppendView w))) =
  if CallStateType.eqb (state (api w)) CallStateType.connecting
     && frame_ready (api w)
  then CallStateType.connected else state (api w).
Proof.
  destruct (CallStateType.eqb (state (api w)) CallStateType.connecting) eqn:Es.
  - destruct (frame_ready (api w)) eqn:Ef; cbn [andb].
    + apply CallStateType_eqb_eq in Es.
      destruct (checkAppendView_proceeds w Es Ef)
        as (res & w' & rest & E & Hst & _).
      rewrite E. exact Hst.
    + rewrite checkAppendView_noop by (right; exact Ef). reflexivity.
  - apply CallStateType_eqb_neq in Es. cbn [andb].
    rewrite checkAppendView_noop by (left; exact Es). reflexivity.
Qed.

(** C1 (as stated, refuted): [_receiveAccept] has no gate, so an [Accept]
    that arrives again while the call is [connected] re-enters
    [connecting]; [_checkAppendView] then performs the transition to
    [connected] a second time and attaches both views a second time,
    within the same call (same call id, no teardown in between). *)
Lemma second_accept_connects_and_attaches_again :
  reachable alice w_accepted_twice
  /\ state (api w_connected) = CallStateType.connected
  /\ getCallId (api w_connected) = the_uuid
  /\ getCallId (api w_accepted_twice) = the_uuid
  /\ count is_teardown (log w_accepted_twice) = 0%nat
  /\ count is_connected_change (log w_connected) = 1%nat
  /\ count is_connected_change (log w_accepted_twice) = 2%nat
  /\ count (is_attach LOCAL_VIEW_ELEMENT) (log w_accepted_twice) = 2%nat
  /\ count (is_attach REMOTE_VIEW_ELEMENT) (log w_accepted_twice) = 2%nat.
Proof.
  split; [exact reachable_w_accepted_twice |].
  by_computation.
Qed.

(** C1 (amended): [_checkAppendView] is a no-op unless the state is
    [connecting], and unless [firstFrameWaittingDisabled] is true or the
    remote first frame has been decoded; when it proceeds it first emits
    the transition to [connected] with reason [recvRemoteFirstFrame] and
    whatever it does afterwards is done in state [connected] without a
    further state change.  In every run, every transition to [connected]
    and every view attachment in the log is of that kind, and each view is
    attached at most once per transition to [connected], of which there is
    at most one per entry into [connecting].  Of the invocation on the
    accept path and the one of the first-frame callback exactly one
    performs the transition, in either order. *)
Theorem checkAppendView_alone_connects_once_per_connecting :
  (forall w,
     state (api w) <> CallStateType.connecting \/ frame_ready (api w) = false ->
     _checkAppendView w = (Ok tt, w))
  /\ (forall w,
        state (api w) = CallStateType.connecting ->
        frame_ready (api w) = true ->
        exists res w' rest,
          _checkAppendView w = (res, w')
          /\ state (api w') = CallStateType.connected
          /\ log w' =
             log w ++
             point (set_state CallStateType.connected (api w)) (rt w)
               (callStateChanged CallStateType.connected
                  CallStateReason.recvRemoteFirstFrame None info_undefined)
             :: rest
          /\ Forall (fun p => is_callStateChanged (obs p) = false
                              /\ state (at_api p) = CallStateType.connected)
               rest)
  /\ (forall config w, reachable config w -> connected_ok w)
  /\ (forall w,
        state (api w) = CallStateType.connecting ->
        count is_connected_change
          (log (snd (_handleRemoteFirstFrameDecoded (snd (_checkAppendView w)))))
        = S (count is_connected_change (log w)))
  /\ (forall w uid,
        state (api w) = CallStateType.calling ->
        count is_connected_change
          (log (snd (accept uid (snd (_handleRemoteFirstFrameDecoded w)))))
        = S (count is_connected_change (log w)))
  /\ (forall w data,
        state (api w) = CallStateType.calling ->
        count is_connected_change
          (log (snd (_receiveAccept data
                       (snd (_handleRemoteFirstFrameDecoded w)))))
        = S (count is_connected_change (log w))).
Proof.
  split; [exact checkAppendView_noop |].
  split; [exact checkAppendView_proceeds |].
  split; [exact connected_invariant |].
  split; [| split].
  - intros w Hs.
    rewrite handleRemoteFirstFrameDecoded_unfold. cbv zeta.
    rewrite checkAppendView_count. cbn [api log].
    rewrite count_app. cbn [set_callInfo set_receiveRemoteFirstFrameDecoded state].
    rewrite checkAppendView_state_after, checkAppendView_count, Hs.
    cbn [CallStateType.eqb andb]. unfold frame_ready.
    cbn [set_callInfo set_receiveRemoteFirstFrameDecoded prepareConfig
         _receiveRemoteFirstFrameDecoded].
    destruct (truthy_bool (firstFrameWaittingDisabled
                             (prepareConfig (api (snd (_checkAppendView w))))));
      destruct (truthy_bool (firstFrameWaittingDisabled (prepareConfig (api w))));
      destruct (_receiveRemoteFirstFrameDecoded (api w));
      cbn; lia.
  - intros w uid Hs.
    assert (E : snd (_handleRemoteFirstFrameDecoded w) =
                mkWorld
                  (set_callInfo
                     (CallInfo.add CallInfo.recvFirstFrame
                        (_callInfo (set_receiveRemoteFirstFrameDecoded true (api w))))
                     (set_receiveRemoteFirstFrameDecoded true (api w)))
                  (rt w)
                  (log w ++
                   [point (api w) (rt w)
                      (callEventChanged CallEvent.recvRemoteFirstFrame);
                    point
                      (set_callInfo
                         (CallInfo.add CallInfo.recvFirstFrame
                            (_callInfo
                               (set_receiveRemoteFirstFrameDecoded true (api w))))
                         (set_receiveRemoteFirstFrameDecoded true (api w)))
                      (rt w)
                      (callInfoChanged
                         (CallInfo.getInfo
                            (CallInfo.add CallInfo.recvFirstFrame
                               (_callInfo
                                  (set_receiveRemoteFirstFrameDecoded true
                                     (api w))))))])).
    { rewrite handleRemoteFirstFrameDecoded_unfold. cbv zeta.
      rewrite checkAppendView_noop; [reflexivity |].
      left. cbn [api set_callInfo set_receiveRemoteFirstFrameDecoded state].
      rewrite Hs. discriminate. }
    rewrite E. clear E.
    rewrite accept_calling_unfold by exact Hs. cbv zeta.
    rewrite checkAppendView_count. cbn [api log].
    rewrite !count_app. unfold frame_ready.
    cbn [set_state set_callInfo set_receiveRemoteFirstFrameDecoded state
         prepareConfig _receiveRemoteFirstFrameDecoded CallStateType.eqb].
    rewrite orb_true_r. cbn. lia.
  - intros w data Hs.
    rewrite handleRemoteFirstFrameDecoded_unfold. cbv zeta.
    rewrite checkAppendView_noop
      by (left; cbn [api set_callInfo set_receiveRemoteFirstFrameDecoded state];
          rewrite Hs; discriminate).
    cbn [snd].
    rewrite receiveAccept_unfold
      by (cbn [api set_callInfo set_receiveRemoteFirstFrameDecoded state];
          rewrite Hs; discriminate).
    cbv zeta.
    rewrite checkAppendView_count. cbn [api log].
    rewrite !count_app. unfold frame_ready.
    cbn [set_state set_callInfo set_receiveRemoteFirstFrameDecoded state
         prepareConfig _receiveRemoteFirstFrameDecoded CallStateType.eqb].
    rewrite orb_true_r. cbn. lia.
Qed.

Lemma checkAppendView_alone_connects_witness :
  state (api w_called_waiting) = CallStateType.calling
  /\ frame_ready (api w_called_waiting) = false
  /\ _checkAppendView w_called_waiting = (Ok tt, w_called_waiting)
  /\ count is_connected_change
       (log (snd (accept 2 (snd (_handleRemoteFirstFrameDecoded w_called_waiting)))))
     = S (count is_connected_change (log w_called_waiting)).
Proof.
  split; [vm_compute; reflexivity |].
  split; [vm_compute; reflexivity |].
  destruct checkAppendView_alone_connects_once_per_connecting
    as (H1 & _ & _ & _ & H5 & _).
  split.
  - apply H1. right. vm_compute. reflexivity.
  - apply H5. vm_compute. reflexivity.
Defined.

(** * Further properties of the class *)

(** ** [prepareForCall] *)

Lemma isBusy_states (a : CallApi) :
  isBusy a = true <->
  state a = CallStateType.calling \/ state a = CallStateType.connecting
  \/ state a = CallStateType.connected.
Proof.
  unfold isBusy. destruct (state a); cbn; split; intros H;
    try discriminate; try reflexivity; try tauto;
    destruct H as [H | [H | H]]; discriminate.
Qed.

Lemma isBusy_false_states (a : CallApi) :
  isBusy a = false <->
  state a = CallStateType.idle \/ state a = CallStateType.prepared.
Proof.
  unfold isBusy. destruct (state a); cbn; split; intros H;
    try discriminate; try reflexivity; try tauto;
    destruct H as [H | H]; discriminate.
Qed.

Lemma prepareForCall_not_busy (config : Partial_IPrepareConfig) (w : World) :
  isBusy (api w) = false ->
  prepareForCall config w =
  (Ok tt,
   mkWorld (prepared_api config (api w)) (rt w)
     (log w ++
      announce (api w) (prepared_api config (api w)) (rt w)
        CallStateType.prepared CallStateReason.none None info_undefined)).
Proof.
  destruct w as [a r l]. cbn [api rt log]. intros Hb.
  unfold prepareForCall, _callStateChange, announce, prepared_api. prim.
  rewrite Hb. prim.
  destruct (CallStateType.eqb (state a) CallStateType.prepared) eqn:Es; prim.
  - apply CallStateType_eqb_eq in Es. rewrite app_nil_r.
    unfold set_state, set_prepareConfig. cbn. rewrite <- Es. reflexivity.
  - reflexivity.
Qed.

(** X1: [prepareForCall] during a call ([calling], [connecting] or
    [connected]) emits [stateMismatch], throws "currently busy!" and
    changes nothing else; in [idle] or [prepared] it succeeds, spreads the
    argument over the configuration ([merge]: every key the argument has
    replaces the old value, also when it is given as [undefined]; the
    other keys keep theirs), leaves the state [prepared], and announces
    [prepared] only if the state was [idle]. *)
Theorem prepareForCall_refused_exactly_when_busy
  (w : World) (config : Partial_IPrepareConfig) :
  (state (api w) = CallStateType.calling
   \/ state (api w) = CallStateType.connecting
   \/ state (api w) = CallStateType.connected ->
   prepareForCall config w =
   (Threw "currently busy!",
    mkWorld (api w) (rt w)
      (log w ++
       [point (api w) (rt w) (callEventChanged CallEvent.stateMismatch)])))
  /\ (state (api w) = CallStateType.prepared ->
      prepareForCall config w =
      (Ok tt,
       mkWorld (set_prepareConfig (merge (prepareConfig (api w)) config) (api w))
         (rt w) (log w)))
  /\ (state (api w) = CallStateType.idle ->
      prepareForCall config w =
      (Ok tt,
       mkWorld (prepared_api config (api w)) (rt w)
         (log w ++
          [point (prepared_api config (api w)) (rt w)
             (callStateChanged CallStateType.prepared CallStateReason.none
                None info_undefined)]))).
Proof.
  split; [| split].
  - intros Hs. apply isBusy_states in Hs.
    destruct w as [a r l]. cbn [api rt log] in *.
    unfold prepareForCall, _callEventChange. prim. rewrite Hs. reflexivity.
  - intros Hs. rewrite prepareForCall_not_busy
      by (apply isBusy_false_states; right; exact Hs).
    unfold announce, prepared_api. rewrite Hs. cbn [CallStateType.eqb].
    rewrite app_nil_r. destruct w as [a r l]. cbn [api rt log] in *.
    unfold set_state, set_prepareConfig. cbn. rewrite <- Hs. reflexivity.
  - intros Hs. rewrite prepareForCall_not_busy
      by (apply isBusy_false_states; left; exact Hs).
    unfold announce. rewrite Hs. reflexivity.
Qed.

Lemma prepareForCall_refused_exactly_when_busy_witness :
  state (api w_calling) = CallStateType.calling
  /\ fst (prepareForCall (literal untimed_prepareConfig) w_calling)
     = Threw "currently busy!"
  /\ api (snd (prepareForCall (literal untimed_prepareConfig) w_calling))
     = api w_calling
  /\ state (api w_prepared) = CallStateType.prepared
  /\ rtcToken (prepareConfig (api w_prepared)) = Some "token-1"
  /\ log (snd (prepareForCall token_undefined w_prepared)) = log w_prepared
  /\ rtcToken (prepareConfig (api (snd (prepareForCall token_undefined
                                          w_prepared))))
     = None
  /\ roomId (prepareConfig (api (snd (prepareForCall token_undefined
                                        w_prepared))))
     = Some "room-1"
  /\ state (api (new_World alice)) = CallStateType.idle
  /\ state (api (snd (prepareForCall (literal demo_prepareConfig)
                        (new_World alice))))
     = CallStateType.prepared.
Proof.
  destruct (prepareForCall_refused_exactly_when_busy w_calling
              (literal untimed_prepareConfig)) as (Hbusy & _).
  destruct (prepareForCall_refused_exactly_when_busy w_prepared
              token_undefined) as (_ & Hprep & _).
  destruct (prepareForCall_refused_exactly_when_busy (new_World alice)
              (literal demo_prepareConfig)) as (_ & _ & Hidle).
  split; [vm_compute; reflexivity |].
  rewrite Hbusy by (left; vm_compute; reflexivity).
  split; [reflexivity |]. split; [reflexivity |].
  split; [vm_compute; reflexivity |].
  split; [vm_compute; reflexivity |].
  rewrite Hprep by (vm_compute; reflexivity).
  split; [reflexivity |].
  split; [vm_compute; reflexivity |].
  split; [vm_compute; reflexivity |].
  split; [reflexivity |].
  rewrite Hidle by reflexivity. reflexivity.
Defined.

Lemma spread_key_over {A : Type} (old : option A) (k1 k2 : Key A) :
  spread_key (spread_key old k1) k2 = spread_key old (over k1 k2).
Proof. destruct k2; reflexivity. Qed.

Lemma merge_spread (old : IPrepareConfig) (c1 c2 : Partial_IPrepareConfig) :
  merge (merge old c1) c2 = merge old (spread c1 c2).
Proof.
  unfold merge, spread.
  cbn [roomId rtcToken localView remoteView autoAccept
         callTimeoutMillisecond firstFrameWaittingDisabled
         videoConfig audioConfig
         given_roomId given_rtcToken given_localView given_remoteView
         given_autoAccept given_callTimeoutMillisecond
         given_firstFrameWaittingDisabled given_videoConfig
         given_audioConfig].
  rewrite !spread_key_over. reflexivity.
Qed.

Lemma merge_idem (old : IPrepareConfig) (c : Partial_IPrepareConfig) :
  merge old (spread c c) = merge old c.
Proof.
  unfold merge, spread.
  cbn [given_roomId given_rtcToken given_localView given_remoteView
         given_autoAccept given_callTimeoutMillisecond
         given_firstFrameWaittingDisabled given_videoConfig
         given_audioConfig].
  destruct (given_roomId c), (given_rtcToken c), (given_localView c),
    (given_remoteView c), (given_autoAccept c),
    (given_callTimeoutMillisecond c), (given_firstFrameWaittingDisabled c),
    (given_videoConfig c), (given_audioConfig c);
    reflexivity.
Qed.

Lemma prepareForCall_twice (w : World) (c c' : Partial_IPrepareConfig) :
  isBusy (api w) = false ->
  fst ((prepareForCall c ;; prepareForCall c') w) = Ok tt
  /\ api (snd ((prepareForCall c ;; prepareForCall c') w))
     = prepared_api (spread c c') (api w)
  /\ rt (snd ((prepareForCall c ;; prepareForCall c') w)) = rt w
  /\ map obs (log (snd ((prepareForCall c ;; prepareForCall c') w)))
     = map obs (log w) ++
       map obs (announce (api w) (api w) (rt w) CallStateType.prepared
                  CallStateReason.none None info_undefined).
Proof.
  intros Hs. unfold bind at 1 2 3 4.
  rewrite (prepareForCall_not_busy c w Hs).
  rewrite prepareForCall_not_busy by reflexivity.
  cbn [fst snd api rt log]. unfold announce at 2, prepared_api at 5.
  cbn [state set_state CallStateType.eqb]. rewrite app_nil_r.
  split; [reflexivity |]. split; [| split; [reflexivity |]].
  - unfold prepared_api. cbn [prepareConfig set_state set_prepareConfig].
    rewrite merge_spread. unfold set_state, set_prepareConfig. reflexivity.
  - rewrite map_app. unfold announce.
    destruct (CallStateType.eqb (state (api w)) CallStateType.prepared);
      reflexivity.
Qed.

Lemma prepareForCall_once (w : World) (c : Partial_IPrepareConfig) :
  isBusy (api w) = false ->
  fst (prepareForCall c w) = Ok tt
  /\ api (snd (prepareForCall c w)) = prepared_api c (api w)
  /\ rt (snd (prepareForCall c w)) = rt w
  /\ map obs (log (snd (prepareForCall c w)))
     = map obs (log w) ++
       map obs (announce (api w) (api w) (rt w) CallStateType.prepared
                  CallStateReason.none None info_undefined).
Proof.
  intros Hs. rewrite (prepareForCall_not_busy c w Hs).
  cbn [fst snd api rt log]. repeat split.
  rewrite map_app. unfold announce.
  destruct (CallStateType.eqb (state (api w)) CallStateType.prepared);
    reflexivity.
Qed.

(** X2: outside a call, two [prepareForCall] in a row amount to one
    [prepareForCall] with the spread of the two arguments
    ([{...c1, ...c2}]: a key of the later argument wins, also when it is
    given as [undefined]): same result, same object, same runtime, same
    emissions.  In particular the second of two equal calls changes
    nothing. *)
Theorem prepareForCall_twice_is_once_merged
  (w : World) (c1 c2 : Partial_IPrepareConfig) :
  state (api w) = CallStateType.idle \/ state (api w) = CallStateType.prepared ->
  let twice := (prepareForCall c1 ;; prepareForCall c2) w in
  let once := prepareForCall (spread c1 c2) w in
  fst twice = fst once
  /\ api (snd twice) = api (snd once)
  /\ rt (snd twice) = rt (snd once)
  /\ map obs (log (snd twice)) = map obs (log (snd once))
  /\ api (snd ((prepareForCall c1 ;; prepareForCall c1) w))
     = api (snd (prepareForCall c1 w)).
Proof.
  intros Hs. cbv zeta. apply isBusy_false_states in Hs.
  destruct (prepareForCall_twice w c1 c2 Hs) as (T1 & T2 & T3 & T4).
  destruct (prepareForCall_once w (spread c1 c2) Hs) as (O1 & O2 & O3 & O4).
  destruct (prepareForCall_twice w c1 c1 Hs) as (_ & T2' & _).
  destruct (prepareForCall_once w c1 Hs) as (_ & O2' & _).
  rewrite T1, T2, T3, T4, O1, O2, O3, O4, T2', O2'.
  repeat split. unfold prepared_api. rewrite merge_idem. reflexivity.
Qed.

Lemma prepareForCall_twice_is_once_merged_witness :
  state (api (new_World alice)) = CallStateType.idle
  /\ api (snd ((prepareForCall (literal demo_prepareConfig) ;;
                prepareForCall token_undefined) (new_World alice)))
     = api (snd (prepareForCall (spread (literal demo_prepareConfig)
                                   token_undefined)
                   (new_World alice)))
  /\ rtcToken
       (prepareConfig
          (api (snd ((prepareForCall (literal demo_prepareConfig) ;;
                      prepareForCall token_undefined) (new_World alice)))))
     = None.
Proof.
  split; [reflexivity |].
  split; [| reflexivity].
  apply (prepareForCall_twice_is_once_merged (new_World alice)
           (literal demo_prepareConfig) token_undefined).
  left. reflexivity.
Defined.

(** ** [destory] in general *)

Lemma set_state_same (a : CallApi) (s : CallStateType.t) :
  state a = s -> set_state s a = a.
Proof. intros <-. destruct a. reflexivity. Qed.


(** The two halves of [destory], with what they write told apart from the
    requests to the media client. *)
Lemma destory_closes (k : AfterDestory) (w : World) :
  exists (wc : World) (closes : list Point),
    destory k w =
      (if _rtcJoined (api w) then emit rtc_leave ;; await (await_leave k)
       else _resetData ;; after_destory k) wc
    /\ log wc = log w ++ closes
    /\ Forall (fun p => is_cleanup (obs p) = true
                        /\ state (at_api p) = state (api w)
                        /\ getCallId (at_api p) = getCallId (api w)) closes
    /\ rt wc = rt w
    /\ reset_api (api wc) = reset_api (api w)
    /\ state (api wc) = state (api w)
    /\ _callMessage (api wc) = _callMessage (api w)
    /\ _cancelCallTimer (api wc) = _cancelCallTimer (api w)
    /\ remoteUserId (api wc) = remoteUserId (api w)
    /\ _rtcJoined (api wc) = _rtcJoined (api w)
    /\ prepareConfig (api wc) = prepareConfig (api w)
    /\ callConfig (api wc) = callConfig (api w).
Proof.
  destruct w as [a r l]. unfold destory.
  cbv beta iota zeta delta [bind this when_some]. cbn [api rt log].
  destruct (remote_audioTrack (remoteTracks a));
    destruct (local_audioTrack (localTracks a));
    destruct (local_videoTrack (localTracks a)); prim.
  all: eexists; eexists; split; [reflexivity |].
  all: split;
    [ cbn [log];
      first [ rewrite <- !app_assoc; reflexivity
            | reflexivity
            | symmetry; apply app_nil_r ] |].
  all: split;
    [ cbn [app]; repeat first [apply Forall_nil | apply Forall_cons];
      repeat split
    | repeat split ].
Qed.

Lemma resetData_clears (w : World) :
  exists clears : list Point,
    _resetData w =
      (Ok tt, mkWorld (reset_api (api w)) (reset_rt (api w) (rt w))
                (log w ++ clears))
    /\ Forall (fun p => is_cleanup (obs p) = true
                        /\ state (at_api p) = state (api w)
                        /\ getCallId (at_api p) = "") clears.
Proof.
  destruct w as [a r l]. unfold _resetData, _resetView, reset_api, reset_rt.
  prim.
  set (a1 := set_receiveRemoteFirstFrameDecoded false
               (set_rtcJoined false
                  (set_remoteTracks (mkRemoteTracks None None)
                     (set_localTracks (mkLocalTracks None None)
                        (set_remoteUserId 0
                           (set_callMessage
                              (CallMessage.setCallId "" (_callMessage a)) a)))))).
  exists ((match localView (prepareConfig a) with
           | Some v => [point a1 r (innerHTML_clear v)]
           | None => []
           end) ++
          (match remoteView (prepareConfig a) with
           | Some v => [point a1 r (innerHTML_clear v)]
           | None => []
           end)).
  subst a1. unfold point.
  destruct (localView (prepareConfig a)); prim;
    destruct (remoteView (prepareConfig a)); prim;
    destruct (_cancelCallTimer a) eqn:Et; prim;
    (split;
      [ unfold set_callInfo, set_cancelCallTimer; prim; rewrite ?Et;
        rewrite <- ?app_assoc, ?app_nil_r; reflexivity
      | cbn [app];
        repeat first [apply Forall_nil | apply Forall_cons];
        repeat split ]).
Qed.

(** Without a joined channel [destory] runs to its end at once: tracks
    stopped and closed, object reset, views cleared, timer cleared; the
    media client is not asked to leave. *)
Lemma destory_not_joined (k : AfterDestory) (w : World) :
  _rtcJoined (api w) = false ->
  exists cleanup : list Point,
    destory k w =
      after_destory k
        (mkWorld (reset_api (api w)) (reset_rt (api w) (rt w))
           (log w ++ cleanup))
    /\ Forall (fun p => is_cleanup (obs p) = true
                        /\ state (at_api p) = state (api w)) cleanup.
Proof.
  intros Hj.
  destruct (destory_closes k w)
    as (wc & closes & E & Hl & Hcl & Hrt & Hreset & Hst & _ & Htm & _).
  rewrite E, Hj. clear E.
  destruct (resetData_clears wc) as (clears & Er & Hclears).
  cbv beta iota delta [bind]. rewrite Er.
  rewrite Hreset. unfold reset_rt at 1. rewrite Htm, Hrt.
  fold (reset_rt (api w) (rt w)).
  exists (closes ++ clears). split.
  - rewrite Hl, <- app_assoc. reflexivity.
  - apply Forall_app. split.
    + eapply Forall_impl; [| exact Hcl]. intros p (H1 & H2 & _).
      split; assumption.
    + eapply Forall_impl; [| exact Hclears]. intros p (H1 & H2 & _).
      split; [exact H1 | rewrite H2; exact Hst].
Qed.

(** With a joined channel [destory] asks the media client to leave and is
    suspended; nothing is reset yet. *)
Lemma destory_joined (k : AfterDestory) (w : World) :
  _rtcJoined (api w) = true ->
  exists (a1 : CallApi) (closes : list Point),
    destory k w =
      (Ok tt,
       mkWorld a1 (suspend (await_leave k) (rt w))
         (log w ++ closes ++ [point a1 (rt w) rtc_leave]))
    /\ Forall (fun p => is_cleanup (obs p) = true
                        /\ state (at_api p) = state (api w)) closes
    /\ state a1 = state (api w)
    /\ getCallId a1 = getCallId (api w)
    /\ remoteUserId a1 = remoteUserId (api w)
    /\ _cancelCallTimer a1 = _cancelCallTimer (api w)
    /\ _rtcJoined a1 = true
    /\ prepareConfig a1 = prepareConfig (api w)
    /\ callConfig a1 = callConfig (api w)
    /\ reset_api a1 = reset_api (api w).
Proof.
  intros Hj.
  destruct (destory_closes k w)
    as (wc & closes & E & Hl & Hcl & Hrt & Hreset & Hst & Hcm & Htm & Hru & Hrj
        & Hpc & Hcc).
  rewrite E, Hj. clear E. destruct wc as [ac rc lc].
  cbn [api rt log] in *. subst rc lc. prim.
  exists ac, closes. split.
  - unfold suspend, point. rewrite <- app_assoc. reflexivity.
  - split.
    + eapply Forall_impl; [| exact Hcl]. intros p (H1 & H2 & _).
      split; assumption.
    + unfold getCallId. rewrite Hcm, Hrj, Hj. repeat split; assumption.
Qed.


Lemma destory_nothing_outcome (w : World) :
  fst (destory after_destory_nothing w) = Ok tt
  /\ state (api (snd (destory after_destory_nothing w))) = state (api w).
Proof.
  destruct (_rtcJoined (api w)) eqn:Hj.
  - destruct (destory_joined after_destory_nothing w Hj)
      as (a1 & closes & E & _ & Hst & _).
    rewrite E. split; [reflexivity | exact Hst].
  - destruct (destory_not_joined after_destory_nothing w Hj)
      as (cleanup & E & _).
    rewrite E. split; reflexivity.
Qed.

(** ** Ending a call locally: [cancelCall], [reject], [hangup] *)

Lemma ends_locally (w : World) (reason : CallStateReason.t)
  (eventReason : option string) (event : CallEvent.t) (to : UserId)
  (msg : ICallMessage.t) :
  (_callStateChange CallStateType.prepared reason eventReason info_undefined ;;
   _callEventChange event ;;
   _publishMessage to msg after_send_nothing ;;
   destory after_destory_nothing) w
  = destory after_destory_nothing
      (ended_locally w reason eventReason event to
         (CallMessage.encode (_callMessage (api w)) msg)).
Proof.
  destruct w as [a r l].
  unfold _callStateChange, _callEventChange, _publishMessage, ended_locally,
    announce.
  prim.
  destruct (CallStateType.eqb (state a) CallStateType.prepared) eqn:Es; prim.
  - apply CallStateType_eqb_eq in Es.
    rewrite (set_state_same a _ Es). unfold suspend, point.
    cbn [app]. rewrite <- !app_assoc. reflexivity.
  - unfold suspend, point. rewrite <- !app_assoc. reflexivity.
Qed.

Lemma cancelCall_ends_locally (w : World) :
  cancelCall w =
    destory after_destory_nothing
      (ended_locally w CallStateReason.localCancel None
         CallEvent.localCancelled (remoteUserId (api w))
         (ICallMessage.mk (getCallId (api w)) (userId (callConfig (api w)))
            (remoteUserId (api w)) None CallAction.Cancel None None
            (Some RejectByInternal.External))).
Proof.
  change (ICallMessage.mk (getCallId (api w)) (userId (callConfig (api w)))
            (remoteUserId (api w)) None CallAction.Cancel None None
            (Some RejectByInternal.External))
    with (CallMessage.encode (_callMessage (api w))
            (with_cancelCallByInternal RejectByInternal.External
               (message (userId (callConfig (api w)))
                  (remoteUserId (api w)) CallAction.Cancel))).
  rewrite <- ends_locally.
  destruct w as [a r l]. unfold cancelCall, _callStateChange, _callEventChange.
  prim.
  destruct (CallStateType.eqb (state a) CallStateType.prepared);
    prim; reflexivity.
Qed.

Lemma reject_ends_locally (w : World) (uid : UserId) (reason : option string) :
  reject uid reason w =
    destory after_destory_nothing
      (ended_locally w CallStateReason.localRejected reason
         CallEvent.localRejected uid
         (ICallMessage.mk (getCallId (api w)) (userId (callConfig (api w)))
            uid None CallAction.Reject reason
            (Some RejectByInternal.External) None)).
Proof.
  change (ICallMessage.mk (getCallId (api w)) (userId (callConfig (api w)))
            uid None CallAction.Reject reason
            (Some RejectByInternal.External) None)
    with (CallMessage.encode (_callMessage (api w))
            (with_reject reason RejectByInternal.External
               (message (userId (callConfig (api w))) uid
                  CallAction.Reject))).
  rewrite <- ends_locally.
  destruct w as [a r l]. unfold reject, _callStateChange, _callEventChange.
  prim.
  destruct (CallStateType.eqb (state a) CallStateType.prepared);
    prim; reflexivity.
Qed.

Lemma hangup_ends_locally (w : World) (uid : UserId) :
  hangup uid w =
    destory after_destory_nothing
      (ended_locally w CallStateReason.localHangup None
         CallEvent.localHangup uid (envelope (api w) uid CallAction.Hangup)).
Proof.
  change (envelope (api w) uid CallAction.Hangup)
    with (CallMessage.encode (_callMessage (api w))
            (message (userId (callConfig (api w))) uid CallAction.Hangup)).
  rewrite <- ends_locally.
  destruct w as [a r l]. unfold hangup, _callStateChange, _callEventChange.
  prim.
  destruct (CallStateType.eqb (state a) CallStateType.prepared);
    prim; reflexivity.
Qed.

(** X4: [cancelCall], [reject] and [hangup] test nothing: in every state
    (also [idle], and with no call in progress) they leave the state
    [prepared], announce it unless it was [prepared] already, emit their
    event, hand their message to the transport (addressed to the committed
    [remoteUserId] for [cancelCall], to the argument for the other two) and
    run [destory] with the send still pending. *)
Theorem local_end_commands_are_unguarded (w : World) (uid : UserId)
  (reason : option string) :
  cancelCall w =
    destory after_destory_nothing
      (ended_locally w CallStateReason.localCancel None
         CallEvent.localCancelled (remoteUserId (api w))
         (ICallMessage.mk (getCallId (api w)) (userId (callConfig (api w)))
            (remoteUserId (api w)) None CallAction.Cancel None None
            (Some RejectByInternal.External)))
  /\ reject uid reason w =
     destory after_destory_nothing
       (ended_locally w CallStateReason.localRejected reason
          CallEvent.localRejected uid
          (ICallMessage.mk (getCallId (api w)) (userId (callConfig (api w)))
             uid None CallAction.Reject reason
             (Some RejectByInternal.External) None))
  /\ hangup uid w =
     destory after_destory_nothing
       (ended_locally w CallStateReason.localHangup None
          CallEvent.localHangup uid (envelope (api w) uid CallAction.Hangup))
  /\ fst (cancelCall w) = Ok tt
  /\ fst (reject uid reason w) = Ok tt
  /\ fst (hangup uid w) = Ok tt
  /\ state (api (snd (cancelCall w))) = CallStateType.prepared
  /\ state (api (snd (reject uid reason w))) = CallStateType.prepared
  /\ state (api (snd (hangup uid w))) = CallStateType.prepared.
Proof.
  rewrite cancelCall_ends_locally, reject_ends_locally, hangup_ends_locally.
  split; [reflexivity |]. split; [reflexivity |]. split; [reflexivity |].
  repeat split;
    first [ apply destory_nothing_outcome
          | rewrite (proj2 (destory_nothing_outcome _)); reflexivity ].
Qed.

(** ** [accept] outside [calling] *)

Lemma accept_refused (w : World) (uid : UserId) :
  state (api w) <> CallStateType.calling ->
  exists e : Error,
    accept uid w =
    (Threw e,
     mkWorld (api w) (rt w)
       (log w ++
        [point (api w) (rt w) (callEventChanged CallEvent.stateMismatch)])).
Proof.
  intros Hs. apply CallStateType_eqb_neq in Hs.
  destruct w as [a r l]. cbn [api rt log] in *.
  unfold accept, _callEventChange. prim. rewrite Hs. cbn [negb].
  eexists. reflexivity.
Qed.

(** X5: [accept] in a state other than [calling] emits [stateMismatch],
    fails and changes nothing else.  An [accept] in [calling] leaves
    [connecting] or [connected], whether it returns or throws, so that a
    further [accept] is refused in this way. *)
Theorem accept_is_refused_outside_calling (w : World) (uid : UserId) :
  (state (api w) <> CallStateType.calling ->
   exists e : Error,
     accept uid w =
     (Threw e,
      mkWorld (api w) (rt w)
        (log w ++
         [point (api w) (rt w) (callEventChanged CallEvent.stateMismatch)])))
  /\ (state (api w) = CallStateType.calling ->
      forall uid' : UserId,
        let w1 := snd (accept uid w) in
        exists e : Error,
          accept uid' w1 =
          (Threw e,
           mkWorld (api w1) (rt w1)
             (log w1 ++
              [point (api w1) (rt w1)
                 (callEventChanged CallEvent.stateMismatch)]))).
Proof.
  split; [apply accept_refused |].
  intros Hs uid'. cbv zeta. apply accept_refused.
  rewrite (accept_calling_unfold w uid Hs). cbv zeta.
  match goal with
  | |- context [_checkAppendView ?W] =>
      destruct (checkAppendView_state W) as [H | H]; rewrite H
  end; cbn [api state set_state]; discriminate.
Qed.

Lemma accept_is_refused_outside_calling_witness :
  state (api w_prepared) <> CallStateType.calling
  /\ fst (accept 2 w_prepared)
     = Threw "accept fail! current state is not calling state"
  /\ state (api w_called) = CallStateType.calling
  /\ exists e : Error, fst (accept 2 (snd (accept 2 w_called))) = Threw e.
Proof.
  assert (H1 : state (api w_prepared) <> CallStateType.calling)
    by (vm_compute; discriminate).
  assert (H2 : state (api w_called) = CallStateType.calling)
    by (vm_compute; reflexivity).
  split; [exact H1 |]. split; [vm_compute; reflexivity |].
  split; [exact H2 |].
  destruct (proj2 (accept_is_refused_outside_calling w_called 2) H2 2)
    as [e He].
  exists e. rewrite He. reflexivity.
Defined.

(** ** Inbound [Cancel] and [Hangup], and messages from other users *)

Lemma isCallingUser_false (a : CallApi) (uid : UserId) :
  _isCallingUser a uid = false <-> remoteUserId a <> 0 /\ uid <> remoteUserId a.
Proof.
  unfold _isCallingUser, truthy_id.
  destruct (remoteUserId a =? 0) eqn:E0; cbn [negb].
  - apply Z.eqb_eq in E0. split; [discriminate | intros [H _]; contradiction].
  - apply Z.eqb_neq in E0. split.
    + intros H. apply Z.eqb_neq in H. split; [exact E0 | congruence].
    + intros [_ H]. apply Z.eqb_neq. congruence.
Qed.

Lemma isCallingUser_true (a : CallApi) (uid : UserId) :
  _isCallingUser a uid = true <-> remoteUserId a = 0 \/ uid = remoteUserId a.
Proof.
  unfold _isCallingUser, truthy_id.
  destruct (remoteUserId a =? 0) eqn:E0; cbn [negb].
  - apply Z.eqb_eq in E0. split; [left; exact E0 | reflexivity].
  - apply Z.eqb_neq in E0. rewrite Z.eqb_eq. split.
    + intros H. right. symmetry. exact H.
    + intros [H | H]; [contradiction | symmetry; exact H].
Qed.

(** X6: while a peer is committed ([remoteUserId] non-zero), a [Cancel],
    [Reject] or [Hangup] from any other user has no effect at all: no
    state change, no event, no request.  An [AudioCall] has no effect
    whoever sends it. *)
Theorem messages_from_other_users_are_dropped (w : World) (data : ICallMessage.t) :
  (remoteUserId (api w) <> 0 ->
   ICallMessage.fromUserId data <> remoteUserId (api w) ->
   ICallMessage.message_action data = CallAction.Cancel
   \/ ICallMessage.message_action data = CallAction.Reject
   \/ ICallMessage.message_action data = CallAction.Hangup ->
   messageReceive data w = (Ok tt, w))
  /\ (ICallMessage.message_action data = CallAction.AudioCall ->
      messageReceive data w = (Ok tt, w)).
Proof.
  split.
  - intros H0 Hfrom Hact.
    assert (Hgate : _isCallingUser (api w) (ICallMessage.fromUserId data) = false)
      by (apply isCallingUser_false; split; assumption).
    destruct w as [a r l]. cbn [api] in *. unfold messageReceive.
    destruct Hact as [Hact | [Hact | Hact]]; rewrite Hact;
      unfold _receiveCancelCall, _receiveReject, _receiveHangup; prim;
      rewrite Hgate; reflexivity.
  - intros Hact. unfold messageReceive. rewrite Hact. reflexivity.
Qed.

Lemma messages_from_other_users_are_dropped_witness :
  remoteUserId (api w_connected) = 2
  /\ messageReceive
       (ICallMessage.mk the_uuid 3 1 None CallAction.Hangup None None None)
       w_connected
     = (Ok tt, w_connected).
Proof.
  assert (H : remoteUserId (api w_connected) = 2) by (vm_compute; reflexivity).
  split; [exact H |].
  apply (proj1 (messages_from_other_users_are_dropped w_connected
                  (ICallMessage.mk the_uuid 3 1 None CallAction.Hangup
                     None None None))).
  - rewrite H. discriminate.
  - rewrite H. discriminate.
  - right. right. reflexivity.
Defined.

Lemma ends_remotely (w : World) (reason : CallStateReason.t)
  (eventReason : option string) (eventInfo : EventInfo) (event : CallEvent.t) :
  (_callStateChange CallStateType.prepared reason eventReason eventInfo ;;
   _callEventChange event ;;
   destory after_destory_nothing) w
  = destory after_destory_nothing
      (ended_remotely w reason eventReason eventInfo event).
Proof.
  destruct w as [a r l].
  unfold _callStateChange, _callEventChange, ended_remotely, announce.
  prim.
  destruct (CallStateType.eqb (state a) CallStateType.prepared) eqn:Es; prim.
  - apply CallStateType_eqb_eq in Es.
    rewrite (set_state_same a _ Es). unfold point.
    cbn [app]. reflexivity.
  - unfold point. rewrite <- !app_assoc. reflexivity.
Qed.

(** X7: a [Cancel] or a [Hangup] is obeyed when it comes from the
    committed peer, and from anybody when no peer is committed
    ([remoteUserId] is 0), whatever the state: the state becomes
    [prepared] (announced with reason [remoteCancel], carrying the
    message's [cancelCallByInternal], resp. [remoteHangup], unless it was
    [prepared] already), the event follows, then [destory] runs.  So an
    [idle] object is put in [prepared] by such a message. *)
Theorem inbound_cancel_and_hangup (w : World) (data : ICallMessage.t) :
  remoteUserId (api w) = 0
  \/ ICallMessage.fromUserId data = remoteUserId (api w) ->
  (ICallMessage.message_action data = CallAction.Cancel ->
   messageReceive data w =
   destory after_destory_nothing
     (ended_remotely w CallStateReason.remoteCancel (Some "")
        (info_cancel (ICallMessage.cancelCallByInternal data))
        CallEvent.remoteCancelled))
  /\ (ICallMessage.message_action data = CallAction.Hangup ->
      messageReceive data w =
      destory after_destory_nothing
        (ended_remotely w CallStateReason.remoteHangup None info_undefined
           CallEvent.remoteHangup))
  /\ (ICallMessage.message_action data = CallAction.Cancel
      \/ ICallMessage.message_action data = CallAction.Hangup ->
      fst (messageReceive data w) = Ok tt
      /\ state (api (snd (messageReceive data w))) = CallStateType.prepared).
Proof.
  intros Hfrom. apply isCallingUser_true in Hfrom.
  assert (Ec : ICallMessage.message_action data = CallAction.Cancel ->
               messageReceive data w =
               destory after_destory_nothing
                 (ended_remotely w CallStateReason.remoteCancel (Some "")
                    (info_cancel (ICallMessage.cancelCallByInternal data))
                    CallEvent.remoteCancelled)).
  { intros Hact. rewrite <- ends_remotely.
    unfold messageReceive. rewrite Hact. unfold _receiveCancelCall.
    unfold bind at 1, this. rewrite Hfrom. reflexivity. }
  assert (Eh : ICallMessage.message_action data = CallAction.Hangup ->
               messageReceive data w =
               destory after_destory_nothing
                 (ended_remotely w CallStateReason.remoteHangup None
                    info_undefined CallEvent.remoteHangup)).
  { intros Hact. rewrite <- ends_remotely.
    unfold messageReceive. rewrite Hact. unfold _receiveHangup.
    unfold bind at 1, this. rewrite Hfrom. reflexivity. }
  split; [exact Ec |]. split; [exact Eh |].
  intros [Hact | Hact]; [rewrite (Ec Hact) | rewrite (Eh Hact)];
    (split; [apply destory_nothing_outcome |]);
    rewrite (proj2 (destory_nothing_outcome _)); reflexivity.
Qed.

Lemma inbound_cancel_and_hangup_witness :
  remoteUserId (api (new_World alice)) = 0
  /\ state (api (new_World alice)) = CallStateType.idle
  /\ state (api (snd (messageReceive
                        (ICallMessage.mk "" 9 1 None CallAction.Hangup
                           None None None)
                        (new_World alice))))
     = CallStateType.prepared.
Proof.
  split; [reflexivity |]. split; [reflexivity |].
  apply (inbound_cancel_and_hangup (new_World alice)
           (ICallMessage.mk "" 9 1 None CallAction.Hangup None None None)).
  - left. reflexivity.
  - right. reflexivity.
Defined.

(** ** The media client's listeners *)

Lemma after_destory_userLeft_effect (a : CallApi) (r : Runtime) (l : list Point) :
  after_destory after_destory_userLeft (mkWorld (reset_api a) r l) =
  (Ok tt,
   mkWorld (set_state CallStateType.prepared (reset_api a)) r
     (l ++
      announce a (set_state CallStateType.prepared (reset_api a)) r
        CallStateType.prepared CallStateReason.remoteHangup None
        info_undefined)).
Proof.
  unfold after_destory, _callStateChange, announce. prim.
  unfold reset_api at 1. prim.
  destruct (CallStateType.eqb (state a) CallStateType.prepared) eqn:E; prim.
  - apply CallStateType_eqb_eq in E. rewrite app_nil_r.
    rewrite set_state_same by (unfold reset_api; exact E). reflexivity.
  - reflexivity.
Qed.

(** X9: the four listeners of the media client act only on the committed
    peer: [user-joined], [user-left], [user-published] and
    [user-unpublished] of any other user (of every user, when no peer is
    committed and the user id is not 0) change nothing, emit nothing and
    request nothing. *)
Theorem media_events_of_other_users_are_ignored
  (w : World) (uid : UserId) (m : MediaType) :
  uid <> remoteUserId (api w) ->
  user_joined uid w = (Ok tt, w)
  /\ user_left uid w = (Ok tt, w)
  /\ user_published uid m w = (Ok tt, w)
  /\ user_unpublished uid m w = (Ok tt, w).
Proof.
  intros Hu. apply Z.eqb_neq in Hu. destruct w as [a r l]. cbn [api] in Hu.
  unfold user_joined, user_left, user_published, user_unpublished. prim.
  rewrite Hu. repeat split.
Qed.

Lemma media_events_of_other_users_are_ignored_witness :
  remoteUserId (api w_connected) = 2
  /\ user_left 3 w_connected = (Ok tt, w_connected)
  /\ user_published 3 media_video w_connected = (Ok tt, w_connected).
Proof.
  assert (H : remoteUserId (api w_connected) = 2) by (vm_compute; reflexivity).
  assert (H3 : 3 <> remoteUserId (api w_connected))
    by (rewrite H; discriminate).
  split; [exact H |].
  destruct (media_events_of_other_users_are_ignored w_connected 3 media_video H3)
    as (_ & Hl & Hp & _).
  split; assumption.
Defined.

(** ** The state and its announcements *)

Lemma announced_app (l d : list Point) :
  announced (l ++ d) = announced l ++ announced d.
Proof. unfold announced. apply flat_map_app. Qed.

Lemma last_independent {A : Type} (l : list A) (h x y : A) :
  last (h :: l) x = last (h :: l) y.
Proof.
  revert h. induction l as [| h' t IH]; intros h; [reflexivity |].
  change (last (h :: h' :: t) x) with (last (h' :: t) x).
  change (last (h :: h' :: t) y) with (last (h' :: t) y).
  apply IH.
Qed.

Lemma last_app_default {A : Type} (l d : list A) (x : A) :
  last (l ++ d) x = last d (last l x).
Proof.
  revert x. induction l as [| h t IH]; intros x; [reflexivity |].
  destruct t as [| h' t'].
  - cbn [app]. destruct d as [| a d]; [reflexivity |].
    change (last (h :: a :: d) x) with (last (a :: d) x).
    change (last [h] x) with h. apply last_independent.
  - change ((h :: h' :: t') ++ d) with (h :: ((h' :: t') ++ d)).
    change (last (h :: h' :: t') x) with (last (h' :: t') x).
    rewrite <- IH. cbn [app]. reflexivity.
Qed.

Lemma last_cons_default {A : Type} (l : list A) (h x : A) :
  last (h :: l) x = last l h.
Proof.
  destruct l as [| a l]; [reflexivity |].
  change (last (h :: a :: l) x) with (last (a :: l) x).
  apply last_independent.
Qed.

Lemma tracks_state_app (prev : CallStateType.t) (l d : list Point) :
  tracks_state prev (l ++ d) =
  tracks_state prev l && tracks_state (last (announced l) prev) d.
Proof.
  revert prev. induction l as [| p l IH]; intros prev; [reflexivity |].
  cbn [app tracks_state].
  destruct (obs p) eqn:Ep; rewrite IH;
    unfold announced; cbn [flat_map]; rewrite Ep; cbn [List.app];
    fold (announced l); rewrite ?andb_assoc; try reflexivity.
  f_equal. f_equal. symmetry. apply last_cons_default.
Qed.

Lemma tracks_state_plain (s : CallStateType.t) (d : list Point) :
  Forall (fun p => is_callStateChanged (obs p) = false /\ state (at_api p) = s) d ->
  tracks_state s d = true /\ announced d = [].
Proof.
  intros H. induction H as [| p d [Hp Hs] _ [IH1 IH2]]; [split; reflexivity |].
  cbn [tracks_state]. unfold announced in *. cbn [flat_map]. rewrite IH2.
  destruct (obs p); try discriminate; cbn [List.app];
    rewrite Hs, CallStateType_eqb_refl, IH1; split; reflexivity.
Qed.

Lemma synced_plain (l d : list Point) (s : CallStateType.t) :
  synced l s ->
  Forall (fun p => is_callStateChanged (obs p) = false /\ state (at_api p) = s) d ->
  synced (l ++ d) s.
Proof.
  intros [H1 H2] Hd. destruct (tracks_state_plain s d Hd) as [T A].
  unfold synced, followed in *.
  rewrite tracks_state_app, announced_app, A, app_nil_r, H1, <- H2, T.
  split; reflexivity.
Qed.

Lemma synced_change (l : list Point) (s s' : CallStateType.t) (a : CallApi)
  (ts : list Timer) r er ei :
  synced l s -> s' <> s -> s' <> CallStateType.idle ->
  (s' = CallStateType.connected -> s = CallStateType.connecting) ->
  state a = s' ->
  synced (l ++ [mkPoint a ts (callStateChanged s' r er ei)]) s'.
Proof.
  intros [H1 H2] Hne Hidle Hconn Ha. unfold synced, followed in *.
  rewrite tracks_state_app, announced_app, H1, <- H2, last_app_default.
  cbn [tracks_state obs at_api announced flat_map app last andb].
  apply CallStateType_eqb_neq in Hne. apply CallStateType_eqb_neq in Hidle.
  rewrite Hne, Hidle, Ha, CallStateType_eqb_refl.
  assert (Hc : negb (CallStateType.eqb s' CallStateType.connected)
               || CallStateType.eqb s CallStateType.connecting = true).
  { destruct (CallStateType.eqb s' CallStateType.connected) eqn:E;
      [| reflexivity].
    apply CallStateType_eqb_eq in E. rewrite (Hconn E). reflexivity. }
  rewrite Hc. split; reflexivity.
Qed.

Lemma synced_emit (o : Obs) :
  is_callStateChanged o = false -> preserves state_synced (emit o).
Proof.
  intros Ho [a r l] H. unfold state_synced in *. cbn in H |- *.
  apply synced_plain; [exact H |].
  constructor; [split; [exact Ho | reflexivity] | constructor].
Qed.

Lemma synced_update (f : CallApi -> CallApi) :
  (forall a, state (f a) = state a) -> preserves state_synced (update f).
Proof.
  intros Hf [a r l] H. unfold state_synced in *. cbn in H |- *.
  rewrite Hf. exact H.
Qed.

Lemma synced_update_rt (f : Runtime -> Runtime) :
  preserves state_synced (update_rt f).
Proof. intros [a r l] H. exact H. Qed.

Lemma synced_callStateChange s r er ei :
  s <> CallStateType.idle -> s <> CallStateType.connected ->
  preserves state_synced (_callStateChange s r er ei).
Proof.
  intros Hs Hc [a rt0 l] H. unfold _callStateChange. prim.
  destruct (CallStateType.eqb (state a) s) eqn:E; prim; [exact H |].
  unfold state_synced in *. cbn [api log state set_state] in *.
  apply CallStateType_eqb_neq in E.
  apply (synced_change l (state a)); try assumption; try reflexivity.
  - congruence.
  - intros Hx. contradiction.
Qed.

Lemma plain_is_no_state_change (o : Obs) :
  plain o = true -> is_callStateChanged o = false.
Proof. destruct o; cbn; intros H; try discriminate; reflexivity. Qed.

Lemma synced_checkAppendView : preserves state_synced _checkAppendView.
Proof.
  intros w H.
  destruct (CallStateType.eqb (state (api w)) CallStateType.connecting) eqn:Es.
  - destruct (frame_ready (api w)) eqn:Ef.
    + apply CallStateType_eqb_eq in Es.
      destruct (checkAppendView_proceeds w Es Ef)
        as (res & w' & rest & E & Hst & Hl & Hrest).
      rewrite E. cbn [snd]. unfold state_synced in *. rewrite Hl, Hst.
      change (?p :: rest) with ([p] ++ rest). rewrite app_assoc.
      apply synced_plain; [| exact Hrest].
      apply (synced_change (log w) (state (api w))).
      * exact H.
      * rewrite Es. discriminate.
      * discriminate.
      * intros _. exact Es.
      * reflexivity.
    + rewrite checkAppendView_noop by (right; exact Ef). exact H.
  - apply CallStateType_eqb_neq in Es.
    rewrite checkAppendView_noop by (left; exact Es). exact H.
Qed.

Lemma cleanup_is_no_state_change (o : Obs) :
  is_cleanup o = true -> is_callStateChanged o = false.
Proof. destruct o; cbn; intros H; try discriminate; reflexivity. Qed.

Lemma synced_resetData : preserves state_synced _resetData.
Proof.
  intros w H. destruct (resetData_clears w) as (clears & E & Hc).
  rewrite E. cbn [snd]. unfold state_synced in *. cbn [api log reset_api state].
  apply synced_plain; [exact H |].
  eapply Forall_impl; [| exact Hc]. intros p (H1 & H2 & _).
  split; [apply cleanup_is_no_state_change, H1 | exact H2].
Qed.

Lemma synced_autoCancelCall (b : bool) :
  preserves state_synced (_autoCancelCall b).
Proof.
  intros w H. destruct (autoCancelCall_effect b w) as (tm & ts & n & E & _).
  rewrite E. exact H.
Qed.

Ltac pres_synced :=
  repeat first
    [ pres_step
    | apply synced_emit; reflexivity
    | apply synced_update_rt
    | apply synced_update; intro; reflexivity ].

Lemma synced_receiveVideoCall_commit data :
  preserves state_synced (receiveVideoCall_commit data).
Proof.
  unfold receiveVideoCall_commit.
  repeat first [ apply synced_callStateChange; discriminate
               | apply synced_autoCancelCall
               | pres_synced ].
Qed.

Lemma synced_invariant (config : ICallConfig) (w : World) :
  reachable config w -> state_synced w.
Proof.
  apply invariant_reachable.
  - intros o Ho. apply synced_emit, plain_is_no_state_change, Ho.
  - intros f Hq. apply synced_update. intros a. apply Hq.
  - intros f _. apply synced_update_rt.
  - intros id. apply synced_update_rt.
  - intros s r er ei Hs Hc. apply synced_callStateChange; assumption.
  - apply synced_checkAppendView.
  - apply synced_resetData.
  - apply synced_autoCancelCall.
  - intros uuid w0 [H _]. revert w0 H. apply synced_update.
    intro. reflexivity.
  - apply synced_receiveVideoCall_commit.
  - split; reflexivity.
Qed.

(** What [tracks_state] says of each entry. *)
Lemma tracks_state_entry (prev : CallStateType.t) (l1 l2 : list Point) (p : Point) :
  tracks_state prev (l1 ++ p :: l2) = true ->
  state (at_api p) = last (announced (l1 ++ [p])) prev
  /\ forall s r er ei,
       obs p = callStateChanged s r er ei ->
       s <> CallStateType.idle /\ s <> last (announced l1) prev
       /\ (s = CallStateType.connected ->
           last (announced l1) prev = CallStateType.connecting).
Proof.
  rewrite tracks_state_app. intros H. apply andb_prop in H as [_ H].
  rewrite announced_app, last_app_default.
  set (q := last (announced l1) prev) in *. clearbody q.
  cbn [tracks_state] in H. unfold announced. cbn [flat_map].
  destruct (obs p) eqn:Ep; cbn [List.app last];
    try (apply andb_prop in H as [H _];
         apply CallStateType_eqb_eq in H;
         split; [exact H | intros; discriminate]).
  apply andb_prop in H as [H _]. apply andb_prop in H as [H H3].
  apply andb_prop in H as [H H4]. apply andb_prop in H as [H1 H2].
  apply CallStateType_eqb_eq in H3.
  apply negb_true_iff in H1, H2.
  apply CallStateType_eqb_neq in H1, H2.
  split; [exact H3 |].
  intros s' r' er' ei' E. injection E as <- _ _ _.
  split; [assumption |]. split; [assumption |].
  intros ->. cbn [CallStateType.eqb negb orb] in H4.
  apply CallStateType_eqb_eq, H4.
Qed.

(** X10: in every run the [callStateChanged] events tell the state
    exactly.  The state of the object is the one announced last ([idle]
    if none was); so it was at every emission and request of the log;
    every announcement is one of a state that differs from the state
    before it; [idle] is never announced: once left, it is never entered
    again; and [connected] is entered from [connecting] only. *)
Theorem state_is_the_one_announced_last (config : ICallConfig) (w : World) :
  reachable config w ->
  state (api w) = followed (log w)
  /\ (forall l1 p l2,
        log w = l1 ++ p :: l2 ->
        state (at_api p) = followed (l1 ++ [p]))
  /\ (forall l1 p l2 s r er ei,
        log w = l1 ++ p :: l2 ->
        obs p = callStateChanged s r er ei ->
        s <> CallStateType.idle /\ s <> followed l1
        /\ (s = CallStateType.connected ->
            followed l1 = CallStateType.connecting))
  /\ (state (api w) = CallStateType.idle -> announced (log w) = []).
Proof.
  intros Hr. destruct (synced_invariant config w Hr) as [T S].
  split; [exact S |]. split; [| split].
  - intros l1 p l2 E. rewrite E in T.
    apply (tracks_state_entry _ _ _ _ T).
  - intros l1 p l2 s r er ei E Ep. rewrite E in T.
    apply (proj2 (tracks_state_entry _ _ _ _ T) s r er ei Ep).
  - intros Hidle. rewrite S in Hidle. unfold followed in Hidle.
    destruct (announced (log w)) as [| h t] eqn:Ea; [reflexivity |].
    exfalso.
    assert (Hin : In (last (h :: t) CallStateType.idle) (announced (log w))).
    { rewrite Ea. clear. revert h.
      induction t as [| h' t IH]; intros h; [left; reflexivity |].
      right. apply IH. }
    rewrite Hidle in Hin. unfold announced in Hin.
    apply in_flat_map in Hin as (p & Hp & Hi).
    apply in_split in Hp as (l1 & l2 & E).
    destruct (obs p) eqn:Ep; try contradiction.
    destruct Hi as [Hi | []].
    rewrite E in T.
    destruct (proj2 (tracks_state_entry _ _ _ _ T) _ _ _ _ Ep) as [Hn _].
    contradiction.
Qed.

Lemma state_is_the_one_announced_last_witness :
  reachable alice w_accepted_twice
  /\ state (api w_accepted_twice) = followed (log w_accepted_twice)
  /\ announced (log w_accepted_twice)
     = [CallStateType.prepared; CallStateType.calling;
        CallStateType.connecting; CallStateType.connected;
        CallStateType.connecting; CallStateType.connected].
Proof.
  split; [exact reachable_w_accepted_twice |].
  split.
  - apply (state_is_the_one_announced_last alice w_accepted_twice
             reachable_w_accepted_twice).
  - vm_compute. reflexivity.
Defined.

(** ** The media pipeline *)

Lemma set_nth_snoc {A : Type} (l : list A) (x y : A) :
  set_nth (List.length l) y (l ++ [x]) = l ++ [y].
Proof.
  induction l as [| h t IH]; [reflexivity |].
  cbn [List.length app set_nth]. rewrite IH. reflexivity.
Qed.

(** X11: [_rtcJoinAndPublish] on an object that has not joined and lacks
    [roomId] or [rtcToken] (an empty string counts as missing): the local
    tracks are requested all the same, the media client is not asked to
    join, and once the synchronous code of the turn is over
    [callError(rtcOccurError, rtc)] is emitted with the message "roomId is
    undefined", or "rtcToken is undefined" if only the token is missing.
    The object is not touched: the state stays what it was. *)
Theorem rtcJoin_refuses_without_room_or_token
  (k : AfterJoinAndPublish) (w : World) (e : Error) :
  _rtcJoined (api w) = false ->
  jobs (rt w) = [] ->
  rtcJoin_refusal (prepareConfig (api w)) = Some e ->
  (_rtcJoinAndPublish k ;; flush) w =
  (Ok tt,
   mkWorld (api w) (join_refused k (rt w))
     (log w ++
      [point (api w) (rt w)
         (createMicrophoneAndCameraTracks
            (audioConfig (prepareConfig (api w)))
            (videoConfig (prepareConfig (api w))));
       point (api w) (rt w)
         (callError CallErrorEvent.rtcOccurError CallErrorCodeType.rtc e)])).
Proof.
  destruct w as [a r l]. cbn [api rt log]. intros Hj Hjobs He.
  unfold rtcJoin_refusal in He.
  unfold _rtcJoinAndPublish, _createLocalTracks, _rtcJoin, join_rejected_with,
    flush, join_refused, point.
  prim. rewrite Hj. prim.
  destruct (truthy_str (roomId (prepareConfig a))) eqn:Er; cbn [negb] in He |- *.
  - destruct (truthy_str (rtcToken (prepareConfig a))) eqn:Et;
      cbn [negb] in He |- *; [discriminate |].
    injection He as <-.
    prim. rewrite nth_error_snoc. prim. rewrite set_nth_snoc, Hjobs.
    cbn [app run_jobs run_job]. unfold _rtcJoinAndPublish_catch, _callError.
    prim. rewrite <- !app_assoc. reflexivity.
  - injection He as <-.
    prim. rewrite nth_error_snoc. prim. rewrite set_nth_snoc, Hjobs.
    cbn [app run_jobs run_job]. unfold _rtcJoinAndPublish_catch, _callError.
    prim. rewrite <- !app_assoc. reflexivity.
Qed.

Lemma rtcJoin_refuses_without_room_or_token_witness :
  _rtcJoined (api (new_World alice)) = false
  /\ rtcJoin_refusal (prepareConfig (api (new_World alice)))
     = Some "roomId is undefined"
  /\ map obs (log (snd ((_rtcJoinAndPublish after_join_nothing ;; flush)
                          (new_World alice))))
     = [createMicrophoneAndCameraTracks None None;
        callError CallErrorEvent.rtcOccurError CallErrorCodeType.rtc
          "roomId is undefined"].
Proof.
  split; [reflexivity |]. split; [reflexivity |].
  rewrite (rtcJoin_refuses_without_room_or_token after_join_nothing
             (new_World alice) "roomId is undefined" eq_refl eq_refl eq_refl).
  reflexivity.
Defined.

Lemma nth_error_set_nth {A : Type} (l : list A) (j : nat) (c v : A) :
  nth_error l j = Some c -> nth_error (set_nth j v l) j = Some v.
Proof.
  revert j. induction l as [| h t IH]; intros [| j] H; try discriminate.
  - reflexivity.
  - cbn [set_nth nth_error] in *. apply IH, H.
Qed.

Lemma set_nth_set_nth {A : Type} (l : list A) (j : nat) (u v : A) :
  set_nth j v (set_nth j u l) = set_nth j v l.
Proof.
  revert j. induction l as [| h t IH]; intros [| j]; try reflexivity.
  cbn [set_nth]. rewrite IH. reflexivity.
Qed.

(** A fulfilled branch of the [Promise.all]: the cell counts down, and
    the last of the branches lets [_rtcJoinAndPublish] go on, unless the
    [Promise.all] is rejected already. *)
Lemma join_fulfilled_effect (j : nat) (c : Join) (w : World) :
  nth_error (joins (rt w)) j = Some c ->
  join_fulfilled j w =
  when (Nat.eqb (pred (join_waiting c)) 0 && negb (join_rejected c))
    (_rtcJoinAndPublish_joined (join_after c))
    (mkWorld (api w)
       (with_join j (mkJoin (pred (join_waiting c)) (join_rejected c)
                       (join_after c)) (rt w))
       (log w)).
Proof.
  destruct w as [a r l]. cbn [api rt log]. intros H.
  unfold join_fulfilled. prim. rewrite H. prim. reflexivity.
Qed.

Lemma rtcJoinAndPublish_joined_effect (k : AfterJoinAndPublish)
  (a : CallApi) (r : Runtime) (l : list Point) (ta tv : Track) :
  localTracks a = mkLocalTracks (Some ta) (Some tv) ->
  exists (w' : World),
    _rtcJoinAndPublish_joined k (mkWorld a r l) = (Ok tt, w')
    /\ api w' = set_localTracks (mkLocalTracks (Some ta) (Some (playing tv))) a
    /\ rt w' = suspend (await_publish k) r
    /\ map obs (log w') =
       map obs l ++ played_locally tv ++ [rtc_publish (playing tv) ta].
Proof.
  intros Ht. unfold _rtcJoinAndPublish_joined, _playLocalVideo, _rtcPublish,
    played_locally, playing.
  prim. rewrite Ht. prim.
  destruct (isPlaying tv) eqn:Ep; prim.
  - rewrite Ht. prim. eexists. split; [reflexivity |]. cbn [api rt log].
    split; [| split; [reflexivity |]].
    + rewrite <- Ht. destruct a. reflexivity.
    + rewrite map_app. reflexivity.
  - eexists. split; [reflexivity |]. cbn [api rt log].
    split; [reflexivity |]. split; [reflexivity |].
    rewrite !map_app. cbn [map obs]. rewrite <- !app_assoc. reflexivity.
Qed.

(** The two branches of the [Promise.all], fulfilled. *)
Lemma createLocalTracks_fulfilled (j : nat) (c : Join) (w : World)
  (tracks : list Track) :
  nth_error (joins (rt w)) j = Some c ->
  _createLocalTracks_settled j tracks None w =
  when (Nat.eqb (pred (join_waiting c)) 0 && negb (join_rejected c))
    (_rtcJoinAndPublish_joined (join_after c))
    (mkWorld (tracks_stored (nth_error tracks 0) (nth_error tracks 1) (api w))
       (with_join j (mkJoin (pred (join_waiting c)) (join_rejected c)
                       (join_after c)) (rt w))
       (log w)).
Proof.
  intros H. unfold _createLocalTracks_settled.
  cbv beta iota zeta delta [bind update]. cbn [api rt log].
  rewrite (join_fulfilled_effect j c) by exact H.
  reflexivity.
Qed.

Lemma rtcJoin_fulfilled (j : nat) (c : Join) (w : World) :
  nth_error (joins (rt w)) j = Some c ->
  _rtcJoin_settled j None w =
  when (Nat.eqb (pred (join_waiting c)) 0 && negb (join_rejected c))
    (_rtcJoinAndPublish_joined (join_after c))
    (mkWorld (channel_joined (api w))
       (with_join j (mkJoin (pred (join_waiting c)) (join_rejected c)
                       (join_after c)) (rt w))
       (log w ++
        [point (set_rtcJoined true (api w)) (rt w)
           (callEventChanged CallEvent.joinRTCSuccessed);
         point (set_rtcJoined true (api w)) (rt w)
           (callEventChanged CallEvent.localJoined)])).
Proof.
  intros H. unfold _rtcJoin_settled, _callEventChange.
  cbv beta iota zeta delta [bind update emit]. cbn [api rt log].
  rewrite (join_fulfilled_effect j c) by exact H.
  cbn [api rt log]. unfold point, channel_joined.
  rewrite <- !app_assoc. reflexivity.
Qed.

(** X12: the publication waits for both the local tracks and the join.
    With both pending, the fulfilment of either one publishes nothing (the
    tracks are stored, resp. the object is marked joined and emits
    [joinRTCSuccessed] and [localJoined]); the fulfilment of the other one
    then plays the local video, unless it is playing, and asks the media
    client to publish the video and the audio track.  The two orders end
    with the same object, the same runtime and the same emissions. *)
Theorem publish_waits_for_tracks_and_join
  (w : World) (j : nat) (k : AfterJoinAndPublish) (ta tv : Track) :
  nth_error (joins (rt w)) j = Some (mkJoin 2 false k) ->
  let tracks := _createLocalTracks_settled j [ta; tv] None in
  let joined := _rtcJoin_settled j None in
  let a2 :=
    tracks_stored (Some ta) (Some (playing tv)) (channel_joined (api w)) in
  let r2 := suspend (await_publish k) (with_join j (mkJoin 0 false k) (rt w)) in
  let emitted :=
    map obs (log w) ++
    [callEventChanged CallEvent.joinRTCSuccessed;
     callEventChanged CallEvent.localJoined] ++
    played_locally tv ++ [rtc_publish (playing tv) ta] in
  tracks w =
    (Ok tt,
     mkWorld (tracks_stored (Some ta) (Some tv) (api w))
       (with_join j (mkJoin 1 false k) (rt w)) (log w))
  /\ joined w =
     (Ok tt,
      mkWorld (channel_joined (api w))
        (with_join j (mkJoin 1 false k) (rt w))
        (log w ++
         [point (set_rtcJoined true (api w)) (rt w)
            (callEventChanged CallEvent.joinRTCSuccessed);
          point (set_rtcJoined true (api w)) (rt w)
            (callEventChanged CallEvent.localJoined)]))
  /\ (fst ((tracks ;; joined) w) = Ok tt
      /\ api (snd ((tracks ;; joined) w)) = a2
      /\ rt (snd ((tracks ;; joined) w)) = r2
      /\ map obs (log (snd ((tracks ;; joined) w))) = emitted)
  /\ (fst ((joined ;; tracks) w) = Ok tt
      /\ api (snd ((joined ;; tracks) w)) = a2
      /\ rt (snd ((joined ;; tracks) w)) = r2
      /\ map obs (log (snd ((joined ;; tracks) w))) = emitted).
Proof.
  intros H. cbv zeta.
  assert (ET : _createLocalTracks_settled j [ta; tv] None w =
               (Ok tt,
                mkWorld (tracks_stored (Some ta) (Some tv) (api w))
                  (with_join j (mkJoin 1 false k) (rt w)) (log w))).
  { rewrite (createLocalTracks_fulfilled j _ w [ta; tv] H). reflexivity. }
  assert (EJ : _rtcJoin_settled j None w =
               (Ok tt,
                mkWorld (channel_joined (api w))
                  (with_join j (mkJoin 1 false k) (rt w))
                  (log w ++
                   [point (set_rtcJoined true (api w)) (rt w)
                      (callEventChanged CallEvent.joinRTCSuccessed);
                    point (set_rtcJoined true (api w)) (rt w)
                      (callEventChanged CallEvent.localJoined)]))).
  { rewrite (rtcJoin_fulfilled j _ w H). reflexivity. }
  split; [exact ET |]. split; [exact EJ |].
  assert (Hcell : forall r,
            joins r = joins (rt w) ->
            nth_error (joins (with_join j (mkJoin 1 false k) r)) j
            = Some (mkJoin 1 false k)).
  { intros r Hr. unfold with_join. cbn [joins]. rewrite Hr.
    apply (nth_error_set_nth _ _ _ _ H). }
  split.
  - unfold bind. rewrite ET.
    rewrite (rtcJoin_fulfilled j (mkJoin 1 false k))
      by (apply Hcell; reflexivity).
    cbn [join_waiting join_rejected join_after pred Nat.eqb negb andb when
         api rt log].
    match goal with
    | |- context [_rtcJoinAndPublish_joined k (mkWorld ?A ?R ?L)] =>
        destruct (rtcJoinAndPublish_joined_effect k A R L ta tv eq_refl)
          as (w' & E & Ha & Hr & Hl)
    end.
    rewrite E. cbn [fst snd]. rewrite Ha, Hr, Hl.
    split; [reflexivity |]. split; [reflexivity |]. split.
    + unfold with_join, suspend. cbn [timers nextTimer awaits joins jobs observed].
      rewrite set_nth_set_nth. reflexivity.
    + rewrite map_app. cbn [map obs point]. rewrite <- !app_assoc. reflexivity.
  - unfold bind. rewrite EJ.
    rewrite (createLocalTracks_fulfilled j (mkJoin 1 false k))
      by (apply Hcell; reflexivity).
    cbn [join_waiting join_rejected join_after pred Nat.eqb negb andb when
         api rt log nth_error].
    match goal with
    | |- context [_rtcJoinAndPublish_joined k (mkWorld ?A ?R ?L)] =>
        destruct (rtcJoinAndPublish_joined_effect k A R L ta tv eq_refl)
          as (w' & E & Ha & Hr & Hl)
    end.
    rewrite E. cbn [fst snd]. rewrite Ha, Hr, Hl.
    split; [reflexivity |]. split; [reflexivity |]. split.
    + unfold with_join, suspend. cbn [timers nextTimer awaits joins jobs observed].
      rewrite set_nth_set_nth. reflexivity.
    + rewrite map_app. cbn [map obs point]. rewrite <- !app_assoc. reflexivity.
Qed.

Lemma publish_waits_for_tracks_and_join_witness :
  nth_error (joins (rt w_calling)) 0 = Some (mkJoin 2 false after_join_nothing)
  /\ map obs
       (log (snd ((_createLocalTracks_settled 0 [mkTrack 1 false; mkTrack 2 false]
                     None ;;
                   _rtcJoin_settled 0 None) w_calling)))
     = map obs (log w_calling) ++
       [callEventChanged CallEvent.joinRTCSuccessed;
        callEventChanged CallEvent.localJoined;
        innerHTML_clear LOCAL_VIEW_ELEMENT;
        track_play (mkTrack 2 false) (Some LOCAL_VIEW_ELEMENT);
        rtc_publish (mkTrack 2 true) (mkTrack 1 false)].
Proof.
  assert (H : nth_error (joins (rt w_calling)) 0
              = Some (mkJoin 2 false after_join_nothing))
    by (vm_compute; reflexivity).
  split; [exact H |].
  destruct (publish_waits_for_tracks_and_join w_calling 0 after_join_nothing
              (mkTrack 1 false) (mkTrack 2 false) H)
    as (_ & _ & (_ & _ & _ & Hl) & _).
  rewrite Hl. reflexivity.
Defined.

Lemma with_join_twice (j : nat) (c1 c2 : Join) (r : Runtime) :
  with_join j c2 (with_join j c1 r) = with_join j c2 r.
Proof.
  unfold with_join. cbn [timers nextTimer awaits joins jobs observed].
  rewrite set_nth_set_nth. reflexivity.
Qed.

(** A rejected branch of the [Promise.all], in a turn of its own. *)
Lemma join_rejected_now (j : nat) (c : Join) (w : World) (e : Error) :
  nth_error (joins (rt w)) j = Some c ->
  join_rejected_with true j e w =
  if join_rejected c then (Ok tt, w)
  else
    (Ok tt,
     mkWorld (api w)
       (with_join j (mkJoin (join_waiting c) true (join_after c)) (rt w))
       (log w ++
        [point (api w) (rt w)
           (callError CallErrorEvent.rtcOccurError CallErrorCodeType.rtc e)])).
Proof.
  destruct w as [a r l]. cbn [api rt log]. intros H.
  unfold join_rejected_with, _rtcJoinAndPublish_catch, _callError. prim.
  rewrite H. prim. destruct (join_rejected c); reflexivity.
Qed.

(** X13: a failure of the media pipeline is reported once and stops the
    publication, nothing more.  When the join or the creation of the
    tracks fails, [callError(rtcOccurError, rtc)] is emitted with the
    error and the object is not touched (the state stays what it was).
    Whatever the other request then does is not reported and publishes
    nothing: if it fails, nothing happens; if it succeeds, the tracks are
    stored, resp. the object is marked joined and emits
    [joinRTCSuccessed] and [localJoined]. *)
Theorem media_failure_is_reported_once
  (w : World) (j : nat) (k : AfterJoinAndPublish) (e : Error) :
  nth_error (joins (rt w)) j = Some (mkJoin 2 false k) ->
  let w1 :=
    mkWorld (api w) (with_join j (mkJoin 2 true k) (rt w))
      (log w ++
       [point (api w) (rt w)
          (callError CallErrorEvent.rtcOccurError CallErrorCodeType.rtc e)]) in
  _rtcJoin_settled j (Some e) w = (Ok tt, w1)
  /\ (forall tracks, _createLocalTracks_settled j tracks (Some e) w = (Ok tt, w1))
  /\ (forall e' tracks,
        _createLocalTracks_settled j tracks (Some e') w1 = (Ok tt, w1)
        /\ _rtcJoin_settled j (Some e') w1 = (Ok tt, w1))
  /\ (forall tracks,
        _createLocalTracks_settled j tracks None w1 =
        (Ok tt,
         mkWorld (tracks_stored (nth_error tracks 0) (nth_error tracks 1) (api w))
           (with_join j (mkJoin 1 true k) (rt w)) (log w1)))
  /\ _rtcJoin_settled j None w1 =
     (Ok tt,
      mkWorld (channel_joined (api w))
        (with_join j (mkJoin 1 true k) (rt w))
        (log w1 ++
         [point (set_rtcJoined true (api w)) (rt w1)
            (callEventChanged CallEvent.joinRTCSuccessed);
          point (set_rtcJoined true (api w)) (rt w1)
            (callEventChanged CallEvent.localJoined)])).
Proof.
  intros H. cbv zeta.
  assert (Hcell : nth_error (joins (with_join j (mkJoin 2 true k) (rt w))) j
                  = Some (mkJoin 2 true k)).
  { unfold with_join. cbn [joins]. apply (nth_error_set_nth _ _ _ _ H). }
  split; [| split; [| split; [| split]]].
  - unfold _rtcJoin_settled. rewrite (join_rejected_now j _ w e H). reflexivity.
  - intros tracks. unfold _createLocalTracks_settled.
    rewrite (join_rejected_now j _ w e H). reflexivity.
  - intros e' tracks. unfold _createLocalTracks_settled, _rtcJoin_settled.
    rewrite (join_rejected_now j (mkJoin 2 true k)) by exact Hcell.
    split; reflexivity.
  - intros tracks.
    rewrite (createLocalTracks_fulfilled j (mkJoin 2 true k)) by exact Hcell.
    cbn [join_waiting join_rejected join_after pred Nat.eqb negb andb when ret
         api rt log].
    rewrite with_join_twice. reflexivity.
  - rewrite (rtcJoin_fulfilled j (mkJoin 2 true k)) by exact Hcell.
    cbn [join_waiting join_rejected join_after pred Nat.eqb negb andb when ret
         api rt log].
    rewrite with_join_twice. reflexivity.
Qed.

Lemma media_failure_is_reported_once_witness :
  nth_error (joins (rt w_calling)) 0 = Some (mkJoin 2 false after_join_nothing)
  /\ state (api (snd (_rtcJoin_settled 0 (@Some Error "join failed") w_calling)))
     = CallStateType.calling
  /\ map obs (log (snd (_rtcJoin_settled 0 (@Some Error "join failed") w_calling)))
     = map obs (log w_calling) ++
       [callError CallErrorEvent.rtcOccurError CallErrorCodeType.rtc
          "join failed"].
Proof.
  assert (H : nth_error (joins (rt w_calling)) 0
              = Some (mkJoin 2 false after_join_nothing))
    by (vm_compute; reflexivity).
  split; [exact H |].
  destruct (media_failure_is_reported_once w_calling 0 after_join_nothing
              "join failed" H) as (E & _).
  rewrite E. cbn [snd api log]. split; [vm_compute; reflexivity |].
  rewrite map_app. reflexivity.
Defined.

(** ** A call that is cancelled *)

(** The end of a turn: the reactions that fell due emit their
    [callError]; nothing else changes. *)
Lemma run_jobs_effect (js : list Job) (a : CallApi) (r : Runtime) (l : list Point) :
  exists errs : list Point,
    run_jobs js (mkWorld a r l) = (Ok tt, mkWorld a r (l ++ errs))
    /\ Forall (is_callError_of a) errs
    /\ (js = [] -> errs = []).
Proof.
  revert l. induction js as [| [e k] js IH]; intros l.
  - exists []. rewrite app_nil_r. repeat split. constructor.
  - cbn [run_jobs run_job]. unfold _rtcJoinAndPublish_catch, _callError.
    cbv beta iota delta [bind attempt emit]. cbn [snd api rt log].
    destruct (IH (l ++ [mkPoint a (timers r)
                          (callError CallErrorEvent.rtcOccurError
                             CallErrorCodeType.rtc e)]))
      as (errs & E & Herrs & _).
    rewrite E. eexists. split; [rewrite <- app_assoc; reflexivity |].
    split; [| discriminate].
    constructor; [split; reflexivity | exact Herrs].
Qed.

Lemma flush_effect (w : World) :
  exists errs : list Point,
    flush w =
      (Ok tt,
       mkWorld (api w)
         (mkRuntime (timers (rt w)) (nextTimer (rt w)) (awaits (rt w))
            (joins (rt w)) [] (observed (rt w)))
         (log w ++ errs))
    /\ Forall (is_callError_of (api w)) errs
    /\ (jobs (rt w) = [] -> errs = []).
Proof.
  destruct w as [a r l]. unfold flush.
  cbv beta iota delta [bind runtime update_rt]. cbn [api rt log].
  apply run_jobs_effect.
Qed.

Lemma step_effect (w : World) (i : Input) :
  exists errs : list Point,
    let w' := snd (handle i w) in
    step w i =
      mkWorld (api w')
        (mkRuntime (timers (rt w')) (nextTimer (rt w')) (awaits (rt w'))
           (joins (rt w')) [] (observed (rt w')))
        (log w' ++ errs)
    /\ Forall (is_callError_of (api w')) errs
    /\ (jobs (rt w') = [] -> errs = []).
Proof.
  cbv zeta. unfold step, exec. destruct (handle i w) as [res w'].
  cbn [snd]. destruct (flush_effect w') as (errs & E & H).
  exists errs. rewrite E. cbn [snd]. split; [reflexivity | exact H].
Qed.

Lemma call_prepared_object (w : World) (rid : UserId) (ct : option CallType.t)
  (uuid : string) :
  state (api w) = CallStateType.prepared ->
  exists (tm : option nat) (r1 : Runtime) (l1 : list Point),
    call rid ct uuid w =
    (Ok tt, mkWorld (set_cancelCallTimer tm (calling_api rid ct uuid (api w))) r1 l1).
Proof.
  destruct w as [a r l]. cbn [api]. intros Hs.
  unfold call, _callStateChange, _callEventChange, calling_api. prim.
  rewrite Hs. cbn [CallStateType.eqb negb]. prim.
  rewrite Hs. cbn [CallStateType.eqb]. prim.
  match goal with
  | |- context [_autoCancelCall true ?W] =>
      destruct (autoCancelCall_effect true W) as (tm & ts & n & Hac & _)
  end.
  rewrite Hac. clear Hac.
  match goal with
  | |- context [_rtcJoinAndPublish after_join_nothing ?W] =>
      destruct (rtcJoinAndPublish_begins after_join_nothing W)
        as (r' & media & joining & Hjp & _)
  end.
  rewrite Hjp. clear Hjp. rewrite publishMessage_effect.
  cbn [api rt log]. exists tm. eexists. eexists. reflexivity.
Qed.

(** X15: a call that is cancelled before the channel is joined leaves no
    call data behind.  From any state [prepared] of a run in which the
    channel is not joined, [call] followed by [cancelCall] ends in
    [prepared] with the call id empty, no peer, no tracks, no timer handle
    and no pending timer, the configuration being what it was; and the
    [Cancel] that was sent carries the call id of the call, the
    [External] mark, and goes to the callee. *)
Theorem cancelled_call_leaves_no_call_data (config : ICallConfig) (w : World)
  (rid : UserId) (ct : option CallType.t) (uuid : string) :
  reachable config w ->
  state (api w) = CallStateType.prepared ->
  _rtcJoined (api w) = false ->
  let w2 := run w [do_call rid ct uuid; do_cancelCall] in
  state (api w2) = CallStateType.prepared
  /\ getCallId (api w2) = ""
  /\ remoteUserId (api w2) = 0
  /\ localTracks (api w2) = mkLocalTracks None None
  /\ remoteTracks (api w2) = mkRemoteTracks None None
  /\ _rtcJoined (api w2) = false
  /\ _receiveRemoteFirstFrameDecoded (api w2) = false
  /\ _cancelCallTimer (api w2) = None
  /\ timers (rt w2) = []
  /\ prepareConfig (api w2) = prepareConfig (api w)
  /\ callConfig (api w2) = callConfig (api w)
  /\ In (sendMessage rid
           (ICallMessage.mk uuid (userId (callConfig (api w))) rid None
              CallAction.Cancel None None (Some RejectByInternal.External)))
        (map obs (log w2)).
Proof.
  intros Hr Hs Hj. cbv zeta. cbn [run fold_left].
  set (w1 := step w (do_call rid ct uuid)).
  assert (Hr1 : reachable config w1) by (apply reachable_step, Hr).
  destruct (timer_invariant config w1 Hr1) as [Hok _].
  destruct (step_effect w (do_call rid ct uuid)) as (errs1 & E1 & _).
  cbv zeta in E1. cbn [handle] in E1. fold w1 in E1.
  destruct (call_prepared_object w rid ct uuid Hs) as (tm & r1 & l1 & Ec).
  rewrite Ec in E1. cbn [snd api rt log] in E1.
  destruct (step_effect w1 do_cancelCall) as (errs2 & E2 & _).
  cbv zeta in E2. cbn [handle] in E2. rewrite E2. clear E2.
  rewrite cancelCall_ends_locally.
  assert (Hj1 : _rtcJoined
                  (api (ended_locally w1 CallStateReason.localCancel None
                          CallEvent.localCancelled (remoteUserId (api w1))
                          (ICallMessage.mk (getCallId (api w1))
                             (userId (callConfig (api w1)))
                             (remoteUserId (api w1)) None CallAction.Cancel
                             None None (Some RejectByInternal.External))))
                = false).
  { rewrite E1. cbn. exact Hj. }
  destruct (destory_not_joined after_destory_nothing _ Hj1)
    as (cleanup & Ed & _).
  rewrite Ed. clear Ed Hj1.
  cbn [after_destory ret snd api rt log timers].
  assert (Ht : timers
                 (reset_rt
                    (api (ended_locally w1 CallStateReason.localCancel None
                            CallEvent.localCancelled (remoteUserId (api w1))
                            (ICallMessage.mk (getCallId (api w1))
                               (userId (callConfig (api w1)))
                               (remoteUserId (api w1)) None CallAction.Cancel
                               None None (Some RejectByInternal.External))))
                    (rt (ended_locally w1 CallStateReason.localCancel None
                           CallEvent.localCancelled (remoteUserId (api w1))
                           (ICallMessage.mk (getCallId (api w1))
                              (userId (callConfig (api w1)))
                              (remoteUserId (api w1)) None CallAction.Cancel
                              None None (Some RejectByInternal.External)))))
               = []).
  { apply timer_ok_reset_rt. unfold ended_locally, suspend.
    cbn [api rt timers].
    apply (timer_ok_same_handle (api w1)); [reflexivity | exact Hok]. }
  rewrite Ht.
  unfold ended_locally. cbn [api rt log]. rewrite E1.
  cbn [api rt log]. unfold reset_api, calling_api. prim.
  repeat (split; [reflexivity |]).
  rewrite !map_app. apply in_or_app. left. apply in_or_app. left.
  apply in_or_app. right. apply in_or_app. right.
  right. left. reflexivity.
Qed.

Lemma cancelled_call_leaves_no_call_data_witness :
  reachable alice w_prepared
  /\ state (api w_prepared) = CallStateType.prepared
  /\ _rtcJoined (api w_prepared) = false
  /\ getCallId (api (run w_prepared [do_call 2 None the_uuid; do_cancelCall]))
     = ""
  /\ timers (rt (run w_prepared [do_call 2 None the_uuid; do_cancelCall])) = [].
Proof.
  assert (Hs : state (api w_prepared) = CallStateType.prepared)
    by (vm_compute; reflexivity).
  assert (Hj : _rtcJoined (api w_prepared) = false) by (vm_compute; reflexivity).
  split; [exact reachable_w_prepared |]. split; [exact Hs |].
  split; [exact Hj |].
  destruct (cancelled_call_leaves_no_call_data alice w_prepared 2 None the_uuid
              reachable_w_prepared Hs Hj)
    as (_ & Hid & _ & _ & _ & _ & _ & _ & Ht & _).
  split; [exact Hid | exact Ht].
Defined.

(** ** Requests in flight when the call is cancelled *)

Lemma nth_error_middle {A : Type} (l rest : list A) (x : A) :
  nth_error (l ++ x :: rest) (List.length l) = Some x.
Proof. induction l as [| h t IH]; [reflexivity | exact IH]. Qed.

Lemma remove_nth_middle {A : Type} (l rest : list A) (x : A) :
  remove_nth (List.length l) (l ++ x :: rest) = l ++ rest.
Proof.
  induction l as [| h t IH]; [reflexivity |].
  cbn [List.length app remove_nth]. rewrite IH. reflexivity.
Qed.

Lemma reset_rt_keeps (a : CallApi) (r : Runtime) :
  awaits (reset_rt a r) = awaits r /\ joins (reset_rt a r) = joins r
  /\ jobs (reset_rt a r) = jobs r /\ observed (reset_rt a r) = observed r
  /\ nextTimer (reset_rt a r) = nextTimer r.
Proof. unfold reset_rt. destruct (_cancelCallTimer a); repeat split. Qed.

(** [_rtcJoinAndPublish], up to its first [await], when the channel is
    not joined and [roomId] and [rtcToken] are there. *)
Lemma rtcJoinAndPublish_starts (k : AfterJoinAndPublish) (w : World) :
  _rtcJoined (api w) = false ->
  rtcJoin_refusal (prepareConfig (api w)) = None ->
  exists media : list Point,
    _rtcJoinAndPublish k w =
    (Ok tt,
     mkWorld (api w)
       (mkRuntime (timers (rt w)) (nextTimer (rt w))
          (awaits (rt w) ++
           [await_createTracks (List.length (joins (rt w)));
            await_join (List.length (joins (rt w)))])
          (joins (rt w) ++ [mkJoin 2 false k]) (jobs (rt w))
          (observed (rt w)))
       (log w ++ media)).
Proof.
  destruct w as [a r l]. cbn [api rt log]. intros Hj Hok.
  unfold rtcJoin_refusal in Hok.
  unfold _rtcJoinAndPublish, _createLocalTracks, _rtcJoin, _callEventChange.
  prim. rewrite Hj. prim.
  destruct (truthy_str (roomId (prepareConfig a))); cbn [negb] in Hok |- *;
    [| discriminate].
  destruct (truthy_str (rtcToken (prepareConfig a))); cbn [negb] in Hok |- *;
    [| discriminate].
  prim. eexists. rewrite <- !app_assoc. cbn [app]. reflexivity.
Qed.

Lemma call_prepared_world (w : World) (rid : UserId) (ct : option CallType.t)
  (uuid : string) :
  state (api w) = CallStateType.prepared ->
  _rtcJoined (api w) = false ->
  rtcJoin_refusal (prepareConfig (api w)) = None ->
  exists (tm : option nat) (ts : list Timer) (n : nat) (l1 : list Point),
    call rid ct uuid w =
    (Ok tt,
     mkWorld (set_cancelCallTimer tm (calling_api rid ct uuid (api w)))
       (mkRuntime ts n
          (awaits (rt w) ++
           [await_createTracks (List.length (joins (rt w)));
            await_join (List.length (joins (rt w)));
            await_sendMessage after_send_call])
          (joins (rt w) ++ [mkJoin 2 false after_join_nothing])
          (jobs (rt w)) (observed (rt w)))
       l1).
Proof.
  destruct w as [a r l]. cbn [api rt]. intros Hs Hj Hok.
  unfold call, _callStateChange, _callEventChange, calling_api. prim.
  rewrite Hs. cbn [CallStateType.eqb negb]. prim.
  rewrite Hs. cbn [CallStateType.eqb]. prim.
  match goal with
  | |- context [_autoCancelCall true ?W] =>
      destruct (autoCancelCall_effect true W) as (tm & ts & n & Hac & _)
  end.
  rewrite Hac. clear Hac. cbn [api rt log awaits joins jobs observed].
  match goal with
  | |- context [_rtcJoinAndPublish after_join_nothing ?W] =>
      destruct (rtcJoinAndPublish_starts after_join_nothing W Hj Hok)
        as (media & Hjp)
  end.
  rewrite Hjp. clear Hjp. rewrite publishMessage_effect.
  cbn [api rt log timers nextTimer awaits joins jobs observed].
  exists tm, ts, n. eexists. unfold suspend.
  cbn [timers nextTimer awaits joins jobs observed].
  rewrite <- !app_assoc. cbn [app]. reflexivity.
Qed.

Lemma settle_handle (w : World) (n : nat) (a : Await) (s : Settled) :
  nth_error (awaits (rt w)) n = Some a ->
  handle (on_settled n s) w =
  resume a s
    (mkWorld (api w)
       (mkRuntime (timers (rt w)) (nextTimer (rt w))
          (remove_nth n (awaits (rt w))) (joins (rt w)) (jobs (rt w))
          (observed (rt w)))
       (log w)).
Proof.
  destruct w as [a0 r l]. cbn [api rt log]. intros H.
  unfold handle. prim. rewrite H. prim. reflexivity.
Qed.

(** The two fulfilments, as turns of the machine: with the requests for
    the tracks and for the join pending at the positions [length aw] and
    next, the tracks arriving first. *)
Lemma pipeline_completes (a2 : CallApi) (ts : list Timer) (nt : nat)
  (aw rest : list Await) (js : list Join) (ob : list nat) (l : list Point)
  (k : AfterJoinAndPublish) (ta tv : Track) :
  let j := List.length js in
  let w2 :=
    mkWorld a2
      (mkRuntime ts nt (aw ++ await_createTracks j :: await_join j :: rest)
         (js ++ [mkJoin 2 false k]) [] ob) l in
  let w4 :=
    run w2 [on_settled (List.length aw) (fulfilled [ta; tv]);
            on_settled (List.length aw) (fulfilled [])] in
  api w4 = tracks_stored (Some ta) (Some (playing tv)) (channel_joined a2)
  /\ awaits (rt w4) = aw ++ rest ++ [await_publish k]
  /\ map obs (log w4) =
     map obs l ++
     [callEventChanged CallEvent.joinRTCSuccessed;
      callEventChanged CallEvent.localJoined] ++
     played_locally tv ++ [rtc_publish (playing tv) ta].
Proof.
  cbv zeta. cbn [run fold_left].
  match goal with
  | |- context [step ?W (on_settled ?n (fulfilled [ta; tv]))] =>
      destruct (step_effect W (on_settled n (fulfilled [ta; tv])))
        as (errs3 & E3 & _ & Hn3);
      set (w3 := step W (on_settled n (fulfilled [ta; tv]))) in *
  end.
  cbv zeta in E3, Hn3.
  rewrite (settle_handle _ _ (await_createTracks (List.length js)))
    in E3, Hn3 by (cbn [rt awaits]; apply nth_error_middle).
  cbn [resume failure_of tracks_of api rt log timers nextTimer awaits joins
       jobs observed] in E3, Hn3.
  rewrite (createLocalTracks_fulfilled _ (mkJoin 2 false k)) in E3, Hn3
    by (cbn [rt joins]; apply nth_error_snoc).
  cbn [join_waiting join_rejected join_after pred Nat.eqb negb andb when ret
       snd api rt log nth_error] in E3, Hn3.
  unfold with_join in E3, Hn3.
  cbn [timers nextTimer awaits joins jobs observed] in E3, Hn3.
  rewrite (Hn3 eq_refl), app_nil_r in E3. clear Hn3.
  rewrite remove_nth_middle, set_nth_snoc in E3.
  destruct (step_effect w3 (on_settled (List.length aw) (fulfilled [])))
    as (errs4 & E4 & _ & Hn4).
  cbv zeta in E4, Hn4.
  rewrite (settle_handle _ _ (await_join (List.length js)))
    in E4, Hn4 by (rewrite E3; cbn [rt awaits]; apply nth_error_middle).
  rewrite E3 in E4, Hn4.
  cbn [resume failure_of tracks_of api rt log timers nextTimer awaits joins
       jobs observed] in E4, Hn4.
  rewrite (rtcJoin_fulfilled _ (mkJoin 1 false k)) in E4, Hn4
    by (cbn [rt joins]; apply nth_error_snoc).
  cbn [join_waiting join_rejected join_after pred Nat.eqb negb andb when
       api rt log] in E4, Hn4.
  match type of E4 with
  | context [_rtcJoinAndPublish_joined k (mkWorld ?A ?R ?L)] =>
      destruct (rtcJoinAndPublish_joined_effect k A R L ta tv eq_refl)
        as (w' & E & Ha & Hr & Hl)
  end.
  rewrite E in E4, Hn4. cbn [snd] in E4, Hn4.
  rewrite Ha, Hr in E4. rewrite Hr in Hn4.
  unfold with_join, suspend in E4, Hn4.
  cbn [timers nextTimer awaits joins jobs observed] in E4, Hn4.
  rewrite (Hn4 eq_refl), app_nil_r in E4. clear Hn4.
  rewrite E3, E4. cbn [api rt log awaits].
  split; [reflexivity |]. split.
  - rewrite remove_nth_middle, <- app_assoc. reflexivity.
  - rewrite Hl, map_app. cbn [map obs point]. rewrite <- !app_assoc.
    reflexivity.
Qed.

Lemma call_then_cancel_world (w : World) (rid : UserId)
  (ct : option CallType.t) (uuid : string) :
  state (api w) = CallStateType.prepared ->
  _rtcJoined (api w) = false ->
  rtcJoin_refusal (prepareConfig (api w)) = None ->
  exists (tm : option nat) (ts : list Timer) (nt : nat) (l2 : list Point),
    run w [do_call rid ct uuid; do_cancelCall] =
    mkWorld
      (reset_api
         (set_state CallStateType.prepared
            (set_cancelCallTimer tm (calling_api rid ct uuid (api w)))))
      (mkRuntime ts nt
         (awaits (rt w) ++
          await_createTracks (List.length (joins (rt w)))
          :: await_join (List.length (joins (rt w)))
          :: [await_sendMessage after_send_call;
              await_sendMessage after_send_nothing])
         (joins (rt w) ++ [mkJoin 2 false after_join_nothing]) []
         (observed (rt w)))
      l2.
Proof.
  intros Hs Hj Hok. cbn [run fold_left].
  destruct (step_effect w (do_call rid ct uuid)) as (errs1 & E1 & _).
  cbv zeta in E1. cbn [handle] in E1.
  destruct (call_prepared_world w rid ct uuid Hs Hj Hok)
    as (tm & ts & n & l1 & Ec).
  rewrite Ec in E1. cbn [snd api rt log timers nextTimer awaits joins jobs
                          observed] in E1.
  rewrite E1. clear E1 Ec.
  match goal with
  | |- context [step ?W do_cancelCall] =>
      set (w1 := W);
      pose proof (step_effect w1 do_cancelCall) as HH
  end.
  cbv zeta in HH. cbn [handle] in HH. destruct HH as (errs2 & E2 & _).  rewrite E2. clear E2.
  rewrite cancelCall_ends_locally.
  match goal with
  | |- context [destory after_destory_nothing ?W] =>
      assert (Hj1 : _rtcJoined (api W) = false) by (cbn; exact Hj);
      destruct (destory_not_joined after_destory_nothing W Hj1)
        as (cleanup & Ed & _)
  end.
  rewrite Ed. clear Ed Hj1.
  cbn [after_destory ret snd api rt log].
  match goal with
  | |- context [reset_rt ?A ?R] =>
      destruct (reset_rt_keeps A R) as (Haw & Hjs & _ & Hob & _);
      rewrite Haw, Hjs, Hob
  end.
  unfold ended_locally, suspend, w1.
  cbn [api rt log timers nextTimer awaits joins jobs observed].
  exists tm. eexists. eexists. eexists.
  rewrite <- !app_assoc. cbn [app]. reflexivity.
Qed.

Lemma nth_error_middle_next {A : Type} (l rest : list A) (x y : A) :
  nth_error (l ++ x :: y :: rest) (S (List.length l)) = Some y.
Proof. induction l as [| h t IH]; [reflexivity | exact IH]. Qed.

(** X16: [cancelCall] does not withdraw the requests of the call's media
    pipeline.  After [call] and [cancelCall] in a row (channel not joined,
    [roomId] and [rtcToken] there) the requests for the tracks and for the
    join are still pending; when they are fulfilled the object, in state
    [prepared] with no peer and no call id, stores the tracks, is marked
    joined, plays the local video and asks the media client to publish. *)
Theorem cancelCall_leaves_the_media_pipeline_running (w : World)
  (rid : UserId) (ct : option CallType.t) (uuid : string) (ta tv : Track) :
  state (api w) = CallStateType.prepared ->
  _rtcJoined (api w) = false ->
  rtcJoin_refusal (prepareConfig (api w)) = None ->
  let n := List.length (awaits (rt w)) in
  let j := List.length (joins (rt w)) in
  let w2 := run w [do_call rid ct uuid; do_cancelCall] in
  let w4 := run w2 [on_settled n (fulfilled [ta; tv]);
                    on_settled n (fulfilled [])] in
  nth_error (awaits (rt w2)) n = Some (await_createTracks j)
  /\ nth_error (awaits (rt w2)) (S n) = Some (await_join j)
  /\ state (api w4) = CallStateType.prepared
  /\ remoteUserId (api w4) = 0
  /\ getCallId (api w4) = ""
  /\ _rtcJoined (api w4) = true
  /\ localTracks (api w4) = mkLocalTracks (Some ta) (Some (playing tv))
  /\ map obs (log w4) =
     map obs (log w2) ++
     [callEventChanged CallEvent.joinRTCSuccessed;
      callEventChanged CallEvent.localJoined] ++
     played_locally tv ++ [rtc_publish (playing tv) ta]
  /\ In (await_publish after_join_nothing) (awaits (rt w4)).
Proof.
  intros Hs Hj Hok. cbv zeta.
  destruct (call_then_cancel_world w rid ct uuid Hs Hj Hok)
    as (tm & ts & nt & l2 & E2).
  rewrite E2. clear E2.
  match goal with
  | |- context [run (mkWorld ?A (mkRuntime _ _ (?AW ++ _ :: _ :: ?REST) _ _ ?OB) _) _] =>
      destruct (pipeline_completes A ts nt AW REST (joins (rt w)) OB l2
                  after_join_nothing ta tv) as (Ha & Haw & Hl)
  end.
  cbv zeta in Ha, Haw, Hl.
  cbn [api rt log awaits].
  split; [apply nth_error_middle |].
  split.
  { apply nth_error_middle_next. }
  rewrite Ha, Haw, Hl.
  unfold tracks_stored, channel_joined, reset_api, calling_api. prim.
  repeat (split; [reflexivity |]).
  apply in_or_app. right. apply in_or_app. right. left. reflexivity.
Qed.

Lemma cancelCall_leaves_the_media_pipeline_running_witness :
  state (api w_prepared) = CallStateType.prepared
  /\ _rtcJoined (api w_prepared) = false
  /\ rtcJoin_refusal (prepareConfig (api w_prepared)) = None
  /\ _rtcJoined
       (api (run (run w_prepared [do_call 2 None the_uuid; do_cancelCall])
               [on_settled (List.length (awaits (rt w_prepared)))
                  (fulfilled [mkTrack 1 false; mkTrack 2 false]);
                on_settled (List.length (awaits (rt w_prepared)))
                  (fulfilled [])]))
     = true.
Proof.
  assert (Hs : state (api w_prepared) = CallStateType.prepared)
    by (vm_compute; reflexivity).
  assert (Hj : _rtcJoined (api w_prepared) = false) by (vm_compute; reflexivity).
  assert (Hok : rtcJoin_refusal (prepareConfig (api w_prepared)) = None)
    by (vm_compute; reflexivity).
  split; [exact Hs |]. split; [exact Hj |]. split; [exact Hok |].
  destruct (cancelCall_leaves_the_media_pipeline_running w_prepared 2 None
              the_uuid (mkTrack 1 false) (mkTrack 2 false) Hs Hj Hok)
    as (_ & _ & _ & _ & _ & H & _).
  exact H.
Defined.

(** ** The remote audio track *)

(** X17: the remote audio is played once, whichever comes first, its
    subscription or the first remote video frame.  In state [connecting]
    with both views configured, let the subscription to the peer's audio
    track (not yet playing) be fulfilled and let the first frame be
    decoded: if the subscription comes first the track is only stored,
    and [_checkAppendView], run by the first-frame handler, plays it at
    its end; if the frame comes first the object is [connected] when the
    subscription is fulfilled, which then plays the track at once.  Both
    orders leave the same object and the same runtime and make the same
    emissions, which end with the one [play] of the audio track. *)
Theorem remote_audio_is_played_in_either_order (w : World) (t : Track)
  (lv rv : HTMLElement) :
  state (api w) = CallStateType.connecting ->
  localView (prepareConfig (api w)) = Some lv ->
  remoteView (prepareConfig (api w)) = Some rv ->
  remote_audioTrack (remoteTracks (api w)) = None ->
  isPlaying t = false ->
  let subscribed := user_published_settled media_audio (Some t) None in
  let first := snd (_handleRemoteFirstFrameDecoded (snd (subscribed w))) in
  let second := snd (subscribed (snd (_handleRemoteFirstFrameDecoded w))) in
  api first = api second
  /\ rt first = rt second
  /\ map obs (log first) = map obs (log second)
  /\ state (api first) = CallStateType.connected
  /\ remote_audioTrack (remoteTracks (api first))
     = Some (mkTrack (trackId t) true)
  /\ map obs (log (snd (subscribed w))) = map obs (log w)
  /\ exists before : list Obs,
       map obs (log first) = map obs (log w) ++ before ++ [track_play t None]
       /\ ~ In (track_play t None) before.
Proof.
  destruct w as [a r l]. cbn [api rt log].
  intros Hs Hlv Hrv Ha Hp. cbv zeta.
  destruct t as [tid tp]. cbn [isPlaying] in Hp. subst tp.
  rewrite !handleRemoteFirstFrameDecoded_unfold. cbv zeta.
  unfold user_published_settled. prim. rewrite Hs. cbn [CallStateType.eqb].
  prim.
  unfold _checkAppendView, _callStateChange,
    _playLocalVideo, _palyRemoteVideo, _playRemoteAudio.
  destruct (local_videoTrack (localTracks a)) as [[? []] |] eqn:El;
    destruct (remote_videoTrack (remoteTracks a)) as [[? []] |] eqn:Er;
    repeat (prim; rewrite ?Hs, ?Hlv, ?Hrv, ?Ha, ?El, ?Er, ?orb_true_r;
            cbn [CallStateType.eqb negb]).
  all: rewrite ?map_app; cbn [map obs]; rewrite <- ?app_assoc; cbn [List.app].
  all: repeat (split; [reflexivity |]).
  all: match goal with
       | |- exists before, ?L ++ ?X = _ /\ _ => exists (removelast X)
       end.
  all: split; [reflexivity |].
  all: cbn [removelast]; intros H; cbn in H;
    repeat (destruct H as [H | H]; [discriminate |]); exact H.
Qed.

Lemma remote_audio_is_played_in_either_order_witness :
  state (api w_waiting_for_frame) = CallStateType.connecting
  /\ frame_ready (api w_waiting_for_frame) = false
  /\ state
       (api (snd (_handleRemoteFirstFrameDecoded
                    (snd (user_published_settled media_audio
                            (Some (mkTrack 7 false)) None
                            w_waiting_for_frame)))))
     = CallStateType.connected.
Proof.
  assert (Hs : state (api w_waiting_for_frame) = CallStateType.connecting)
    by (vm_compute; reflexivity).
  split; [exact Hs |]. split; [vm_compute; reflexivity |].
  destruct (remote_audio_is_played_in_either_order w_waiting_for_frame
              (mkTrack 7 false) (app_view 0) (app_view 1) Hs)
    as (_ & _ & _ & H & _).
  - vm_compute. reflexivity.
  - vm_compute. reflexivity.
  - vm_compute. reflexivity.
  - reflexivity.
  - exact H.
Defined.

(** ** The callee's room *)

Lemma step_unfold (w : World) (i : Input) :
  step w i = snd (flush (snd (handle i w))).
Proof. unfold step, exec. destruct (handle i w). reflexivity. Qed.

(** [_rtcJoinAndPublish] followed by the end of the turn, on an object
    that has not joined. *)
Lemma rtcJoinAndPublish_turn (k : AfterJoinAndPublish) (w : World) :
  _rtcJoined (api w) = false ->
  jobs (rt w) = [] ->
  exists (r' : Runtime) (l' : list Point),
    snd (flush (snd (_rtcJoinAndPublish k w))) = mkWorld (api w) r' l'
    /\ map obs l' =
       map obs (log w) ++
       pipeline_start (callConfig (api w)) (prepareConfig (api w))
    /\ timers r' = timers (rt w).
Proof.
  destruct w as [a r l]. cbn [api rt log]. intros Hj Hjobs.
  unfold pipeline_start, rtcJoin_refusal.
  unfold _rtcJoinAndPublish, _createLocalTracks, _rtcJoin, join_rejected_with,
    flush, _callEventChange.
  prim. rewrite Hj. prim.
  destruct (truthy_str (roomId (prepareConfig a))) eqn:Er; cbn [negb].
  - destruct (truthy_str (rtcToken (prepareConfig a))) eqn:Et; cbn [negb].
    + prim. rewrite Hjobs. cbn [run_jobs]. prim.
      eexists. eexists. split; [reflexivity |]. split; [| reflexivity].
      rewrite !map_app. cbn [map obs]. rewrite <- !app_assoc. reflexivity.
    + prim. rewrite nth_error_snoc. prim. rewrite Hjobs.
      cbn [app run_jobs run_job]. unfold _rtcJoinAndPublish_catch, _callError.
      prim. eexists. eexists. split; [reflexivity |]. split; [| reflexivity].
      rewrite !map_app. cbn [map obs]. rewrite <- !app_assoc. reflexivity.
  - prim. rewrite nth_error_snoc. prim. rewrite Hjobs.
    cbn [app run_jobs run_job]. unfold _rtcJoinAndPublish_catch, _callError.
    prim. eexists. eexists. split; [reflexivity |]. split; [| reflexivity].
    rewrite !map_app. cbn [map obs]. rewrite <- !app_assoc. reflexivity.
Qed.

(** An obeyed [VideoCall], up to the start of the media pipeline. *)
Lemma receiveVideoCall_obeyed (w : World) (data : ICallMessage.t) :
  _isCallingUser (api w) (ICallMessage.fromUserId data) = true ->
  exists (a1 : CallApi) (r1 : Runtime) (l1 : list Point),
    _receiveVideoCall data w =
      _rtcJoinAndPublish after_join_receiveVideoCall (mkWorld a1 r1 l1)
    /\ prepareConfig a1
       = with_roomId (ICallMessage.fromRoomId data) (prepareConfig (api w))
    /\ callConfig a1 = callConfig (api w)
    /\ remoteUserId a1 = ICallMessage.fromUserId data
    /\ getCallId a1 = ICallMessage.callId data
    /\ state a1 = CallStateType.calling
    /\ _rtcJoined a1 = _rtcJoined (api w)
    /\ jobs r1 = jobs (rt w)
    /\ map obs l1 =
       map obs (log w) ++
       (if CallStateType.eqb (state (api w)) CallStateType.calling then []
        else [callStateChanged CallStateType.calling
                CallStateReason.remoteVideoCall (Some "")
                (info_call (ICallMessage.remoteUserId data)
                   (ICallMessage.fromUserId data))]) ++
       [callEventChanged CallEvent.onCalling].
Proof.
  intros Hgate. rewrite <- receiveVideoCall_split.
  destruct w as [a r l]. cbn [api rt log] in *.
  unfold receiveVideoCall_commit.
  cbv beta iota zeta delta [bind this update]. cbn [api rt log].
  rewrite Hgate. cbn [negb].
  match goal with
  | |- context [_autoCancelCall false ?W] =>
      destruct (autoCancelCall_effect false W) as (tm & ts & n & Hac & _)
  end.
  rewrite Hac. clear Hac. cbn [api rt log awaits joins jobs observed].
  unfold _callStateChange, _callEventChange. prim.
  destruct (CallStateType.eqb (state a) CallStateType.calling) eqn:Es; prim.
  - apply CallStateType_eqb_eq in Es.
    eexists. eexists. eexists. split; [reflexivity |].
    cbn [prepareConfig callConfig remoteUserId state _rtcJoined jobs
         set_cancelCallTimer set_prepareConfig set_remoteUserId
         set_callMessage set_callInfo].
    unfold with_roomId, getCallId.
    cbn [_callMessage set_cancelCallTimer set_prepareConfig set_remoteUserId
         set_callMessage set_callInfo CallMessage.getCallId
         CallMessage.setCallId CallMessage.held_callId].
    repeat (split; [first [reflexivity | exact Es] |]).
    rewrite !map_app. cbn [map obs app]. reflexivity.
  - eexists. eexists. eexists. split; [reflexivity |].
    cbn [prepareConfig callConfig remoteUserId state _rtcJoined jobs
         set_cancelCallTimer set_prepareConfig set_remoteUserId
         set_callMessage set_callInfo set_state].
    unfold with_roomId, getCallId.
    cbn [_callMessage set_cancelCallTimer set_prepareConfig set_remoteUserId
         set_callMessage set_callInfo set_state CallMessage.getCallId
         CallMessage.setCallId CallMessage.held_callId].
    repeat (split; [reflexivity |]).
    rewrite !map_app. cbn [map obs]. rewrite <- !app_assoc. reflexivity.
Qed.

(** X18: the callee joins the room the invitation names.  A [VideoCall]
    that is obeyed (no peer committed, or sent by the committed peer)
    overwrites [prepareConfig.roomId] with the message's [fromRoomId],
    also when the message has none, and commits to the sender.  In the
    same turn the object, if it has not joined, announces [calling]
    (unless it is in [calling] already) with the two user ids of the
    message, emits [onCalling], requests the local tracks and then either
    asks the media client to join that room, or, if the room or the token
    is missing, emits [callError(rtcOccurError, rtc)]. *)
Theorem callee_joins_the_room_of_the_invitation (w : World)
  (data : ICallMessage.t) :
  ICallMessage.message_action data = CallAction.VideoCall ->
  remoteUserId (api w) = 0
  \/ ICallMessage.fromUserId data = remoteUserId (api w) ->
  _rtcJoined (api w) = false ->
  jobs (rt w) = [] ->
  let w1 := step w (on_messageReceive data) in
  let c1 := with_roomId (ICallMessage.fromRoomId data) (prepareConfig (api w)) in
  prepareConfig (api w1) = c1
  /\ remoteUserId (api w1) = ICallMessage.fromUserId data
  /\ getCallId (api w1) = ICallMessage.callId data
  /\ state (api w1) = CallStateType.calling
  /\ map obs (log w1) =
     map obs (log w) ++
     (if CallStateType.eqb (state (api w)) CallStateType.calling then []
      else [callStateChanged CallStateType.calling
              CallStateReason.remoteVideoCall (Some "")
              (info_call (ICallMessage.remoteUserId data)
                 (ICallMessage.fromUserId data))]) ++
     callEventChanged CallEvent.onCalling
     :: pipeline_start (callConfig (api w)) c1.
Proof.
  intros Hact Hfrom Hj Hjobs. cbv zeta.
  apply isCallingUser_true in Hfrom.
  rewrite step_unfold.
  assert (Eh : handle (on_messageReceive data) w = _receiveVideoCall data w).
  { cbn [handle]. unfold messageReceive. rewrite Hact. reflexivity. }
  rewrite Eh. clear Eh.
  destruct (receiveVideoCall_obeyed w data Hfrom)
    as (a1 & r1 & l1 & E & Hpc & Hcc & Hru & Hid & Hst & Hrj & Hjb & Hl).
  rewrite E. clear E.
  destruct (rtcJoinAndPublish_turn after_join_receiveVideoCall
              (mkWorld a1 r1 l1)) as (r' & l' & E & Hl' & _).
  { cbn [api]. rewrite Hrj. exact Hj. }
  { cbn [rt]. rewrite Hjb. exact Hjobs. }
  rewrite E. clear E. cbn [api rt log] in *.
  rewrite Hl', Hl, Hpc, Hcc, <- !app_assoc.
  repeat split; assumption.
Qed.

Lemma callee_joins_the_room_of_the_invitation_witness :
  ICallMessage.message_action invite_from_2 = CallAction.VideoCall
  /\ remoteUserId (api w_prepared) = 0
  /\ roomId (prepareConfig (api w_prepared)) = Some "room-1"
  /\ roomId (prepareConfig (api (step w_prepared (on_messageReceive invite_from_2))))
     = Some "room-2".
Proof.
  assert (H0 : remoteUserId (api w_prepared) = 0) by (vm_compute; reflexivity).
  split; [reflexivity |]. split; [exact H0 |].
  split; [vm_compute; reflexivity |].
  destruct (callee_joins_the_room_of_the_invitation w_prepared invite_from_2
              eq_refl (or_introl H0))
    as (H & _).
  - vm_compute. reflexivity.
  - vm_compute. reflexivity.
  - rewrite H. reflexivity.
Defined.

(** * The machine and the suspended methods *)

(** ** Turns *)

Lemma settled_rt_id (r : Runtime) : jobs r = [] -> settled_rt r = r.
Proof. destruct r. cbn. intros ->. reflexivity. Qed.

(** A turn in which no reaction falls due is the handler alone. *)
Lemma step_of (w : World) (i : Input) :
  jobs (rt (snd (handle i w))) = [] -> step w i = snd (handle i w).
Proof.
  intros Hj. rewrite step_unfold.
  destruct (flush_effect (snd (handle i w))) as (errs & E & _ & Hn).
  rewrite E. cbn [snd]. rewrite (Hn Hj), app_nil_r.
  fold (settled_rt (rt (snd (handle i w)))). rewrite settled_rt_id by exact Hj.
  destruct (snd (handle i w)). reflexivity.
Qed.

(** The settlement of the request that was made last. *)
Lemma settle_last (r : Runtime) (a : Await) (s : Settled)
  (ap : CallApi) (l : list Point) :
  handle (on_settled (List.length (awaits r)) s)
    (mkWorld ap (suspend a r) l)
  = resume a s (mkWorld ap r l).
Proof.
  rewrite (settle_handle _ _ a) by (cbn [rt suspend awaits]; apply nth_error_snoc).
  cbn [api rt log suspend timers nextTimer awaits joins jobs observed].
  rewrite (remove_nth_middle (awaits r) [] a), app_nil_r.
  destruct r. reflexivity.
Qed.

(** ** [destory], told exactly *)

Lemma destory_emits (k : AfterDestory) (w : World) :
  exists wc : World,
    destory k w =
      (if _rtcJoined (api w) then emit rtc_leave ;; await (await_leave k)
       else _resetData ;; after_destory k) wc
    /\ map obs (log wc) = map obs (log w) ++ closing (api w)
    /\ rt wc = rt w
    /\ reset_api (api wc) = reset_api (api w)
    /\ state (api wc) = state (api w)
    /\ _callMessage (api wc) = _callMessage (api w)
    /\ _cancelCallTimer (api wc) = _cancelCallTimer (api w)
    /\ remoteUserId (api wc) = remoteUserId (api w)
    /\ _rtcJoined (api wc) = _rtcJoined (api w)
    /\ prepareConfig (api wc) = prepareConfig (api w)
    /\ callConfig (api wc) = callConfig (api w).
Proof.
  destruct w as [a r l]. unfold destory, closing.
  cbv beta iota zeta delta [bind this when_some]. cbn [api rt log].
  destruct (remote_audioTrack (remoteTracks a));
    destruct (local_audioTrack (localTracks a));
    destruct (local_videoTrack (localTracks a)); prim.
  all: eexists; split; [reflexivity |].
  all: split;
    [ cbn [log]; rewrite ?map_app; cbn [map obs List.app];
      rewrite <- ?app_assoc, ?app_nil_r; reflexivity
    | repeat split ].
Qed.

Lemma resetData_emits (w : World) :
  exists l' : list Point,
    _resetData w =
      (Ok tt, mkWorld (reset_api (api w)) (reset_rt (api w) (rt w)) l')
    /\ map obs l' = map obs (log w) ++ clearing (prepareConfig (api w)).
Proof.
  destruct w as [a r l].
  unfold _resetData, _resetView, reset_api, reset_rt, clearing.
  prim.
  destruct (localView (prepareConfig a)); prim;
    destruct (remoteView (prepareConfig a)); prim;
    destruct (_cancelCallTimer a) eqn:Et; prim.
  all: eexists; split;
    [ unfold set_callInfo, set_cancelCallTimer; prim; rewrite ?Et; reflexivity
    | rewrite ?map_app; cbn [map obs List.app];
      rewrite <- ?app_assoc, ?app_nil_r; reflexivity ].
Qed.

(** Without a joined channel: all of [destory], then what follows it. *)
Lemma destory_not_joined_emits (k : AfterDestory) (w : World) :
  _rtcJoined (api w) = false ->
  exists l' : list Point,
    destory k w =
      after_destory k
        (mkWorld (reset_api (api w)) (reset_rt (api w) (rt w)) l')
    /\ map obs l' =
       map obs (log w) ++ closing (api w) ++ clearing (prepareConfig (api w)).
Proof.
  intros Hj.
  destruct (destory_emits k w)
    as (wc & E & Hl & Hrt & Hreset & _ & _ & Htm & _ & _ & Hpc & _).
  rewrite E, Hj. clear E.
  destruct (resetData_emits wc) as (l' & Er & Hl').
  cbv beta iota delta [bind]. rewrite Er.
  rewrite Hreset. unfold reset_rt at 1. rewrite Htm, Hrt.
  fold (reset_rt (api w) (rt w)).
  exists l'. split; [reflexivity |].
  rewrite Hl', Hl, Hpc, <- app_assoc. reflexivity.
Qed.

(** With a joined channel: [destory] up to its [await]. *)
Lemma destory_joined_emits (k : AfterDestory) (w : World) :
  _rtcJoined (api w) = true ->
  exists (a1 : CallApi) (l1 : list Point),
    destory k w = (Ok tt, mkWorld a1 (suspend (await_leave k) (rt w)) l1)
    /\ map obs l1 = map obs (log w) ++ closing (api w) ++ [rtc_leave]
    /\ reset_api a1 = reset_api (api w)
    /\ state a1 = state (api w)
    /\ getCallId a1 = getCallId (api w)
    /\ remoteUserId a1 = remoteUserId (api w)
    /\ _cancelCallTimer a1 = _cancelCallTimer (api w)
    /\ _rtcJoined a1 = true
    /\ prepareConfig a1 = prepareConfig (api w)
    /\ callConfig a1 = callConfig (api w).
Proof.
  intros Hj.
  destruct (destory_emits k w)
    as (wc & E & Hl & Hrt & Hreset & Hst & Hcm & Htm & Hru & Hrj & Hpc & Hcc).
  rewrite E, Hj. clear E. destruct wc as [ac rc lc].
  cbn [api rt log] in *. subst rc. prim.
  exists ac. eexists. split; [unfold suspend; reflexivity |].
  split.
  - rewrite map_app, Hl, <- app_assoc. reflexivity.
  - unfold getCallId. rewrite Hcm, Hrj, Hj. repeat split; assumption.
Qed.

(** [destory] resumed after [leave]. *)
Lemma destory_settled_emits (k : AfterDestory) (w : World) :
  exists l' : list Point,
    destory_settled k None w =
      after_destory k
        (mkWorld (reset_api (api w)) (reset_rt (api w) (rt w)) l')
    /\ map obs l' =
       map obs (log w) ++
       callEventChanged CallEvent.localLeft
       :: clearing (prepareConfig (api w)).
Proof.
  destruct w as [a r l]. unfold destory_settled, _callEventChange.
  cbv beta iota delta [bind emit]. cbn [api rt log].
  destruct (resetData_emits
              (mkWorld a r
                 (l ++ [mkPoint a (timers r)
                          (callEventChanged CallEvent.localLeft)])))
    as (l' & Er & Hl').
  rewrite Er. cbn [api rt log] in *. exists l'. split; [reflexivity |].
  rewrite Hl', map_app, <- app_assoc. reflexivity.
Qed.

Lemma destory_settled_failed (k : AfterDestory) (w : World) (e : Error) :
  destory_settled k (Some e) w =
  (Ok tt,
   mkWorld (api w) (rt w)
     (log w ++
      [point (api w) (rt w)
         (callError CallErrorEvent.rtcOccurError CallErrorCodeType.rtc e)])).
Proof. destruct w. reflexivity. Qed.

(** ** A handler that ends in [destory], turn by turn *)

Lemma reset_rt_same_handle (a a' : CallApi) (r : Runtime) :
  _cancelCallTimer a' = _cancelCallTimer a -> reset_rt a' r = reset_rt a r.
Proof. intros H. unfold reset_rt. rewrite H. reflexivity. Qed.

Lemma after_destory_jobs (k : AfterDestory) (w : World) :
  jobs (rt (snd (after_destory k w))) = jobs (rt w)
  /\ rt (snd (after_destory k w)) = rt w.
Proof.
  destruct w as [a r l].
  destruct k; unfold after_destory, _callStateChange, _callEventChange; prim;
    try (split; reflexivity);
    destruct (CallStateType.eqb (state a) CallStateType.prepared);
    split; reflexivity.
Qed.

(** Let the handler of the input [i] be [destory k], run in the world
    [w0] (the world of the turn, with what the handler emitted before
    it).  Without a joined channel the turn is all of [destory] and what
    follows it.  With a joined channel the turn ends suspended on
    [leave]; the turn in which [leave] is fulfilled is the rest of
    [destory] and what follows it; the turn in which it is rejected is
    [callError] alone. *)
Lemma destory_turns (k : AfterDestory) (i : Input) (w w0 : World) :
  handle i w = destory k w0 ->
  rt w0 = rt w ->
  jobs (rt w) = [] ->
  let n := List.length (awaits (rt w)) in
  (_rtcJoined (api w0) = false ->
   exists l' : list Point,
     step w i =
       snd (after_destory k
              (mkWorld (reset_api (api w0)) (reset_rt (api w0) (rt w)) l'))
     /\ map obs l' =
        map obs (log w0) ++ closing (api w0)
        ++ clearing (prepareConfig (api w0)))
  /\ (_rtcJoined (api w0) = true ->
      exists (a1 : CallApi) (l1 : list Point),
        step w i = mkWorld a1 (suspend (await_leave k) (rt w)) l1
        /\ map obs l1 = map obs (log w0) ++ closing (api w0) ++ [rtc_leave]
        /\ state a1 = state (api w0)
        /\ getCallId a1 = getCallId (api w0)
        /\ remoteUserId a1 = remoteUserId (api w0)
        /\ _cancelCallTimer a1 = _cancelCallTimer (api w0)
        /\ _rtcJoined a1 = true
        /\ (forall tracks : list Track,
              exists l' : list Point,
                step (step w i) (on_settled n (fulfilled tracks)) =
                  snd (after_destory k
                         (mkWorld (reset_api (api w0))
                            (reset_rt (api w0) (rt w)) l'))
                /\ map obs l' =
                   map obs l1 ++
                   callEventChanged CallEvent.localLeft
                   :: clearing (prepareConfig (api w0)))
        /\ (forall e : Error,
              step (step w i) (on_settled n (rejected e)) =
                mkWorld a1 (rt w)
                  (l1 ++
                   [point a1 (rt w)
                      (callError CallErrorEvent.rtcOccurError
                         CallErrorCodeType.rtc e)]))).
Proof.
  intros Hh Hrt Hjobs. cbv zeta. split; intros Hj.
  - destruct (destory_not_joined_emits k w0 Hj) as (l' & E & Hl').
    exists l'. split; [| exact Hl'].
    rewrite step_of; rewrite Hh, E, Hrt; [reflexivity |].
    rewrite (proj1 (after_destory_jobs k _)). cbn [rt].
    rewrite (proj1 (proj2 (proj2 (reset_rt_keeps _ _)))). exact Hjobs.
  - destruct (destory_joined_emits k w0 Hj)
      as (a1 & l1 & E & Hl1 & Hreset & Hst & Hid & Hru & Htm & Hrj & Hpc & Hcc).
    assert (E1 : step w i = mkWorld a1 (suspend (await_leave k) (rt w)) l1).
    { rewrite step_of; rewrite Hh, E, Hrt; [reflexivity |]. exact Hjobs. }
    exists a1, l1. split; [exact E1 |].
    repeat (split; [assumption |]).
    split.
    + intros tracks. rewrite E1.
      destruct (destory_settled_emits k (mkWorld a1 (rt w) l1))
        as (l' & E2 & Hl').
      cbn [api rt log] in E2, Hl'.
      rewrite Hreset, (reset_rt_same_handle (api w0) a1) in E2 by exact Htm.
      exists l'. split; [| rewrite Hl', Hpc; reflexivity].
      rewrite step_of; rewrite settle_last; cbn [resume failure_of];
        rewrite E2; [reflexivity |].
      rewrite (proj1 (after_destory_jobs k _)). cbn [rt].
      rewrite (proj1 (proj2 (proj2 (reset_rt_keeps _ _)))). exact Hjobs.
    + intros e. rewrite E1.
      rewrite step_of; rewrite settle_last; cbn [resume failure_of];
        rewrite destory_settled_failed; [reflexivity |].
      cbn [snd rt]. exact Hjobs.
Qed.

(** ** [destory], the command *)

(** X3: [destory] stops the remote audio track and closes the local audio
    and the local video track, those the object holds, in this order, and
    resets the call data only once the channel is left.  Without a joined
    channel the turn of the command does all of it: tracks stopped and
    closed, object reset, views cleared, timer cleared, and the media
    client is asked nothing.  With a joined channel the turn stops and
    closes the tracks, requests [leave] and ends suspended, with call id,
    peer, timer handle and joined flag still in place; the turn in which
    [leave] is fulfilled emits [localLeft], resets and clears the views;
    the turn in which [leave] is rejected emits
    [callError(rtcOccurError, rtc)] and resets nothing.  The state is
    never changed. *)
Theorem destory_resets_once_the_channel_is_left (w : World) :
  jobs (rt w) = [] ->
  let n := List.length (awaits (rt w)) in
  let w1 := step w do_destory in
  (_rtcJoined (api w) = false ->
   api w1 = reset_api (api w)
   /\ rt w1 = reset_rt (api w) (rt w)
   /\ map obs (log w1) =
      map obs (log w) ++ closing (api w) ++ clearing (prepareConfig (api w)))
  /\ (_rtcJoined (api w) = true ->
      map obs (log w1) = map obs (log w) ++ closing (api w) ++ [rtc_leave]
      /\ rt w1 = suspend (await_leave after_destory_nothing) (rt w)
      /\ state (api w1) = state (api w)
      /\ getCallId (api w1) = getCallId (api w)
      /\ remoteUserId (api w1) = remoteUserId (api w)
      /\ _cancelCallTimer (api w1) = _cancelCallTimer (api w)
      /\ _rtcJoined (api w1) = true
      /\ (forall tracks : list Track,
            let w2 := step w1 (on_settled n (fulfilled tracks)) in
            api w2 = reset_api (api w)
            /\ rt w2 = reset_rt (api w) (rt w)
            /\ map obs (log w2) =
               map obs (log w1) ++
               callEventChanged CallEvent.localLeft
               :: clearing (prepareConfig (api w)))
      /\ (forall e : Error,
            let w2 := step w1 (on_settled n (rejected e)) in
            api w2 = api w1
            /\ rt w2 = rt w
            /\ map obs (log w2) =
               map obs (log w1) ++
               [callError CallErrorEvent.rtcOccurError CallErrorCodeType.rtc
                  e])).
Proof.
  intros Hjobs. cbv zeta.
  destruct (destory_turns after_destory_nothing do_destory w w
              eq_refl eq_refl Hjobs) as [Hn Hy].
  split; intros Hj.
  - destruct (Hn Hj) as (l' & E & Hl'). rewrite E.
    cbn [after_destory ret snd api rt log]. repeat split. exact Hl'.
  - destruct (Hy Hj)
      as (a1 & l1 & E & Hl1 & Hst & Hid & Hru & Htm & Hrj & Hok & Hfail).
    rewrite E in Hok, Hfail |- *. cbn [api rt log].
    repeat (split; [first [assumption | reflexivity] |]).
    split.
    + intros tracks. cbv zeta. destruct (Hok tracks) as (l' & E2 & Hl').
      rewrite E2. cbn [after_destory ret snd api rt log].
      repeat split. exact Hl'.
    + intros e. cbv zeta. rewrite (Hfail e). cbn [api rt log].
      repeat split. rewrite map_app. reflexivity.
Qed.

Lemma destory_resets_once_the_channel_is_left_witness :
  jobs (rt w_heard) = []
  /\ _rtcJoined (api w_heard) = true
  /\ remoteTracks (api w_heard)
     = mkRemoteTracks (Some (mkTrack 3 false)) None
  /\ localTracks (api w_heard)
     = mkLocalTracks (Some (mkTrack 1 false)) (Some (mkTrack 2 true))
  /\ map obs (log (step w_heard do_destory))
     = map obs (log w_heard) ++
       [track_stop (mkTrack 3 false); track_close (mkTrack 1 false);
        track_close (mkTrack 2 true); rtc_leave]
  /\ getCallId (api (step w_heard do_destory)) = the_uuid
  /\ getCallId
       (api (step (step w_heard do_destory)
               (on_settled (List.length (awaits (rt w_heard)))
                  (fulfilled []))))
     = ""
  /\ map obs
       (log (step (step w_heard do_destory)
               (on_settled (List.length (awaits (rt w_heard)))
                  (fulfilled []))))
     = map obs (log (step w_heard do_destory)) ++
       [callEventChanged CallEvent.localLeft;
        innerHTML_clear (app_view 0); innerHTML_clear (app_view 1)].
Proof.
  assert (Hjobs : jobs (rt w_heard) = []) by (vm_compute; reflexivity).
  assert (Hj : _rtcJoined (api w_heard) = true) by (vm_compute; reflexivity).
  split; [exact Hjobs |]. split; [exact Hj |].
  split; [vm_compute; reflexivity |].
  split; [vm_compute; reflexivity |].
  destruct (destory_resets_once_the_channel_is_left w_heard Hjobs) as [_ H].
  destruct (H Hj) as (Hl & _ & _ & Hid & _ & _ & _ & Hok & _).
  destruct (Hok []) as (Ha2 & _ & Hl2).
  split; [rewrite Hl; vm_compute; reflexivity |].
  split; [rewrite Hid; vm_compute; reflexivity |].
  split; [rewrite Ha2; vm_compute; reflexivity |].
  rewrite Hl2. vm_compute. reflexivity.
Defined.

(** ** Inbound [Reject], turn by turn *)

(** An obeyed [Reject] is [destory], entered after the event
    [remoteCallBusy] if the reason maps to it. *)
Lemma receiveReject_unfold (w : World) (data : ICallMessage.t) :
  ICallMessage.message_action data = CallAction.Reject ->
  _isCallingUser (api w) (ICallMessage.fromUserId data) = true ->
  handle (on_messageReceive data) w =
    destory
      (after_destory_receiveReject
         (reject_stateReason (ICallMessage.rejectByInternal data))
         (ICallMessage.rejectReason data))
      (mkWorld (api w) (rt w)
         (log w ++
          match ICallMessage.rejectByInternal data with
          | Some RejectByInternal.Internal =>
              [point (api w) (rt w)
                 (callEventChanged CallEvent.remoteCallBusy)]
          | _ => []
          end)).
Proof.
  intros Hact Hgate. destruct w as [a r l]. cbn [api rt log] in *.
  cbn [handle]. unfold messageReceive. rewrite Hact.
  unfold _receiveReject. prim. rewrite Hgate. cbn [negb].
  destruct (ICallMessage.rejectByInternal data) as [[] |];
    cbn [reject_stateReason]; unfold _callEventChange; prim;
    rewrite ?app_nil_r; reflexivity.
Qed.

(** What the end of [_receiveReject] writes. *)
Lemma after_destory_receiveReject_emits
  (stateReason : CallStateReason.t) (rejectReason : option string)
  (a : CallApi) (r : Runtime) (l : list Point) :
  let w1 :=
    snd (after_destory (after_destory_receiveReject stateReason rejectReason)
           (mkWorld (reset_api a) (reset_rt a r) l)) in
  api w1 = set_state CallStateType.prepared (reset_api a)
  /\ rt w1 = reset_rt a r
  /\ map obs (log w1) =
     map obs l ++
     announcing a CallStateType.prepared stateReason (Some "")
       (info_reject rejectReason) ++
     [callEventChanged CallEvent.remoteRejected].
Proof.
  cbv zeta. rewrite after_destory_receiveReject_effect.
  cbn [snd api rt log]. split; [reflexivity |]. split; [reflexivity |].
  unfold announcing.
  destruct (CallStateType.eqb (state a) CallStateType.prepared);
    rewrite !map_app; reflexivity.
Qed.

(** C3 (as stated, refuted): the state change to [prepared] is not
    emitted for every obeyed [Reject].  With no peer committed every
    sender passes [_isCallingUser]; a prepared object that receives a
    [Reject] then emits [remoteCallBusy], clears its views and emits
    [remoteRejected], and no state change at all.  And in a call whose
    channel is joined, if [leave] fails, [destory] does not complete: the
    only emission after the request is [callError], the state stays
    [calling], and neither the state change nor [remoteRejected]
    follows. *)
Lemma reject_reported_without_state_change :
  state (api w_prepared) = CallStateType.prepared
  /\ _isCallingUser (api w_prepared)
       (ICallMessage.fromUserId busy_reject_from_2) = true
  /\ map obs (log (step w_prepared (on_messageReceive busy_reject_from_2)))
     = map obs (log w_prepared) ++
       [callEventChanged CallEvent.remoteCallBusy;
        innerHTML_clear (app_view 0); innerHTML_clear (app_view 1);
        callEventChanged CallEvent.remoteRejected]
  /\ state (api w_joined) = CallStateType.calling
  /\ _isCallingUser (api w_joined)
       (ICallMessage.fromUserId busy_reject_from_2) = true
  /\ map obs
       (log (run w_joined
               [on_messageReceive busy_reject_from_2;
                on_settled (List.length (awaits (rt w_joined)))
                  (rejected "leave failed")]))
     = map obs (log w_joined) ++
       [callEventChanged CallEvent.remoteCallBusy; rtc_leave;
        callError CallErrorEvent.rtcOccurError CallErrorCodeType.rtc
          "leave failed"]
  /\ state
       (api (run w_joined
               [on_messageReceive busy_reject_from_2;
                on_settled (List.length (awaits (rt w_joined)))
                  (rejected "leave failed")]))
     = CallStateType.calling.
Proof.
  split; [vm_compute; reflexivity |]. split; [vm_compute; reflexivity |].
  split; [vm_compute; reflexivity |]. split; [vm_compute; reflexivity |].
  split; [vm_compute; reflexivity |]. split; vm_compute; reflexivity.
Qed.

(** C3 (amended): for an inbound [Reject] whose sender passes
    [_isCallingUser], the state reason is [remoteCallBusy] when
    [rejectByInternal] is [Internal], and the event [remoteCallBusy] is
    then emitted first; it is [remoteRejected] for any other value.
    [destory] runs next.  Without a joined channel it completes in the
    turn of the message: tracks stopped and closed, views cleared, object
    reset; then the state change to [prepared] with the mapped reason and
    [eventInfo.rejectReason] is emitted, unless the state was [prepared]
    already, and the event [remoteRejected] last.  With a joined channel
    the turn ends with [leave] requested and the state unchanged; in the
    turn in which [leave] is fulfilled [localLeft] is emitted, the views
    are cleared, the object is reset, and then the state change (under
    the same condition) and [remoteRejected] follow; in the turn in which
    [leave] is rejected only [callError(rtcOccurError, rtc)] is emitted
    and the object stays as it is. *)
Theorem receiveReject_tears_down_then_reports
  (w : World) (data : ICallMessage.t) :
  ICallMessage.message_action data = CallAction.Reject ->
  _isCallingUser (api w) (ICallMessage.fromUserId data) = true ->
  jobs (rt w) = [] ->
  let stateReason := reject_stateReason (ICallMessage.rejectByInternal data) in
  let rejectReason := ICallMessage.rejectReason data in
  let busy :=
    match ICallMessage.rejectByInternal data with
    | Some RejectByInternal.Internal =>
        [callEventChanged CallEvent.remoteCallBusy]
    | _ => []
    end in
  let report :=
    announcing (api w) CallStateType.prepared stateReason (Some "")
      (info_reject rejectReason) ++
    [callEventChanged CallEvent.remoteRejected] in
  let n := List.length (awaits (rt w)) in
  let w1 := step w (on_messageReceive data) in
  (ICallMessage.rejectByInternal data = Some RejectByInternal.Internal ->
   stateReason = CallStateReason.remoteCallBusy)
  /\ (ICallMessage.rejectByInternal data <> Some RejectByInternal.Internal ->
      stateReason = CallStateReason.remoteRejected)
  /\ (_rtcJoined (api w) = false ->
      api w1 = set_state CallStateType.prepared (reset_api (api w))
      /\ rt w1 = reset_rt (api w) (rt w)
      /\ map obs (log w1) =
         map obs (log w) ++ busy ++ closing (api w) ++
         clearing (prepareConfig (api w)) ++ report)
  /\ (_rtcJoined (api w) = true ->
      map obs (log w1) =
      map obs (log w) ++ busy ++ closing (api w) ++ [rtc_leave]
      /\ rt w1 =
         suspend
           (await_leave (after_destory_receiveReject stateReason rejectReason))
           (rt w)
      /\ state (api w1) = state (api w)
      /\ (forall tracks : list Track,
            let w2 := step w1 (on_settled n (fulfilled tracks)) in
            api w2 = set_state CallStateType.prepared (reset_api (api w))
            /\ rt w2 = reset_rt (api w) (rt w)
            /\ map obs (log w2) =
               map obs (log w1) ++
               callEventChanged CallEvent.localLeft
               :: clearing (prepareConfig (api w)) ++ report)
      /\ (forall e : Error,
            let w2 := step w1 (on_settled n (rejected e)) in
            api w2 = api w1
            /\ rt w2 = rt w
            /\ map obs (log w2) =
               map obs (log w1) ++
               [callError CallErrorEvent.rtcOccurError CallErrorCodeType.rtc
                  e])).
Proof.
  intros Hact Hgate Hjobs. cbv zeta.
  split; [intros ->; reflexivity |].
  split.
  { intros H. unfold reject_stateReason.
    destruct (ICallMessage.rejectByInternal data) as [[] |];
      try reflexivity. congruence. }
  pose proof (receiveReject_unfold w data Hact Hgate) as Hh.
  destruct (destory_turns _ _ w _ Hh eq_refl Hjobs) as [Hn Hy].
  cbn [api rt log] in Hn, Hy.
  assert (Hbusy :
    map obs
      (log w ++
       match ICallMessage.rejectByInternal data with
       | Some RejectByInternal.Internal =>
           [point (api w) (rt w) (callEventChanged CallEvent.remoteCallBusy)]
       | _ => []
       end)
    = map obs (log w) ++
      match ICallMessage.rejectByInternal data with
      | Some RejectByInternal.Internal =>
          [callEventChanged CallEvent.remoteCallBusy]
      | _ => []
      end).
  { rewrite map_app.
    destruct (ICallMessage.rejectByInternal data) as [[] |]; reflexivity. }
  rewrite Hbusy in Hn, Hy. clear Hbusy.
  split; intros Hj.
  - destruct (Hn Hj) as (l' & E & Hl'). rewrite E.
    destruct (after_destory_receiveReject_emits
                (reject_stateReason (ICallMessage.rejectByInternal data))
                (ICallMessage.rejectReason data) (api w) (rt w) l')
      as (Ha & Hr & Hl).
    cbv zeta in Ha, Hr, Hl. rewrite Ha, Hr, Hl, Hl'.
    split; [reflexivity |]. split; [reflexivity |].
    rewrite <- !app_assoc. reflexivity.
  - destruct (Hy Hj)
      as (a1 & l1 & E & Hl1 & Hst & _ & _ & _ & _ & Hok & Hfail).
    rewrite E in Hok, Hfail |- *. cbn [api rt log].
    split; [rewrite Hl1, <- !app_assoc; reflexivity |].
    split; [reflexivity |]. split; [exact Hst |].
    split.
    + intros tracks. cbv zeta. destruct (Hok tracks) as (l' & E2 & Hl').
      rewrite E2.
      destruct (after_destory_receiveReject_emits
                  (reject_stateReason (ICallMessage.rejectByInternal data))
                  (ICallMessage.rejectReason data) (api w) (rt w) l')
        as (Ha & Hr & Hl).
      cbv zeta in Ha, Hr, Hl. rewrite Ha, Hr, Hl, Hl'.
      split; [reflexivity |]. split; [reflexivity |].
      rewrite <- !app_assoc. reflexivity.
    + intros e. cbv zeta. rewrite (Hfail e). cbn [api rt log].
      repeat split. rewrite map_app. reflexivity.
Qed.

Lemma receiveReject_tears_down_then_reports_witness :
  ICallMessage.message_action busy_reject_from_2 = CallAction.Reject
  /\ _isCallingUser (api w_heard) (ICallMessage.fromUserId busy_reject_from_2)
     = true
  /\ jobs (rt w_heard) = []
  /\ _rtcJoined (api w_heard) = true
  /\ map obs (log (step w_heard (on_messageReceive busy_reject_from_2)))
     = map obs (log w_heard) ++
       [callEventChanged CallEvent.remoteCallBusy;
        track_stop (mkTrack 3 false); track_close (mkTrack 1 false);
        track_close (mkTrack 2 true); rtc_leave]
  /\ state (api (step w_heard (on_messageReceive busy_reject_from_2)))
     = CallStateType.calling
  /\ map obs
       (log (step (step w_heard (on_messageReceive busy_reject_from_2))
               (on_settled (List.length (awaits (rt w_heard)))
                  (fulfilled []))))
     = map obs (log (step w_heard (on_messageReceive busy_reject_from_2))) ++
       [callEventChanged CallEvent.localLeft;
        innerHTML_clear (app_view 0); innerHTML_clear (app_view 1);
        callStateChanged CallStateType.prepared
          CallStateReason.remoteCallBusy (Some "")
          (info_reject (Some "busy"));
        callEventChanged CallEvent.remoteRejected]
  /\ state
       (api (step (step w_heard (on_messageReceive busy_reject_from_2))
               (on_settled (List.length (awaits (rt w_heard)))
                  (fulfilled []))))
     = CallStateType.prepared.
Proof.
  assert (Hgate : _isCallingUser (api w_heard)
                    (ICallMessage.fromUserId busy_reject_from_2) = true)
    by (vm_compute; reflexivity).
  assert (Hjobs : jobs (rt w_heard) = []) by (vm_compute; reflexivity).
  assert (Hj : _rtcJoined (api w_heard) = true) by (vm_compute; reflexivity).
  split; [reflexivity |]. split; [exact Hgate |]. split; [exact Hjobs |].
  split; [exact Hj |].
  destruct (receiveReject_tears_down_then_reports w_heard busy_reject_from_2
              eq_refl Hgate Hjobs) as (_ & _ & _ & H).
  destruct (H Hj) as (Hl & _ & Hst & Hok & _).
  destruct (Hok []) as (Ha2 & _ & Hl2).
  split; [rewrite Hl; vm_compute; reflexivity |].
  split; [rewrite Hst; vm_compute; reflexivity |].
  split; [rewrite Hl2; vm_compute; reflexivity |].
  rewrite Ha2. reflexivity.
Defined.

(** ** The peer leaves the channel, turn by turn *)

Lemma user_left_unfold (w : World) (uid : UserId) :
  uid = remoteUserId (api w) ->
  isBusy (api w) = true ->
  handle (on_user_left uid) w =
    destory after_destory_userLeft
      (mkWorld (api w) (rt w)
         (log w ++
          [point (api w) (rt w) (callEventChanged CallEvent.remoteLeft)])).
Proof.
  intros Hu Hb. apply Z.eqb_eq in Hu.
  destruct w as [a r l]. cbn [api rt log] in *.
  cbn [handle]. unfold user_left, _callEventChange. prim.
  rewrite Hu, Hb. reflexivity.
Qed.

Lemma after_destory_userLeft_emits (a : CallApi) (r : Runtime)
  (l : list Point) :
  let w1 :=
    snd (after_destory after_destory_userLeft (mkWorld (reset_api a) r l)) in
  api w1 = set_state CallStateType.prepared (reset_api a)
  /\ rt w1 = r
  /\ map obs (log w1) =
     map obs l ++
     announcing a CallStateType.prepared CallStateReason.remoteHangup None
       info_undefined.
Proof.
  cbv zeta. rewrite after_destory_userLeft_effect.
  cbn [snd api rt log]. split; [reflexivity |]. split; [reflexivity |].
  unfold announcing, announce.
  destruct (CallStateType.eqb (state a) CallStateType.prepared);
    rewrite map_app; reflexivity.
Qed.

Lemma announcing_busy (a : CallApi) (reason : CallStateReason.t)
  (eventReason : option string) (eventInfo : EventInfo) :
  isBusy a = true ->
  announcing a CallStateType.prepared reason eventReason eventInfo
  = [callStateChanged CallStateType.prepared reason eventReason eventInfo].
Proof.
  intros Hb. apply isBusy_states in Hb. unfold announcing.
  destruct Hb as [-> | [-> | ->]]; reflexivity.
Qed.

(** X8: the [user-left] listener.  For any other user than the committed
    peer it does nothing.  For the committed peer the event [remoteLeft]
    is emitted; outside a call nothing else happens.  During a call
    [destory] runs next, and the state change to [prepared] (reason
    [remoteHangup]) is emitted only when it has completed.  Without a
    joined channel that is in the same turn: tracks stopped and closed,
    views cleared, object reset, then the state change.  With a joined
    channel the turn ends with [leave] requested and the state still the
    one of the call; in the turn in which [leave] is fulfilled
    [localLeft] is emitted, the views are cleared, the object is reset
    and the state change follows; in the turn in which [leave] is
    rejected only [callError(rtcOccurError, rtc)] is emitted and the
    object, its state included, stays as it is. *)
Theorem user_left_tears_down_then_reports (w : World) (uid : UserId) :
  jobs (rt w) = [] ->
  let n := List.length (awaits (rt w)) in
  let w1 := step w (on_user_left uid) in
  let change :=
    callStateChanged CallStateType.prepared CallStateReason.remoteHangup
      None info_undefined in
  (uid <> remoteUserId (api w) -> w1 = w)
  /\ (uid = remoteUserId (api w) ->
      isBusy (api w) = false ->
      api w1 = api w
      /\ rt w1 = rt w
      /\ map obs (log w1) =
         map obs (log w) ++ [callEventChanged CallEvent.remoteLeft])
  /\ (uid = remoteUserId (api w) ->
      isBusy (api w) = true ->
      _rtcJoined (api w) = false ->
      api w1 = set_state CallStateType.prepared (reset_api (api w))
      /\ rt w1 = reset_rt (api w) (rt w)
      /\ map obs (log w1) =
         map obs (log w) ++
         callEventChanged CallEvent.remoteLeft
         :: closing (api w) ++ clearing (prepareConfig (api w)) ++ [change])
  /\ (uid = remoteUserId (api w) ->
      isBusy (api w) = true ->
      _rtcJoined (api w) = true ->
      map obs (log w1) =
      map obs (log w) ++
      callEventChanged CallEvent.remoteLeft :: closing (api w) ++ [rtc_leave]
      /\ rt w1 = suspend (await_leave after_destory_userLeft) (rt w)
      /\ state (api w1) = state (api w)
      /\ (forall tracks : list Track,
            let w2 := step w1 (on_settled n (fulfilled tracks)) in
            api w2 = set_state CallStateType.prepared (reset_api (api w))
            /\ rt w2 = reset_rt (api w) (rt w)
            /\ map obs (log w2) =
               map obs (log w1) ++
               callEventChanged CallEvent.localLeft
               :: clearing (prepareConfig (api w)) ++ [change])
      /\ (forall e : Error,
            let w2 := step w1 (on_settled n (rejected e)) in
            api w2 = api w1
            /\ rt w2 = rt w
            /\ map obs (log w2) =
               map obs (log w1) ++
               [callError CallErrorEvent.rtcOccurError CallErrorCodeType.rtc
                  e])).
Proof.
  intros Hjobs. cbv zeta.
  split.
  { intros Hu. apply Z.eqb_neq in Hu.
    assert (E : handle (on_user_left uid) w = (Ok tt, w)).
    { destruct w as [a r l]. cbn [api] in Hu. cbn [handle].
      unfold user_left. prim. rewrite Hu. reflexivity. }
    rewrite step_of; rewrite E; [reflexivity | exact Hjobs]. }
  split.
  { intros Hu Hb. apply Z.eqb_eq in Hu.
    assert (E : handle (on_user_left uid) w =
                (Ok tt,
                 mkWorld (api w) (rt w)
                   (log w ++
                    [point (api w) (rt w)
                       (callEventChanged CallEvent.remoteLeft)]))).
    { destruct w as [a r l]. cbn [api rt log] in *. cbn [handle].
      unfold user_left, _callEventChange. prim. rewrite Hu, Hb.
      reflexivity. }
    rewrite step_of; rewrite E; [| exact Hjobs].
    cbn [snd api rt log]. rewrite map_app. repeat split. }
  split.
  - intros Hu Hb Hj.
    pose proof (user_left_unfold w uid Hu Hb) as Hh.
    destruct (destory_turns _ _ w _ Hh eq_refl Hjobs) as [Hn _].
    cbn [api rt log] in Hn.
    destruct (Hn Hj) as (l' & E & Hl'). rewrite E.
    destruct (after_destory_userLeft_emits (api w)
                (reset_rt (api w) (rt w)) l') as (Ha & Hr & Hl).
    cbv zeta in Ha, Hr, Hl. rewrite Ha, Hr, Hl, Hl'.
    rewrite (announcing_busy _ _ _ _ Hb).
    split; [reflexivity |]. split; [reflexivity |].
    rewrite map_app, <- !app_assoc. reflexivity.
  - intros Hu Hb Hj.
    pose proof (user_left_unfold w uid Hu Hb) as Hh.
    destruct (destory_turns _ _ w _ Hh eq_refl Hjobs) as [_ Hy].
    cbn [api rt log] in Hy.
    destruct (Hy Hj)
      as (a1 & l1 & E & Hl1 & Hst & _ & _ & _ & _ & Hok & Hfail).
    rewrite E in Hok, Hfail |- *. cbn [api rt log].
    split; [rewrite Hl1, map_app, <- !app_assoc; reflexivity |].
    split; [reflexivity |]. split; [exact Hst |].
    split.
    + intros tracks. cbv zeta. destruct (Hok tracks) as (l' & E2 & Hl').
      rewrite E2.
      destruct (after_destory_userLeft_emits (api w)
                  (reset_rt (api w) (rt w)) l') as (Ha & Hr & Hl).
      cbv zeta in Ha, Hr, Hl. rewrite Ha, Hr, Hl, Hl'.
      rewrite (announcing_busy _ _ _ _ Hb).
      split; [reflexivity |]. split; [reflexivity |].
      rewrite <- !app_assoc. reflexivity.
    + intros e. cbv zeta. rewrite (Hfail e). cbn [api rt log].
      split; [reflexivity |]. split; [reflexivity |].
      rewrite map_app. reflexivity.
Qed.

Lemma user_left_tears_down_then_reports_witness :
  jobs (rt w_heard) = []
  /\ 2 = remoteUserId (api w_heard)
  /\ isBusy (api w_heard) = true
  /\ _rtcJoined (api w_heard) = true
  /\ map obs (log (step w_heard (on_user_left 2)))
     = map obs (log w_heard) ++
       [callEventChanged CallEvent.remoteLeft;
        track_stop (mkTrack 3 false); track_close (mkTrack 1 false);
        track_close (mkTrack 2 true); rtc_leave]
  /\ state (api (step w_heard (on_user_left 2))) = CallStateType.calling
  /\ map obs
       (log (step (step w_heard (on_user_left 2))
               (on_settled (List.length (awaits (rt w_heard)))
                  (fulfilled []))))
     = map obs (log (step w_heard (on_user_left 2))) ++
       [callEventChanged CallEvent.localLeft;
        innerHTML_clear (app_view 0); innerHTML_clear (app_view 1);
        callStateChanged CallStateType.prepared CallStateReason.remoteHangup
          None info_undefined]
  /\ state
       (api (step (step w_heard (on_user_left 2))
               (on_settled (List.length (awaits (rt w_heard)))
                  (fulfilled []))))
     = CallStateType.prepared.
Proof.
  assert (Hjobs : jobs (rt w_heard) = []) by (vm_compute; reflexivity).
  assert (Hu : 2 = remoteUserId (api w_heard)) by (vm_compute; reflexivity).
  assert (Hb : isBusy (api w_heard) = true) by (vm_compute; reflexivity).
  assert (Hj : _rtcJoined (api w_heard) = true) by (vm_compute; reflexivity).
  split; [exact Hjobs |]. split; [exact Hu |]. split; [exact Hb |].
  split; [exact Hj |].
  destruct (user_left_tears_down_then_reports w_heard 2 Hjobs)
    as (_ & _ & _ & H).
  destruct (H Hu Hb Hj) as (Hl & _ & Hst & Hok & _).
  destruct (Hok []) as (Ha2 & _ & Hl2).
  split; [rewrite Hl; vm_compute; reflexivity |].
  split; [rewrite Hst; vm_compute; reflexivity |].
  split; [rewrite Hl2; vm_compute; reflexivity |].
  rewrite Ha2. reflexivity.
Defined.

(** ** The timeout timer, from arming to firing *)

(** Between two turns no reaction is due. *)
Lemma reachable_quiet (config : ICallConfig) (w : World) :
  reachable config w -> jobs (rt w) = [].
Proof.
  intros Hr. destruct Hr as [| w i _]; [reflexivity |].
  destruct (step_effect w i) as (errs & E & _). cbv zeta in E.
  rewrite E. reflexivity.
Qed.

Lemma step_quiet (w : World) (i : Input) : jobs (rt (step w i)) = [].
Proof.
  destruct (step_effect w i) as (errs & E & _). cbv zeta in E.
  rewrite E. reflexivity.
Qed.

(** What a turn leaves of the handler's world when no reaction is due. *)
Lemma step_keeps (w : World) (i : Input) :
  api (step w i) = api (snd (handle i w))
  /\ timers (rt (step w i)) = timers (rt (snd (handle i w)))
  /\ awaits (rt (step w i)) = awaits (rt (snd (handle i w)))
  /\ joins (rt (step w i)) = joins (rt (snd (handle i w)))
  /\ nextTimer (rt (step w i)) = nextTimer (rt (snd (handle i w))).
Proof.
  destruct (step_effect w i) as (errs & E & _). cbv zeta in E.
  rewrite E. repeat split.
Qed.

(** When the object's timers are in order, clearing the timer it holds
    leaves none. *)
Lemma held_filter_nil (a : CallApi) (ts : list Timer) :
  timer_ok a ts ->
  filter (fun t => match _cancelCallTimer a with
                   | Some id => negb (Nat.eqb (timer_id t) id)
                   | None => true
                   end) ts = [].
Proof.
  intros [_ H]. induction ts as [| t ts IH]; [reflexivity |].
  cbn [filter]. rewrite (H t (or_introl eq_refl)), Nat.eqb_refl. cbn [negb].
  rewrite (H t (or_introl eq_refl)) in IH. apply IH.
  intros t' Ht'. rewrite <- (H t (or_introl eq_refl)).
  apply H. right. exact Ht'.
Qed.

(** The runtime calls the callback of the timer that fires, with the flag
    the timer was armed with, and the timer is no longer pending. *)
Lemma timeout_handle (w : World) (id : nat) (t : Timer) :
  find (fun t => Nat.eqb (timer_id t) id) (timers (rt w)) = Some t ->
  handle (on_timeout id) w =
    _autoCancelCall_timeout (timer_isLocal t)
      (mkWorld (api w)
         (mkRuntime
            (filter (fun t => negb (Nat.eqb (timer_id t) id)) (timers (rt w)))
            (nextTimer (rt w)) (awaits (rt w)) (joins (rt w)) (jobs (rt w))
            (observed (rt w)))
         (log w)).
Proof.
  intros Hf. destruct w as [a r l]. cbn [api rt log] in *.
  cbn [handle]. prim. rewrite Hf. prim. reflexivity.
Qed.

(** The callback (lines 610-631): in [calling] or [connecting] it is the
    state change, the event, the request to send [Cancel] and then
    [destory], run with the send pending; in any other state it does
    nothing. *)
Lemma autoCancelCall_timeout_unfold (w : World) (isLocal : bool) :
  (state (api w) = CallStateType.calling
   \/ state (api w) = CallStateType.connecting ->
   let a' := set_state CallStateType.prepared (api w) in
   _autoCancelCall_timeout isLocal w =
     destory after_destory_nothing
       (mkWorld a' (suspend (await_sendMessage after_send_nothing) (rt w))
          (log w ++
           [point a' (rt w)
              (callStateChanged CallStateType.prepared
                 CallStateReason.callingTimeout None info_undefined);
            point a' (rt w)
              (callEventChanged
                 (if isLocal then CallEvent.callingTimeout
                  else CallEvent.remoteCallingTimeout));
            point a' (rt w)
              (sendMessage (remoteUserId (api w))
                 (ICallMessage.mk (getCallId (api w))
                    (userId (callConfig (api w))) (remoteUserId (api w))
                    None CallAction.Cancel None None
                    (Some RejectByInternal.Internal)))])))
  /\ (state (api w) <> CallStateType.calling ->
      state (api w) <> CallStateType.connecting ->
      _autoCancelCall_timeout isLocal w = (Ok tt, w)).
Proof.
  destruct w as [a r l]. cbn [api rt log]. split.
  - intros H. cbv zeta.
    unfold _autoCancelCall_timeout. prim.
    replace (CallStateType.eqb (state a) CallStateType.calling
             || CallStateType.eqb (state a) CallStateType.connecting)
      with true by (destruct H as [-> | ->]; reflexivity).
    unfold _callStateChange. prim.
    replace (CallStateType.eqb (state a) CallStateType.prepared)
      with false by (destruct H as [-> | ->]; reflexivity).
    unfold _callEventChange, _publishMessage. prim.
    unfold suspend, point. rewrite <- !app_assoc. reflexivity.
  - intros H1 H2. unfold _autoCancelCall_timeout. prim.
    apply CallStateType_eqb_neq in H1, H2. rewrite H1, H2. reflexivity.
Qed.

(** The turn in which a pending timer fires. *)
Lemma timeout_turn (w : World) (id : nat) (t : Timer) :
  jobs (rt w) = [] ->
  find (fun t => Nat.eqb (timer_id t) id) (timers (rt w)) = Some t ->
  let w1 := step w (on_timeout id) in
  (state (api w) = CallStateType.calling
   \/ state (api w) = CallStateType.connecting ->
   state (api w1) = CallStateType.prepared
   /\ map obs (log w1) =
      map obs (log w) ++
      [callStateChanged CallStateType.prepared CallStateReason.callingTimeout
         None info_undefined;
       callEventChanged
         (if timer_isLocal t then CallEvent.callingTimeout
          else CallEvent.remoteCallingTimeout);
       sendMessage (remoteUserId (api w))
         (ICallMessage.mk (getCallId (api w)) (userId (callConfig (api w)))
            (remoteUserId (api w)) None CallAction.Cancel None None
            (Some RejectByInternal.Internal))] ++
      closing (api w) ++
      (if _rtcJoined (api w) then [rtc_leave]
       else clearing (prepareConfig (api w)))
   /\ awaits (rt w1) =
      awaits (rt w) ++
      await_sendMessage after_send_nothing
      :: (if _rtcJoined (api w) then [await_leave after_destory_nothing]
          else []))
  /\ (state (api w) <> CallStateType.calling ->
      state (api w) <> CallStateType.connecting ->
      api w1 = api w /\ log w1 = log w /\ awaits (rt w1) = awaits (rt w)).
Proof.
  intros Hjobs Hf. cbv zeta.
  pose proof (timeout_handle w id t Hf) as Hh.
  split.
  - intros Hs.
    rewrite (proj1 (autoCancelCall_timeout_unfold _ (timer_isLocal t)))
      in Hh by exact Hs.
    cbv zeta in Hh. cbn [api rt log] in Hh.
    match type of Hh with
    | _ = destory _ ?W0 => set (w0 := W0) in *
    end.
    assert (Hl0 : map obs (log w0) =
                  map obs (log w) ++
                  [callStateChanged CallStateType.prepared
                     CallStateReason.callingTimeout None info_undefined;
                   callEventChanged
                     (if timer_isLocal t then CallEvent.callingTimeout
                      else CallEvent.remoteCallingTimeout);
                   sendMessage (remoteUserId (api w))
                     (ICallMessage.mk (getCallId (api w))
                        (userId (callConfig (api w))) (remoteUserId (api w))
                        None CallAction.Cancel None None
                        (Some RejectByInternal.Internal))]).
    { unfold w0. cbn [log]. rewrite map_app. reflexivity. }
    assert (Hc0 : closing (api w0) = closing (api w)) by reflexivity.
    assert (Hp0 : prepareConfig (api w0) = prepareConfig (api w))
      by reflexivity.
    assert (Hj0 : _rtcJoined (api w0) = _rtcJoined (api w)) by reflexivity.
    assert (Hq0 : jobs (rt w0) = []) by exact Hjobs.
    assert (Ha0 : awaits (rt w0) =
                  awaits (rt w) ++ [await_sendMessage after_send_nothing])
      by reflexivity.
    assert (Hs0 : state (api w0) = CallStateType.prepared) by reflexivity.
    clearbody w0.
    destruct (_rtcJoined (api w)) eqn:Hj.
    + destruct (destory_joined_emits after_destory_nothing w0 Hj0)
        as (a1 & l1 & E & Hl1 & _ & Hst & _).
      rewrite step_of; rewrite Hh, E; cbn [snd api rt log];
        [| unfold suspend; cbn [jobs]; exact Hq0].
      split; [rewrite Hst; exact Hs0 |].
      split.
      * rewrite Hl1, Hl0, Hc0, <- !app_assoc. reflexivity.
      * unfold suspend. cbn [awaits]. rewrite Ha0, <- app_assoc. reflexivity.
    + destruct (destory_not_joined_emits after_destory_nothing w0 Hj0)
        as (l' & E & Hl').
      destruct (reset_rt_keeps (api w0) (rt w0)) as (Haw & _ & Hjb & _).
      rewrite step_of; rewrite Hh, E; cbn [after_destory ret snd api rt log];
        [| rewrite Hjb; exact Hq0].
      split; [unfold reset_api; cbn [state]; exact Hs0 |].
      split.
      * rewrite Hl', Hl0, Hc0, Hp0, <- !app_assoc. reflexivity.
      * rewrite Haw, Ha0. reflexivity.
  - intros H1 H2.
    rewrite (proj2 (autoCancelCall_timeout_unfold _ (timer_isLocal t)))
      in Hh by assumption.
    rewrite step_of; rewrite Hh; cbn [snd api rt log awaits jobs];
      [| exact Hjobs].
    repeat split.
Qed.

(** ** The two places that arm the timer *)

(** [call], with the timer it arms. *)
Lemma call_arms (w : World) (rid : UserId) (ct : option CallType.t)
  (uuid : string) (time : Z) :
  state (api w) = CallStateType.prepared ->
  truthy_id rid = true ->
  callTimeoutMillisecond (prepareConfig (api w)) = Some time ->
  time <> 0 ->
  exists (r1 : Runtime) (l1 : list Point),
    call rid ct uuid w =
    (Ok tt,
     mkWorld
       (set_cancelCallTimer (Some (nextTimer (rt w)))
          (calling_api rid ct uuid (api w))) r1 l1)
    /\ timers r1 =
       filter (fun t => match _cancelCallTimer (api w) with
                        | Some id => negb (Nat.eqb (timer_id t) id)
                        | None => true
                        end) (timers (rt w))
       ++ [mkTimer (nextTimer (rt w)) time true].
Proof.
  destruct w as [a r l]. cbn [api rt]. intros Hs Hid Ht Hnz.
  unfold call, _callStateChange, _callEventChange, calling_api. prim.
  rewrite Hs. cbn [CallStateType.eqb negb]. prim.
  rewrite Hs. cbn [CallStateType.eqb]. prim.
  match goal with
  | |- context [_autoCancelCall true ?W] =>
      destruct (autoCancelCall_effect true W) as (tm & ts & n & Hac & Harm & _);
      destruct (Harm time Hid Ht Hnz) as [-> ->]
  end.
  rewrite Hac. clear Hac Harm.
  match goal with
  | |- context [_rtcJoinAndPublish after_join_nothing ?W] =>
      destruct (rtcJoinAndPublish_begins after_join_nothing W)
        as (r' & media & joining & Hjp & Htm & _)
  end.
  rewrite Hjp. clear Hjp. rewrite publishMessage_effect.
  cbn [api rt log timers] in *. eexists. eexists.
  split; [reflexivity |]. unfold suspend. cbn [timers]. exact Htm.
Qed.

(** An obeyed [VideoCall] up to the start of the media pipeline, with
    the timer it arms. *)
Lemma receiveVideoCall_commits (w : World) (data : ICallMessage.t) :
  _isCallingUser (api w) (ICallMessage.fromUserId data) = true ->
  exists (a1 : CallApi) (ts : list Timer) (nt : nat) (l1 : list Point),
    _receiveVideoCall data w =
      _rtcJoinAndPublish after_join_receiveVideoCall
        (mkWorld a1
           (mkRuntime ts nt (awaits (rt w)) (joins (rt w)) (jobs (rt w))
              (observed (rt w))) l1)
    /\ prepareConfig a1
       = with_roomId (ICallMessage.fromRoomId data) (prepareConfig (api w))
    /\ callConfig a1 = callConfig (api w)
    /\ remoteUserId a1 = ICallMessage.fromUserId data
    /\ getCallId a1 = ICallMessage.callId data
    /\ state a1 = CallStateType.calling
    /\ _rtcJoined a1 = _rtcJoined (api w)
    /\ localTracks a1 = localTracks (api w)
    /\ remoteTracks a1 = remoteTracks (api w)
    /\ _receiveRemoteFirstFrameDecoded a1
       = _receiveRemoteFirstFrameDecoded (api w)
    /\ map obs l1 =
       map obs (log w) ++
       (if CallStateType.eqb (state (api w)) CallStateType.calling then []
        else [callStateChanged CallStateType.calling
                CallStateReason.remoteVideoCall (Some "")
                (info_call (ICallMessage.remoteUserId data)
                   (ICallMessage.fromUserId data))]) ++
       [callEventChanged CallEvent.onCalling]
    /\ (forall time : Z,
          truthy_id (ICallMessage.fromUserId data) = true ->
          callTimeoutMillisecond (prepareConfig (api w)) = Some time ->
          time <> 0 ->
          _cancelCallTimer a1 = Some (nextTimer (rt w))
          /\ ts =
             filter (fun t => match _cancelCallTimer (api w) with
                              | Some id => negb (Nat.eqb (timer_id t) id)
                              | None => true
                              end) (timers (rt w))
             ++ [mkTimer (nextTimer (rt w)) time false]).
Proof.
  intros Hgate. rewrite <- receiveVideoCall_split.
  destruct w as [a r l]. cbn [api rt log] in *.
  unfold receiveVideoCall_commit.
  cbv beta iota zeta delta [bind this update]. cbn [api rt log].
  rewrite Hgate. cbn [negb].
  match goal with
  | |- context [_autoCancelCall false ?W] =>
      destruct (autoCancelCall_effect false W) as (tm & ts & n & Hac & Harm & _)
  end.
  rewrite Hac. clear Hac.
  cbn [api rt log awaits joins jobs observed timers nextTimer
       remoteUserId prepareConfig callTimeoutMillisecond _cancelCallTimer
       set_cancelCallTimer set_prepareConfig set_remoteUserId
       set_callMessage set_callInfo] in Harm |- *.
  unfold _callStateChange, _callEventChange. prim.
  destruct (CallStateType.eqb (state a) CallStateType.calling) eqn:Es; prim.
  - apply CallStateType_eqb_eq in Es.
    eexists. exists ts, n. eexists. split; [reflexivity |].
    cbn [prepareConfig callConfig remoteUserId state _rtcJoined jobs
         localTracks remoteTracks _receiveRemoteFirstFrameDecoded
         _cancelCallTimer
         set_cancelCallTimer set_prepareConfig set_remoteUserId
         set_callMessage set_callInfo].
    unfold with_roomId, getCallId.
    cbn [_callMessage set_cancelCallTimer set_prepareConfig set_remoteUserId
         set_callMessage set_callInfo CallMessage.getCallId
         CallMessage.setCallId CallMessage.held_callId].
    repeat (split; [first [reflexivity | exact Es] |]).
    split; [rewrite !map_app; cbn [map obs app]; reflexivity |].
    exact Harm.
  - eexists. exists ts, n. eexists. split; [reflexivity |].
    cbn [prepareConfig callConfig remoteUserId state _rtcJoined jobs
         localTracks remoteTracks _receiveRemoteFirstFrameDecoded
         _cancelCallTimer
         set_cancelCallTimer set_prepareConfig set_remoteUserId
         set_callMessage set_callInfo set_state].
    unfold with_roomId, getCallId.
    cbn [_callMessage set_cancelCallTimer set_prepareConfig set_remoteUserId
         set_callMessage set_callInfo set_state CallMessage.getCallId
         CallMessage.setCallId CallMessage.held_callId].
    repeat (split; [reflexivity |]).
    split; [rewrite !map_app; cbn [map obs]; rewrite <- !app_assoc;
            reflexivity |].
    exact Harm.
Qed.

(** The timer a turn has just armed, firing in the next turn: the world
    [w1] holds the timer [mkTimer id time isLocal] alone and is in state
    [calling]. *)
Lemma armed_timer_fires (w1 : World) (id : nat) (time : Z) (isLocal : bool) :
  jobs (rt w1) = [] ->
  timers (rt w1) = [mkTimer id time isLocal] ->
  state (api w1) = CallStateType.calling ->
  let w2 := step w1 (on_timeout id) in
  state (api w2) = CallStateType.prepared
  /\ map obs (log w2) =
     map obs (log w1) ++
     [callStateChanged CallStateType.prepared CallStateReason.callingTimeout
        None info_undefined;
      callEventChanged
        (if isLocal then CallEvent.callingTimeout
         else CallEvent.remoteCallingTimeout);
      sendMessage (remoteUserId (api w1))
        (ICallMessage.mk (getCallId (api w1)) (userId (callConfig (api w1)))
           (remoteUserId (api w1)) None CallAction.Cancel None None
           (Some RejectByInternal.Internal))] ++
     closing (api w1) ++
     (if _rtcJoined (api w1) then [rtc_leave]
      else clearing (prepareConfig (api w1))).
Proof.
  intros Hjobs Hts Hs. cbv zeta.
  assert (Hf : find (fun t => Nat.eqb (timer_id t) id) (timers (rt w1))
               = Some (mkTimer id time isLocal)).
  { rewrite Hts. cbn [find timer_id]. rewrite Nat.eqb_refl. reflexivity. }
  destruct (timeout_turn w1 id _ Hjobs Hf) as [H _]. cbv zeta in H.
  destruct (H (or_introl Hs)) as (Hst & Hl & _).
  split; [exact Hst | exact Hl].
Qed.

(** C5: the timeout timer, from arming to firing.  When a pending timer
    fires in state [calling] or [connecting], the object goes to
    [prepared] with reason [callingTimeout], emits [callingTimeout] or
    [remoteCallingTimeout] according to the flag the timer was armed
    with, requests the sending of a [Cancel] with
    [cancelCallByInternal = Internal] to the peer and, with that request
    still pending, runs [destory] in the same turn; in any other state
    the firing changes neither the object nor the log and requests
    nothing.  The timer armed by [call] carries the flag of the local
    side: when it fires in the next turn the event is [callingTimeout]
    and the [Cancel] goes to the callee with the call id of the call.
    The timer armed by an obeyed invitation carries the other flag: when
    it fires the event is [remoteCallingTimeout] and the [Cancel] goes to
    the inviter with the call id of the invitation. *)
Theorem timeout_fires_as_armed (config : ICallConfig) (w : World) :
  reachable config w ->
  let change :=
    callStateChanged CallStateType.prepared CallStateReason.callingTimeout
      None info_undefined in
  let teardown :=
    closing (api w) ++
    (if _rtcJoined (api w) then [rtc_leave]
     else clearing (prepareConfig (api w))) in
  (forall (id : nat) (t : Timer),
     find (fun t => Nat.eqb (timer_id t) id) (timers (rt w)) = Some t ->
     let w1 := step w (on_timeout id) in
     (state (api w) = CallStateType.calling
      \/ state (api w) = CallStateType.connecting ->
      state (api w1) = CallStateType.prepared
      /\ map obs (log w1) =
         map obs (log w) ++
         [change;
          callEventChanged
            (if timer_isLocal t then CallEvent.callingTimeout
             else CallEvent.remoteCallingTimeout);
          sendMessage (remoteUserId (api w))
            (ICallMessage.mk (getCallId (api w))
               (userId (callConfig (api w))) (remoteUserId (api w)) None
               CallAction.Cancel None None
               (Some RejectByInternal.Internal))] ++ teardown
      /\ awaits (rt w1) =
         awaits (rt w) ++
         await_sendMessage after_send_nothing
         :: (if _rtcJoined (api w) then [await_leave after_destory_nothing]
             else []))
     /\ (state (api w) <> CallStateType.calling ->
         state (api w) <> CallStateType.connecting ->
         api w1 = api w /\ log w1 = log w
         /\ awaits (rt w1) = awaits (rt w)))
  /\ (forall (rid : UserId) (ct : option CallType.t) (uuid : string)
        (time : Z),
        state (api w) = CallStateType.prepared ->
        truthy_id rid = true ->
        callTimeoutMillisecond (prepareConfig (api w)) = Some time ->
        time <> 0 ->
        let w1 := step w (do_call rid ct uuid) in
        let w2 := step w1 (on_timeout (nextTimer (rt w))) in
        timers (rt w1) = [mkTimer (nextTimer (rt w)) time true]
        /\ state (api w1) = CallStateType.calling
        /\ state (api w2) = CallStateType.prepared
        /\ map obs (log w2) =
           map obs (log w1) ++
           [change;
            callEventChanged CallEvent.callingTimeout;
            sendMessage rid
              (ICallMessage.mk uuid (userId (callConfig (api w))) rid None
                 CallAction.Cancel None None
                 (Some RejectByInternal.Internal))] ++ teardown)
  /\ (forall (data : ICallMessage.t) (time : Z),
        ICallMessage.message_action data = CallAction.VideoCall ->
        _isCallingUser (api w) (ICallMessage.fromUserId data) = true ->
        truthy_id (ICallMessage.fromUserId data) = true ->
        callTimeoutMillisecond (prepareConfig (api w)) = Some time ->
        time <> 0 ->
        let w1 := step w (on_messageReceive data) in
        let w2 := step w1 (on_timeout (nextTimer (rt w))) in
        timers (rt w1) = [mkTimer (nextTimer (rt w)) time false]
        /\ state (api w1) = CallStateType.calling
        /\ state (api w2) = CallStateType.prepared
        /\ map obs (log w2) =
           map obs (log w1) ++
           [change;
            callEventChanged CallEvent.remoteCallingTimeout;
            sendMessage (ICallMessage.fromUserId data)
              (ICallMessage.mk (ICallMessage.callId data)
                 (userId (callConfig (api w))) (ICallMessage.fromUserId data)
                 None CallAction.Cancel None None
                 (Some RejectByInternal.Internal))] ++ teardown).
Proof.
  intros Hr. cbv zeta.
  pose proof (reachable_quiet config w Hr) as Hjobs.
  destruct (timer_invariant config w Hr) as [Hok _].
  pose proof (held_filter_nil _ _ Hok) as Hheld.
  split; [| split].
  - intros id t Hf. exact (timeout_turn w id t Hjobs Hf).
  - intros rid ct uuid time Hs Hid Ht Hnz.
    destruct (call_arms w rid ct uuid time Hs Hid Ht Hnz)
      as (r1 & l1 & Ec & Hts).
    rewrite Hheld in Hts. cbn [app] in Hts.
    destruct (step_keeps w (do_call rid ct uuid)) as (Ha & Htm & _).
    cbn [handle] in Ha, Htm. rewrite Ec in Ha, Htm.
    cbn [snd api rt] in Ha, Htm. rewrite Hts in Htm.
    assert (Hs1 : state (api (step w (do_call rid ct uuid)))
                  = CallStateType.calling) by (rewrite Ha; reflexivity).
    destruct (armed_timer_fires _ _ _ _ (step_quiet w (do_call rid ct uuid))
                Htm Hs1) as (Hst & Hl).
    split; [exact Htm |]. split; [exact Hs1 |]. split; [exact Hst |].
    rewrite Hl, Ha. reflexivity.
  - intros data time Hact Hgate Hid Ht Hnz.
    destruct (receiveVideoCall_commits w data Hgate)
      as (a1 & ts & nt & l1 & Ec & Hpc & Hcc & Hru & Hci & Hs1 & Hrj & Hlt
          & Hrt & _ & _ & Harm).
    destruct (Harm time Hid Ht Hnz) as [_ Hts]. clear Harm.
    rewrite Hheld in Hts. cbn [app] in Hts.
    match type of Ec with
    | _ = _rtcJoinAndPublish ?K ?W =>
        destruct (rtcJoinAndPublish_begins K W)
          as (r' & media & joining & Hjp & Htm' & _)
    end.
    cbn [api rt log timers] in Hjp, Htm'.
    destruct (step_keeps w (on_messageReceive data)) as (Ha & Htm & _).
    cbn [handle] in Ha, Htm. unfold messageReceive in Ha, Htm.
    rewrite Hact, Ec, Hjp in Ha, Htm. cbn [snd api rt] in Ha, Htm.
    rewrite Htm', Hts in Htm.
    assert (Hs2 : state (api (step w (on_messageReceive data)))
                  = CallStateType.calling) by (rewrite Ha; exact Hs1).
    destruct (armed_timer_fires _ _ _ _
                (step_quiet w (on_messageReceive data)) Htm Hs2)
      as (Hst & Hl).
    split; [exact Htm |]. split; [exact Hs2 |]. split; [exact Hst |].
    rewrite Hl, Ha, Hru, Hci, Hcc, Hrj.
    unfold closing. rewrite Hlt, Hrt, Hpc. reflexivity.
Qed.

Lemma timeout_fires_as_armed_witness :
  reachable alice w_prepared
  /\ state (api w_prepared) = CallStateType.prepared
  /\ callTimeoutMillisecond (prepareConfig (api w_prepared)) = Some 1000
  /\ map obs
       (log (run w_prepared
               [do_call 2 None the_uuid;
                on_timeout (nextTimer (rt w_prepared))]))
     = map obs (log (step w_prepared (do_call 2 None the_uuid))) ++
       [callStateChanged CallStateType.prepared
          CallStateReason.callingTimeout None info_undefined;
        callEventChanged CallEvent.callingTimeout;
        sendMessage 2
          (ICallMessage.mk the_uuid 1 2 None CallAction.Cancel None None
             (Some RejectByInternal.Internal));
        innerHTML_clear (app_view 0); innerHTML_clear (app_view 1)]
  /\ _isCallingUser (api w_prepared) (ICallMessage.fromUserId invite_from_2)
     = true
  /\ map obs
       (log (run w_prepared
               [on_messageReceive invite_from_2;
                on_timeout (nextTimer (rt w_prepared))]))
     = map obs (log (step w_prepared (on_messageReceive invite_from_2))) ++
       [callStateChanged CallStateType.prepared
          CallStateReason.callingTimeout None info_undefined;
        callEventChanged CallEvent.remoteCallingTimeout;
        sendMessage 2
          (ICallMessage.mk "call-of-2" 1 2 None CallAction.Cancel None None
             (Some RejectByInternal.Internal));
        innerHTML_clear (app_view 0); innerHTML_clear (app_view 1)].
Proof.
  assert (Hs : state (api w_prepared) = CallStateType.prepared)
    by (vm_compute; reflexivity).
  assert (Ht : callTimeoutMillisecond (prepareConfig (api w_prepared))
               = Some 1000) by (vm_compute; reflexivity).
  assert (Hg : _isCallingUser (api w_prepared)
                 (ICallMessage.fromUserId invite_from_2) = true)
    by (vm_compute; reflexivity).
  split; [exact reachable_w_prepared |]. split; [exact Hs |].
  split; [exact Ht |].
  destruct (timeout_fires_as_armed alice w_prepared reachable_w_prepared)
    as (_ & Hcall & Hinv).
  assert (Hnz : 1000 <> 0) by discriminate.
  destruct (Hcall 2 None the_uuid 1000 Hs eq_refl Ht Hnz)
    as (_ & _ & _ & Hl1).
  destruct (Hinv invite_from_2 1000 eq_refl Hg eq_refl Ht Hnz)
    as (_ & _ & _ & Hl2).
  split; [cbn [run fold_left]; rewrite Hl1; vm_compute; reflexivity |].
  split; [exact Hg |].
  cbn [run fold_left]. rewrite Hl2. vm_compute. reflexivity.
Defined.

(** ** [accept] and its argument *)

(** The outcome of [_checkAppendView] in state [connecting]: it throws
    exactly when it proceeds and a view is missing. *)
Lemma checkAppendView_outcome (w : World) :
  state (api w) = CallStateType.connecting ->
  fst (_checkAppendView w) =
    (if frame_ready (api w) then
       match localView (prepareConfig (api w)),
             remoteView (prepareConfig (api w)) with
       | None, _ => Threw "localView is undefined"
       | Some _, None => Threw "remoteView is undefined"
       | Some _, Some _ => Ok tt
       end
     else Ok tt)
  /\ state (api (snd (_checkAppendView w))) =
     (if frame_ready (api w) then CallStateType.connected
      else CallStateType.connecting)
  /\ rt (snd (_checkAppendView w)) = rt w
  /\ exists rest : list Point, log (snd (_checkAppendView w)) = log w ++ rest.
Proof.
  destruct w as [a r l]. cbn [api rt log]. intros Hs. unfold frame_ready.
  unfold _checkAppendView, _callStateChange, _playLocalVideo, _palyRemoteVideo,
    _playRemoteAudio.
  prim. rewrite Hs. cbn [CallStateType.eqb negb].
  destruct (truthy_bool (firstFrameWaittingDisabled (prepareConfig a))
            || _receiveRemoteFirstFrameDecoded a); prim.
  2: { split; [reflexivity |]. split; [exact Hs |]. split; [reflexivity |].
       exists []. rewrite app_nil_r. reflexivity. }
  rewrite Hs. cbn [CallStateType.eqb]. prim.
  destruct (localView (prepareConfig a)); prim.
  2: { split; [reflexivity |]. split; [reflexivity |].
       split; [reflexivity |]. eexists. reflexivity. }
  destruct (local_videoTrack (localTracks a)) as [[? []] |]; prim;
    (destruct (remoteView (prepareConfig a)); prim;
     [ destruct (remote_videoTrack (remoteTracks a)) as [[? []] |]; prim;
       destruct (remote_audioTrack (remoteTracks a)) as [[? []] |]; prim
     | ]);
    (split; [reflexivity |]; split; [reflexivity |];
     split; [reflexivity |];
     eexists; rewrite <- ?app_assoc; reflexivity).
Qed.

(** [accept] in state [calling]: the state and the runtime it leaves, and
    what it emits first. *)
Lemma accept_calling_emits (w : World) (uid : UserId) :
  state (api w) = CallStateType.calling ->
  state (api (snd (accept uid w))) =
    (if frame_ready (api w) then CallStateType.connected
     else CallStateType.connecting)
  /\ rt (snd (accept uid w)) =
     suspend (await_sendMessage after_send_nothing) (rt w)
  /\ exists rest : list Obs,
       map obs (log (snd (accept uid w))) =
       map obs (log w) ++
       [callEventChanged CallEvent.localAccepted;
        callStateChanged CallStateType.connecting
          CallStateReason.localAccepted None info_undefined;
        sendMessage uid
          (ICallMessage.mk (getCallId (api w)) (userId (callConfig (api w)))
             uid None CallAction.Accept None None None)] ++ rest.
Proof.
  intros Hs. pose proof (accept_calling_unfold w uid Hs) as E.
  cbv zeta in E.
  match type of E with
  | _ = _checkAppendView ?W =>
      destruct (checkAppendView_outcome W eq_refl)
        as (_ & Hst & Hrt & rest & Hl)
  end.
  cbn [api rt log] in Hst, Hrt, Hl.
  change (frame_ready
            (set_state CallStateType.connecting
               (set_callInfo
                  (CallInfo.add CallInfo.acceptCall (_callInfo (api w)))
                  (api w))))
    with (frame_ready (api w)) in Hst.
  rewrite E. split; [exact Hst |]. split; [exact Hrt |].
  exists (map obs rest). rewrite Hl, !map_app. cbn [map obs point].
  rewrite <- !app_assoc. reflexivity.
Qed.




(** ** The publication and the automatic accept *)

(** [_rtcPublish] resumed (lines 666-679) and what follows it in
    [_receiveVideoCall] (lines 370-373). *)
Lemma rtcPublish_settled_effect (w : World) :
  let w' :=
    mkWorld (api w) (rt w)
      (log w ++
       [point (api w) (rt w)
          (callEventChanged CallEvent.publishFirstLocalVideoFrame)]) in
  _rtcPublish_settled after_join_nothing None w = (Ok tt, w')
  /\ (truthy_bool (autoAccept (prepareConfig (api w))) = false ->
      _rtcPublish_settled after_join_receiveVideoCall None w = (Ok tt, w'))
  /\ (truthy_bool (autoAccept (prepareConfig (api w))) = true ->
      _rtcPublish_settled after_join_receiveVideoCall None w =
      (Ok tt, snd (accept (remoteUserId (api w)) w')))
  /\ (forall (k : AfterJoinAndPublish) (e : Error),
        _rtcPublish_settled k (Some e) w =
        (Ok tt,
         mkWorld (api w) (rt w)
           (log w ++
            [point (api w) (rt w)
               (callError CallErrorEvent.rtcOccurError CallErrorCodeType.rtc
                  e)]))).
Proof.
  cbv zeta. split; [| split; [| split]].
  - destruct w as [a r l]. reflexivity.
  - intros Ha. destruct w as [a r l]. cbn [api rt log] in *.
    unfold _rtcPublish_settled, after_join, _callEventChange. prim.
    rewrite Ha. reflexivity.
  - intros Ha. destruct w as [a r l]. cbn [api rt log] in *.
    unfold _rtcPublish_settled, after_join, _callEventChange.
    cbv beta iota zeta delta [bind emit this when attempt].
    cbn [api rt log]. rewrite Ha. reflexivity.
  - intros k e. destruct w as [a r l].
    unfold _rtcPublish_settled, _rtcJoinAndPublish_catch, _callError. prim.
    reflexivity.
Qed.

(** The settlement of a pending publication reaches [_rtcPublish]. *)
Lemma publish_handle (w : World) (aw rest : list Await)
  (k : AfterJoinAndPublish) (s : Settled) :
  awaits (rt w) = aw ++ await_publish k :: rest ->
  handle (on_settled (List.length aw) s) w =
  _rtcPublish_settled k (failure_of s)
    (mkWorld (api w)
       (mkRuntime (timers (rt w)) (nextTimer (rt w)) (aw ++ rest)
          (joins (rt w)) (jobs (rt w)) (observed (rt w)))
       (log w)).
Proof.
  intros Haw.
  rewrite (settle_handle w _ (await_publish k))
    by (rewrite Haw; apply nth_error_middle).
  rewrite Haw, remove_nth_middle. reflexivity.
Qed.

(** The turn in which a pending publication settles. *)
Lemma publish_turn (w : World) (aw rest : list Await)
  (k : AfterJoinAndPublish) :
  awaits (rt w) = aw ++ await_publish k :: rest ->
  jobs (rt w) = [] ->
  let n := List.length aw in
  let published := callEventChanged CallEvent.publishFirstLocalVideoFrame in
  (forall e : Error,
     let w1 := step w (on_settled n (rejected e)) in
     api w1 = api w
     /\ map obs (log w1) =
        map obs (log w) ++
        [callError CallErrorEvent.rtcOccurError CallErrorCodeType.rtc e])
  /\ (forall tracks : list Track,
        k = after_join_nothing
        \/ truthy_bool (autoAccept (prepareConfig (api w))) = false ->
        let w1 := step w (on_settled n (fulfilled tracks)) in
        api w1 = api w
        /\ map obs (log w1) = map obs (log w) ++ [published])
  /\ (forall tracks : list Track,
        k = after_join_receiveVideoCall ->
        truthy_bool (autoAccept (prepareConfig (api w))) = true ->
        state (api w) = CallStateType.calling ->
        let w1 := step w (on_settled n (fulfilled tracks)) in
        state (api w1) =
          (if frame_ready (api w) then CallStateType.connected
           else CallStateType.connecting)
        /\ exists rest' : list Obs,
             map obs (log w1) =
             map obs (log w) ++
             published
             :: [callEventChanged CallEvent.localAccepted;
                 callStateChanged CallStateType.connecting
                   CallStateReason.localAccepted None info_undefined;
                 sendMessage (remoteUserId (api w))
                   (ICallMessage.mk (getCallId (api w))
                      (userId (callConfig (api w))) (remoteUserId (api w))
                      None CallAction.Accept None None None)] ++ rest')
  /\ (forall tracks : list Track,
        k = after_join_receiveVideoCall ->
        truthy_bool (autoAccept (prepareConfig (api w))) = true ->
        state (api w) <> CallStateType.calling ->
        let w1 := step w (on_settled n (fulfilled tracks)) in
        api w1 = api w
        /\ map obs (log w1) =
           map obs (log w) ++
           [published; callEventChanged CallEvent.stateMismatch]).
Proof.
  intros Haw Hjobs. cbv zeta.
  pose proof (fun s => publish_handle w aw rest k s Haw) as Hh.
  match type of (Hh (fulfilled [])) with
  | _ = _ _ _ ?W0 => set (w0 := W0) in *
  end.
  destruct (rtcPublish_settled_effect w0) as (Hnone & Hoff & Hon & Hfail).
  cbv zeta in Hnone, Hoff, Hon. cbn [api rt log] in Hnone, Hoff, Hon, Hfail.
  split; [| split; [| split]].
  - intros e. rewrite step_of; rewrite Hh; cbn [failure_of];
      rewrite Hfail; cbn [snd api rt log jobs]; [| exact Hjobs].
    split; [reflexivity |]. rewrite map_app. reflexivity.
  - intros tracks [-> | Ha].
    + rewrite step_of; rewrite Hh; cbn [failure_of];
        rewrite Hnone; cbn [snd api rt log jobs]; [| exact Hjobs].
      split; [reflexivity |]. rewrite map_app. reflexivity.
    + destruct k.
      * rewrite step_of; rewrite Hh; cbn [failure_of];
          rewrite Hnone; cbn [snd api rt log jobs]; [| exact Hjobs].
        split; [reflexivity |]. rewrite map_app. reflexivity.
      * rewrite step_of; rewrite Hh; cbn [failure_of];
          rewrite (Hoff Ha); cbn [snd api rt log jobs]; [| exact Hjobs].
        split; [reflexivity |]. rewrite map_app. reflexivity.
  - intros tracks -> Ha Hs.
    match type of (Hon Ha) with
    | _ = (_, snd (accept ?u ?W)) =>
        destruct (accept_calling_emits W u Hs) as (Hst & Hrt & rest' & Hl)
    end.
    cbn [api rt log] in Hst, Hrt, Hl.
    rewrite step_of; rewrite Hh; cbn [failure_of];
      rewrite (Hon Ha); cbn [snd];
      [| rewrite Hrt; unfold suspend; cbn [jobs]; exact Hjobs].
    split; [exact Hst |].
    exists rest'. rewrite Hl, map_app. cbn [map obs point].
    rewrite <- !app_assoc. reflexivity.
  - intros tracks -> Ha Hs.
    match type of (Hon Ha) with
    | _ = (_, snd (accept ?u ?W)) =>
        destruct (accept_refused W u Hs) as (e & He)
    end.
    cbn [api rt log] in He.
    rewrite step_of; rewrite Hh; cbn [failure_of];
      rewrite (Hon Ha), He; cbn [snd api rt log jobs]; [| exact Hjobs].
    split; [reflexivity |]. rewrite !map_app. cbn [map obs point].
    rewrite <- !app_assoc. reflexivity.
Qed.

(** The turn of an obeyed [VideoCall] on an object that has not joined,
    with the room and the token there. *)
Lemma receiveVideoCall_turn (w : World) (data : ICallMessage.t) :
  ICallMessage.message_action data = CallAction.VideoCall ->
  _isCallingUser (api w) (ICallMessage.fromUserId data) = true ->
  _rtcJoined (api w) = false ->
  rtcJoin_refusal
    (with_roomId (ICallMessage.fromRoomId data) (prepareConfig (api w)))
  = None ->
  jobs (rt w) = [] ->
  exists (a1 : CallApi) (ts : list Timer) (nt : nat) (l1 : list Point),
    step w (on_messageReceive data) =
      mkWorld a1
        (mkRuntime ts nt
           (awaits (rt w) ++
            await_createTracks (List.length (joins (rt w)))
            :: await_join (List.length (joins (rt w))) :: [])
           (joins (rt w) ++ [mkJoin 2 false after_join_receiveVideoCall]) []
           (observed (rt w)))
        l1
    /\ prepareConfig a1
       = with_roomId (ICallMessage.fromRoomId data) (prepareConfig (api w))
    /\ callConfig a1 = callConfig (api w)
    /\ remoteUserId a1 = ICallMessage.fromUserId data
    /\ getCallId a1 = ICallMessage.callId data
    /\ state a1 = CallStateType.calling
    /\ _receiveRemoteFirstFrameDecoded a1
       = _receiveRemoteFirstFrameDecoded (api w).
Proof.
  intros Hact Hgate Hj Hok Hjobs.
  destruct (receiveVideoCall_commits w data Hgate)
    as (a1 & ts & nt & l1 & Ec & Hpc & Hcc & Hru & Hci & Hs1 & Hrj & _ & _
        & Hff & _ & _).
  match type of Ec with
  | _ = _rtcJoinAndPublish ?K ?W =>
      assert (Hj1 : _rtcJoined (api W) = false)
        by (cbn [api]; rewrite Hrj; exact Hj);
      assert (Hok1 : rtcJoin_refusal (prepareConfig (api W)) = None)
        by (cbn [api]; rewrite Hpc; exact Hok);
      destruct (rtcJoinAndPublish_starts K W Hj1 Hok1) as (media & Hjp)
  end.
  cbn [api rt log timers nextTimer awaits joins jobs observed] in Hjp.
  assert (Hh : handle (on_messageReceive data) w = _receiveVideoCall data w).
  { cbn [handle]. unfold messageReceive. rewrite Hact. reflexivity. }
  exists a1, ts, nt, (l1 ++ media).
  split.
  - rewrite step_of; rewrite Hh, Ec, Hjp; cbn [snd rt jobs];
      [| exact Hjobs].
    rewrite Hjobs. reflexivity.
  - repeat split; assumption.
Qed.

(** The turn of [call] on a prepared object that has not joined, with
    the room and the token there. *)
Lemma call_turn (w : World) (rid : UserId) (ct : option CallType.t)
  (uuid : string) :
  state (api w) = CallStateType.prepared ->
  _rtcJoined (api w) = false ->
  rtcJoin_refusal (prepareConfig (api w)) = None ->
  jobs (rt w) = [] ->
  exists (a1 : CallApi) (ts : list Timer) (nt : nat) (l1 : list Point),
    step w (do_call rid ct uuid) =
      mkWorld a1
        (mkRuntime ts nt
           (awaits (rt w) ++
            await_createTracks (List.length (joins (rt w)))
            :: await_join (List.length (joins (rt w)))
            :: [await_sendMessage after_send_call])
           (joins (rt w) ++ [mkJoin 2 false after_join_nothing]) []
           (observed (rt w)))
        l1.
Proof.
  intros Hs Hj Hok Hjobs.
  destruct (call_prepared_world w rid ct uuid Hs Hj Hok)
    as (tm & ts & nt & l1 & Ec).
  eexists. exists ts, nt, l1.
  rewrite step_of; cbn [handle]; rewrite Ec; cbn [snd rt jobs];
    [| exact Hjobs].
  rewrite Hjobs. reflexivity.
Qed.

(** X14: the publication and the automatic accept, from the invitation
    on.  Let the object not have joined, and let the local tracks arrive
    and the join be fulfilled in the two turns after an obeyed
    [VideoCall] (room and token there): the publication is then pending,
    and [accept] has not run.  If the publication is rejected,
    [callError(rtcOccurError, rtc)] is emitted and the object accepts
    nothing.  If it is fulfilled, [publishFirstLocalVideoFrame] is
    emitted; with [autoAccept] unset nothing else happens; with
    [autoAccept] set [accept] is run in the same turn for the inviter:
    [localAccepted], the state change to [connecting], the request to
    send [Accept] to the inviter with the call id of the invitation, and
    the state ends [connected] or [connecting] as [_checkAppendView]
    decides.  After [call] instead of the invitation, the fulfilled
    publication emits [publishFirstLocalVideoFrame] and nothing else,
    whatever [autoAccept] is. *)
Theorem auto_accept_follows_the_publication (w : World) (ta tv : Track) :
  _rtcJoined (api w) = false ->
  jobs (rt w) = [] ->
  let n := List.length (awaits (rt w)) in
  let settled :=
    [on_settled n (fulfilled [ta; tv]); on_settled n (fulfilled [])] in
  let published := callEventChanged CallEvent.publishFirstLocalVideoFrame in
  (forall data : ICallMessage.t,
     ICallMessage.message_action data = CallAction.VideoCall ->
     _isCallingUser (api w) (ICallMessage.fromUserId data) = true ->
     rtcJoin_refusal
       (with_roomId (ICallMessage.fromRoomId data) (prepareConfig (api w)))
     = None ->
     let w3 := run w (on_messageReceive data :: settled) in
     awaits (rt w3) =
       awaits (rt w) ++ [await_publish after_join_receiveVideoCall]
     /\ state (api w3) = CallStateType.calling
     /\ (forall e : Error,
           let w4 := step w3 (on_settled n (rejected e)) in
           api w4 = api w3
           /\ map obs (log w4) =
              map obs (log w3) ++
              [callError CallErrorEvent.rtcOccurError CallErrorCodeType.rtc
                 e])
     /\ (truthy_bool (autoAccept (prepareConfig (api w))) = false ->
         forall tracks : list Track,
           let w4 := step w3 (on_settled n (fulfilled tracks)) in
           api w4 = api w3
           /\ map obs (log w4) = map obs (log w3) ++ [published])
     /\ (truthy_bool (autoAccept (prepareConfig (api w))) = true ->
         forall tracks : list Track,
           let w4 := step w3 (on_settled n (fulfilled tracks)) in
           state (api w4) =
             (if frame_ready (api w) then CallStateType.connected
              else CallStateType.connecting)
           /\ exists rest : list Obs,
                map obs (log w4) =
                map obs (log w3) ++
                published
                :: [callEventChanged CallEvent.localAccepted;
                    callStateChanged CallStateType.connecting
                      CallStateReason.localAccepted None info_undefined;
                    sendMessage (ICallMessage.fromUserId data)
                      (ICallMessage.mk (ICallMessage.callId data)
                         (userId (callConfig (api w)))
                         (ICallMessage.fromUserId data) None
                         CallAction.Accept None None None)] ++ rest))
  /\ (forall (rid : UserId) (ct : option CallType.t) (uuid : string),
        state (api w) = CallStateType.prepared ->
        rtcJoin_refusal (prepareConfig (api w)) = None ->
        let w3 := run w (do_call rid ct uuid :: settled) in
        awaits (rt w3) =
          awaits (rt w) ++
          [await_sendMessage after_send_call;
           await_publish after_join_nothing]
        /\ forall tracks : list Track,
             let w4 := step w3 (on_settled (S n) (fulfilled tracks)) in
             api w4 = api w3
             /\ map obs (log w4) = map obs (log w3) ++ [published]).
Proof.
  intros Hj Hjobs. cbv zeta. split.
  - intros data Hact Hgate Hok.
    destruct (receiveVideoCall_turn w data Hact Hgate Hj Hok Hjobs)
      as (a1 & ts & nt & l1 & E1 & Hpc & Hcc & Hru & Hci & Hs1 & Hff).
    change (run w
              (on_messageReceive data
               :: [on_settled (List.length (awaits (rt w)))
                     (fulfilled [ta; tv]);
                   on_settled (List.length (awaits (rt w))) (fulfilled [])]))
      with (run (step w (on_messageReceive data))
              [on_settled (List.length (awaits (rt w))) (fulfilled [ta; tv]);
               on_settled (List.length (awaits (rt w))) (fulfilled [])]).
    rewrite E1. clear E1.
    destruct (pipeline_completes a1 ts nt (awaits (rt w)) []
                (joins (rt w)) (observed (rt w)) l1
                after_join_receiveVideoCall ta tv) as (Ha & Haw & _).
    cbv zeta in Ha, Haw. cbn [app] in Haw.
    match type of Ha with
    | api ?W = _ => set (w3 := W) in *
    end.
    assert (Hq : jobs (rt w3) = []) by apply step_quiet.
    clearbody w3.
    assert (Hs3 : state (api w3) = CallStateType.calling)
      by (rewrite Ha; exact Hs1).
    assert (Hp3 : prepareConfig (api w3)
                  = with_roomId (ICallMessage.fromRoomId data)
                      (prepareConfig (api w)))
      by (rewrite Ha; exact Hpc).
    assert (Hau : truthy_bool (autoAccept (prepareConfig (api w3)))
                  = truthy_bool (autoAccept (prepareConfig (api w))))
      by (rewrite Hp3; reflexivity).
    assert (Hf3 : frame_ready (api w3) = frame_ready (api w)).
    { unfold frame_ready. rewrite Hp3, Ha.
      unfold tracks_stored, channel_joined.
      cbn [_receiveRemoteFirstFrameDecoded set_localTracks set_callInfo
           set_rtcJoined].
      rewrite Hff. reflexivity. }
    assert (Hru3 : remoteUserId (api w3) = ICallMessage.fromUserId data)
      by (rewrite Ha; exact Hru).
    assert (Hci3 : getCallId (api w3) = ICallMessage.callId data)
      by (rewrite Ha; exact Hci).
    assert (Hcc3 : callConfig (api w3) = callConfig (api w))
      by (rewrite Ha; exact Hcc).
    destruct (publish_turn w3 (awaits (rt w)) []
                after_join_receiveVideoCall Haw Hq)
      as (Hfail & Hoff & Hon & _).
    cbv zeta in Hfail, Hoff, Hon.
    split; [exact Haw |]. split; [exact Hs3 |]. split; [exact Hfail |].
    split.
    + intros Ha0 tracks. apply Hoff. right. rewrite Hau. exact Ha0.
    + intros Ha1 tracks.
      assert (Ha3 : truthy_bool (autoAccept (prepareConfig (api w3))) = true)
        by (rewrite Hau; exact Ha1).
      destruct (Hon tracks eq_refl Ha3 Hs3) as (Hst & rest & Hl).
      rewrite Hf3 in Hst. rewrite Hru3, Hci3, Hcc3 in Hl.
      split; [exact Hst |]. exists rest. exact Hl.
  - intros rid ct uuid Hs Hok.
    destruct (call_turn w rid ct uuid Hs Hj Hok Hjobs)
      as (a1 & ts & nt & l1 & E1).
    change (run w
              (do_call rid ct uuid
               :: [on_settled (List.length (awaits (rt w)))
                     (fulfilled [ta; tv]);
                   on_settled (List.length (awaits (rt w))) (fulfilled [])]))
      with (run (step w (do_call rid ct uuid))
              [on_settled (List.length (awaits (rt w))) (fulfilled [ta; tv]);
               on_settled (List.length (awaits (rt w))) (fulfilled [])]).
    rewrite E1. clear E1.
    destruct (pipeline_completes a1 ts nt (awaits (rt w))
                [await_sendMessage after_send_call]
                (joins (rt w)) (observed (rt w)) l1
                after_join_nothing ta tv) as (_ & Haw & _).
    cbv zeta in Haw.
    match type of Haw with
    | awaits (rt ?W) = _ => set (w3 := W) in *
    end.
    assert (Hq : jobs (rt w3) = []) by apply step_quiet.
    clearbody w3.
    split; [rewrite Haw; reflexivity |].
    rewrite app_assoc in Haw.
    destruct (publish_turn w3 (awaits (rt w) ++ [await_sendMessage after_send_call])
                [] after_join_nothing Haw Hq) as (_ & Hoff & _).
    cbv zeta in Hoff.
    assert (Hn : List.length (awaits (rt w) ++ [await_sendMessage after_send_call])
                 = S (List.length (awaits (rt w)))).
    { rewrite length_app. cbn [List.length]. apply Nat.add_1_r. }
    rewrite Hn in Hoff.
    intros tracks. apply Hoff. left. reflexivity.
Qed.

Lemma auto_accept_follows_the_publication_witness :
  _rtcJoined (api w_prepared_auto) = false
  /\ jobs (rt w_prepared_auto) = []
  /\ truthy_bool (autoAccept (prepareConfig (api w_prepared_auto))) = true
  /\ state
       (api (step
               (run w_prepared_auto
                  [on_messageReceive invite_from_2;
                   on_settled (List.length (awaits (rt w_prepared_auto)))
                     (fulfilled [mkTrack 1 false; mkTrack 2 false]);
                   on_settled (List.length (awaits (rt w_prepared_auto)))
                     (fulfilled [])])
               (on_settled (List.length (awaits (rt w_prepared_auto)))
                  (fulfilled []))))
     = CallStateType.connected
  /\ In (sendMessage 2
           (ICallMessage.mk "call-of-2" 1 2 None CallAction.Accept None None
              None))
        (map obs
           (log (step
                   (run w_prepared_auto
                      [on_messageReceive invite_from_2;
                       on_settled (List.length (awaits (rt w_prepared_auto)))
                         (fulfilled [mkTrack 1 false; mkTrack 2 false]);
                       on_settled (List.length (awaits (rt w_prepared_auto)))
                         (fulfilled [])])
                   (on_settled (List.length (awaits (rt w_prepared_auto)))
                      (fulfilled []))))).
Proof.
  assert (Hj : _rtcJoined (api w_prepared_auto) = false)
    by (vm_compute; reflexivity).
  assert (Hjobs : jobs (rt w_prepared_auto) = []) by (vm_compute; reflexivity).
  assert (Ha : truthy_bool (autoAccept (prepareConfig (api w_prepared_auto)))
               = true) by (vm_compute; reflexivity).
  assert (Hg : _isCallingUser (api w_prepared_auto)
                 (ICallMessage.fromUserId invite_from_2) = true)
    by (vm_compute; reflexivity).
  assert (Hok : rtcJoin_refusal
                  (with_roomId (ICallMessage.fromRoomId invite_from_2)
                     (prepareConfig (api w_prepared_auto))) = None)
    by (vm_compute; reflexivity).
  split; [exact Hj |]. split; [exact Hjobs |]. split; [exact Ha |].
  destruct (auto_accept_follows_the_publication w_prepared_auto
              (mkTrack 1 false) (mkTrack 2 false) Hj Hjobs) as [H _].
  destruct (H invite_from_2 eq_refl Hg Hok) as (_ & _ & _ & _ & Hon).
  destruct (Hon Ha []) as (Hst & rest & Hl).
  split; [rewrite Hst; vm_compute; reflexivity |].
  rewrite Hl. apply in_or_app. right. right. right. right. left.
  reflexivity.
Defined.

(** ** Subscribing to the peer's video *)

Lemma user_published_settled_video (a : CallApi) (r : Runtime)
  (l : list Point) (t : Track) :
  exists l' : list Point,
    user_published_settled media_video (Some t) None (mkWorld a r l) =
    (Ok tt,
     mkWorld
       (set_remoteTracks
          (mkRemoteTracks (remote_audioTrack (remoteTracks a))
             (Some (playing t))) a)
       (mkRuntime (timers r) (nextTimer r) (awaits r) (joins r) (jobs r)
          (observed r ++ [trackId t]))
       l')
    /\ map obs l' =
       map obs l ++
       track_on_first_frame_decoded t
       :: (if isPlaying t then []
           else [innerHTML_clear REMOTE_VIEW_ELEMENT;
                 track_play t (Some REMOTE_VIEW_ELEMENT)]).
Proof.
  unfold user_published_settled, _palyRemoteVideo, playing. prim.
  destruct t as [tid []]; prim.
  - eexists. split; [reflexivity |]. rewrite !map_app. reflexivity.
  - eexists. split; [reflexivity |]. rewrite !map_app. cbn [map obs].
    rewrite <- !app_assoc. reflexivity.
Qed.

(** X19: the peer's video track, from publication to unpublication, turn
    by turn.  For the committed peer [user-published] asks the media
    client to subscribe.  In the turn in which the subscription is
    fulfilled the track is stored, a first-frame handler is registered on
    it and, unless it is playing, it is played into the remote element,
    in whatever state the object is.  [user-unpublished] then asks the
    media client to unsubscribe; in the turn in which that is fulfilled
    the track is forgotten and nothing is emitted, so that the object is
    again what it was before the publication.  A rejected subscription
    or unsubscription changes neither the object nor the log: it is not
    reported, and after a rejected unsubscription the track is still
    held. *)
Theorem video_subscription_round_trip (w : World) (uid : UserId) (t : Track) :
  uid = remoteUserId (api w) ->
  remote_videoTrack (remoteTracks (api w)) = None ->
  jobs (rt w) = [] ->
  let n := List.length (awaits (rt w)) in
  let w1 := step w (on_user_published uid media_video) in
  let w2 := step w1 (on_settled n (fulfilled [t])) in
  let w3 := step w2 (on_user_unpublished uid media_video) in
  let w4 := step w3 (on_settled n (fulfilled [])) in
  (api w1 = api w
   /\ map obs (log w1) = map obs (log w) ++ [rtc_subscribe uid media_video]
   /\ awaits (rt w1) = awaits (rt w) ++ [await_subscribe uid media_video])
  /\ (api w2 =
        set_remoteTracks
          (mkRemoteTracks (remote_audioTrack (remoteTracks (api w)))
             (Some (playing t))) (api w)
      /\ map obs (log w2) =
         map obs (log w1) ++
         track_on_first_frame_decoded t
         :: (if isPlaying t then []
             else [innerHTML_clear REMOTE_VIEW_ELEMENT;
                   track_play t (Some REMOTE_VIEW_ELEMENT)])
      /\ awaits (rt w2) = awaits (rt w)
      /\ observed (rt w2) = observed (rt w) ++ [trackId t])
  /\ (api w3 = api w2
      /\ map obs (log w3) =
         map obs (log w2) ++ [rtc_unsubscribe uid media_video]
      /\ awaits (rt w3) = awaits (rt w) ++ [await_unsubscribe uid media_video])
  /\ (api w4 = api w /\ log w4 = log w3 /\ awaits (rt w4) = awaits (rt w))
  /\ (forall e : Error,
        let w2' := step w1 (on_settled n (rejected e)) in
        api w2' = api w /\ log w2' = log w1 /\ rt w2' = rt w)
  /\ (forall e : Error,
        let w4' := step w3 (on_settled n (rejected e)) in
        api w4' = api w2 /\ log w4' = log w3 /\ rt w4' = rt w2).
Proof.
  intros Hu Hv Hjobs. cbv zeta.
  assert (Hb : (uid =? remoteUserId (api w)) = true)
    by (apply Z.eqb_eq; exact Hu).
  assert (E1 : step w (on_user_published uid media_video) =
               mkWorld (api w) (suspend (await_subscribe uid media_video) (rt w))
                 (log w ++
                  [point (api w) (rt w) (rtc_subscribe uid media_video)])).
  { assert (Hh : handle (on_user_published uid media_video) w =
                 (Ok tt,
                  mkWorld (api w)
                    (suspend (await_subscribe uid media_video) (rt w))
                    (log w ++
                     [point (api w) (rt w) (rtc_subscribe uid media_video)]))).
    { destruct w as [a r l]. cbn [api rt log] in *. cbn [handle].
      unfold user_published. prim. rewrite Hb. reflexivity. }
    rewrite step_of; rewrite Hh; [reflexivity | exact Hjobs]. }
  rewrite E1.
  destruct (user_published_settled_video (api w) (rt w)
              (log w ++ [point (api w) (rt w) (rtc_subscribe uid media_video)])
              t) as (l2 & Es & Hl2).
  assert (E2 : step
                 (mkWorld (api w)
                    (suspend (await_subscribe uid media_video) (rt w))
                    (log w ++
                     [point (api w) (rt w) (rtc_subscribe uid media_video)]))
                 (on_settled (List.length (awaits (rt w))) (fulfilled [t]))
               = mkWorld
                   (set_remoteTracks
                      (mkRemoteTracks (remote_audioTrack (remoteTracks (api w)))
                         (Some (playing t))) (api w))
                   (mkRuntime (timers (rt w)) (nextTimer (rt w))
                      (awaits (rt w)) (joins (rt w)) (jobs (rt w))
                      (observed (rt w) ++ [trackId t]))
                   l2).
  { rewrite step_of; rewrite settle_last;
      cbn [resume failure_of tracks_of hd_error]; rewrite Es;
      [reflexivity | exact Hjobs]. }
  rewrite E2.
  set (a2 := set_remoteTracks
               (mkRemoteTracks (remote_audioTrack (remoteTracks (api w)))
                  (Some (playing t))) (api w)) in *.
  set (r2 := mkRuntime (timers (rt w)) (nextTimer (rt w)) (awaits (rt w))
               (joins (rt w)) (jobs (rt w)) (observed (rt w) ++ [trackId t]))
    in *.
  assert (E3 : step (mkWorld a2 r2 l2) (on_user_unpublished uid media_video) =
               mkWorld a2 (suspend (await_unsubscribe uid media_video) r2)
                 (l2 ++ [point a2 r2 (rtc_unsubscribe uid media_video)])).
  { assert (Hh : handle (on_user_unpublished uid media_video)
                   (mkWorld a2 r2 l2) =
                 (Ok tt,
                  mkWorld a2 (suspend (await_unsubscribe uid media_video) r2)
                    (l2 ++ [point a2 r2 (rtc_unsubscribe uid media_video)]))).
    { cbn [handle]. unfold user_unpublished. prim.
      change (remoteUserId a2) with (remoteUserId (api w)).
      rewrite Hb. reflexivity. }
    rewrite step_of; rewrite Hh; [reflexivity | exact Hjobs]. }
  rewrite E3.
  assert (Hn : List.length (awaits (rt w)) = List.length (awaits r2))
    by reflexivity.
  assert (Ha4 : set_remoteTracks
                  (mkRemoteTracks (remote_audioTrack (remoteTracks a2)) None)
                  a2 = api w).
  { unfold a2. destruct (api w) as [cc pc st ru lt [ra rv] ct ci cm rj ff tm].
    cbn in Hv |- *. rewrite Hv. reflexivity. }
  split.
  { cbn [api rt log]. split; [reflexivity |].
    split; [rewrite map_app; reflexivity | reflexivity]. }
  split.
  { cbn [api rt log]. split; [reflexivity |].
    split; [rewrite Hl2, map_app; reflexivity |].
    split; reflexivity. }
  split.
  { cbn [api rt log]. split; [reflexivity |].
    split; [rewrite map_app; reflexivity | reflexivity]. }
  split.
  { rewrite Hn, step_of; rewrite settle_last;
      cbn [resume failure_of user_unpublished_settled]; prim;
      [| exact Hjobs].
    rewrite Ha4. repeat split. }
  split.
  - intros e. rewrite step_of; rewrite settle_last;
      cbn [resume failure_of user_published_settled ret snd api rt log];
      [| exact Hjobs].
    repeat split.
  - intros e. rewrite Hn, step_of; rewrite settle_last;
      cbn [resume failure_of user_unpublished_settled ret snd api rt log];
      [| exact Hjobs].
    repeat split.
Qed.

Lemma video_subscription_round_trip_witness :
  2 = remoteUserId (api w_calling)
  /\ remote_videoTrack (remoteTracks (api w_calling)) = None
  /\ jobs (rt w_calling) = []
  /\ remote_videoTrack
       (remoteTracks
          (api (run w_calling
                  [on_user_published 2 media_video;
                   on_settled (List.length (awaits (rt w_calling)))
                     (fulfilled [mkTrack 5 false])])))
     = Some (mkTrack 5 true)
  /\ api (run w_calling
            [on_user_published 2 media_video;
             on_settled (List.length (awaits (rt w_calling)))
               (fulfilled [mkTrack 5 false]);
             on_user_unpublished 2 media_video;
             on_settled (List.length (awaits (rt w_calling))) (fulfilled [])])
     = api w_calling.
Proof.
  assert (Hu : 2 = remoteUserId (api w_calling)) by (vm_compute; reflexivity).
  assert (Hv : remote_videoTrack (remoteTracks (api w_calling)) = None)
    by (vm_compute; reflexivity).
  assert (Hjobs : jobs (rt w_calling) = []) by (vm_compute; reflexivity).
  split; [exact Hu |]. split; [exact Hv |]. split; [exact Hjobs |].
  destruct (video_subscription_round_trip w_calling 2 (mkTrack 5 false)
              Hu Hv Hjobs) as (_ & (Ha2 & _) & _ & (Ha4 & _) & _).
  split; [cbn [run fold_left]; rewrite Ha2; reflexivity |].
  cbn [run fold_left]. exact Ha4.
Defined.
